(** * sRPC: a shallow embedding of empijei/srpc (codec.go, srpc.go)

    Go strings and byte slices are modelled as [bytes := list Z], every
    element a byte in [0, 255].  The Go standard library pieces the code
    calls ([unicode/utf8], [encoding/json], [net/url], [net/http]) are
    modelled on the subset of their behaviour the code exercises. *)

From Stdlib Require Import ZArith Lia List String Ascii Bool.
From Stdlib Require Import Zbitwise.
Import ListNotations.
Open Scope Z_scope.
Set Warnings "-register-all".

Definition bytes := list Z.

(** A Go string literal as bytes. *)
Definition s2b (s : string) : bytes :=
  map (fun a => Z.of_N (N_of_ascii a)) (list_ascii_of_string s).

Definition is_byte (b : Z) : bool := (0 <=? b) && (b <=? 255).
Definition all_bytes (s : bytes) : bool := forallb is_byte s.

Definition bytes_eqb (a b : bytes) : bool :=
  if list_eq_dec Z.eq_dec a b then true else false.

(** strings.HasPrefix *)
Fixpoint HasPrefix (s prefix : bytes) : bool :=
  match prefix, s with
  | [], _ => true
  | p :: ps, c :: cs => (p =? c) && HasPrefix cs ps
  | _ :: _, [] => false
  end.

(** * unicode/utf8 *)
Module UTF8.

Definition RuneError : Z := 65533.   (* U+FFFD *)
Definition RuneSelf : Z := 128.
Definition MaxRune : Z := 1114111.   (* U+10FFFF *)
Definition surrogateMin : Z := 55296. (* 0xD800 *)
Definition surrogateMax : Z := 57343. (* 0xDFFF *)

Definition t2 : Z := 192. (* 0xC0 *)
Definition t3 : Z := 224. (* 0xE0 *)
Definition t4 : Z := 240. (* 0xF0 *)
Definition tx : Z := 128. (* 0x80 *)
Definition maskx : Z := 63.
Definition mask2 : Z := 31.
Definition mask3 : Z := 15.
Definition mask4 : Z := 7.
Definition rune1Max : Z := 127.
Definition rune2Max : Z := 2047.
Definition rune3Max : Z := 65535.
Definition locb : Z := 128. (* 0x80 *)
Definition hicb : Z := 191. (* 0xBF *)

(** The [first] table of utf8.go: ASCII, invalid, or the size of the
    sequence with the accepted range of its second byte
    ([acceptRanges]). *)
Inductive first_info := FAs | FXx | FSeq (sz : nat) (lo hi : Z).

Definition first (p0 : Z) : first_info :=
  if p0 <? 128 then FAs
  else if p0 <? 194 then FXx                    (* 0x80 .. 0xC1 *)
  else if p0 <? 224 then FSeq 2 locb hicb       (* 0xC2 .. 0xDF: s1 *)
  else if p0 =? 224 then FSeq 3 160 hicb        (* 0xE0: s2, A0..BF *)
  else if p0 <? 237 then FSeq 3 locb hicb       (* 0xE1 .. 0xEC: s3 *)
  else if p0 =? 237 then FSeq 3 locb 159        (* 0xED: s4, 80..9F *)
  else if p0 <? 240 then FSeq 3 locb hicb       (* 0xEE .. 0xEF: s3 *)
  else if p0 =? 240 then FSeq 4 144 hicb        (* 0xF0: s5, 90..BF *)
  else if p0 <? 244 then FSeq 4 locb hicb       (* 0xF1 .. 0xF3: s6 *)
  else if p0 =? 244 then FSeq 4 locb 143        (* 0xF4: s7, 80..8F *)
  else FXx.                                     (* 0xF5 .. 0xFF *)

Definition out (b lo hi : Z) : bool := (b <? lo) || (hi <? b).

(** utf8.DecodeRune *)
Definition DecodeRune (p : bytes) : Z * nat :=
  match p with
  | [] => (RuneError, 0%nat)
  | p0 :: rest =>
    match first p0 with
    | FAs => (p0, 1%nat)
    | FXx => (RuneError, 1%nat)
    | FSeq sz lo hi =>
      if (List.length p <? sz)%nat then (RuneError, 1%nat) else
      match rest with
      | [] => (RuneError, 1%nat)
      | b1 :: rest1 =>
        if out b1 lo hi then (RuneError, 1%nat)
        else if (sz <=? 2)%nat then
          (Z.lor (Z.shiftl (Z.land p0 mask2) 6) (Z.land b1 maskx), 2%nat)
        else match rest1 with
        | [] => (RuneError, 1%nat)
        | b2 :: rest2 =>
          if out b2 locb hicb then (RuneError, 1%nat)
          else if (sz <=? 3)%nat then
            (Z.lor (Z.lor (Z.shiftl (Z.land p0 mask3) 12)
                          (Z.shiftl (Z.land b1 maskx) 6))
                   (Z.land b2 maskx), 3%nat)
          else match rest2 with
          | [] => (RuneError, 1%nat)
          | b3 :: _ =>
            if out b3 locb hicb then (RuneError, 1%nat)
            else (Z.lor (Z.lor (Z.lor (Z.shiftl (Z.land p0 mask4) 18)
                                      (Z.shiftl (Z.land b1 maskx) 12))
                               (Z.shiftl (Z.land b2 maskx) 6))
                        (Z.land b3 maskx), 4%nat)
          end
        end
      end
    end
  end.

(** Go's [byte(x)] conversion. *)
Definition byte (x : Z) : Z := Z.land x 255.

(** utf8.EncodeRune (with encodeRuneNonASCII); [uint32(r)] is [r mod 2^32]. *)
Definition EncodeRune (r : Z) : bytes :=
  let i := r mod 2^32 in
  if i <=? rune1Max then [byte r]
  else if i <=? rune2Max then
    [Z.lor t2 (byte (Z.shiftr r 6)); Z.lor tx (Z.land (byte r) maskx)]
  else if (i <? surrogateMin) || ((surrogateMax <? i) && (i <=? rune3Max)) then
    [Z.lor t3 (byte (Z.shiftr r 12)); Z.lor tx (Z.land (byte (Z.shiftr r 6)) maskx);
     Z.lor tx (Z.land (byte r) maskx)]
  else if (rune3Max <? i) && (i <=? MaxRune) then
    [Z.lor t4 (byte (Z.shiftr r 18)); Z.lor tx (Z.land (byte (Z.shiftr r 12)) maskx);
     Z.lor tx (Z.land (byte (Z.shiftr r 6)) maskx); Z.lor tx (Z.land (byte r) maskx)]
  else
    (* invalid rune: encode RuneError *)
    [239; 191; 189].

End UTF8.


(** * encoding/json, on a universe of Go types

    Go types: [string], [bool], struct types (anonymous, with their field
    names and types, in declaration order), defined (named) types, and
    channel types, which encoding/json does not support.
    Field names are ASCII identifiers; a field is exported when its name
    starts with an upper-case letter.  Struct tags and embedded fields are
    not modelled. *)
Module JSON.
Import UTF8.

Inductive gotype :=
| TString
| TBool
| TStruct (fields : list (string * gotype))
| TNamed (name : string) (underlying : gotype)
| TChan.
    (** a channel type [chan E]; its element type plays no part here *)

Inductive goval :=
| VString (s : bytes)
| VBool (b : bool)
| VStruct (fields : list goval)
| VChan (id : nat).
    (** a channel, [0] being the nil channel *)

(** token.IsExported on an ASCII field name. *)
Definition IsExported (name : string) : bool :=
  match name with
  | String c _ => let n := Z.of_N (N_of_ascii c) in (65 <=? n) && (n <=? 90)
  | EmptyString => false
  end.

(** The zero value of a type. *)
Fixpoint zero (t : gotype) : goval :=
  match t with
  | TString => VString []
  | TBool => VBool false
  | TStruct fs => VStruct (map (fun f => zero (snd f)) fs)
  | TNamed _ u => zero u
  | TChan => VChan 0
  end.

(** Values of a type. *)
Fixpoint typed (t : gotype) (v : goval) : bool :=
  match t, v with
  | TString, VString s => all_bytes s
  | TBool, VBool _ => true
  | TStruct fs, VStruct vs =>
      (fix go (fs : list (string * gotype)) (vs : list goval) : bool :=
         match fs, vs with
         | [], [] => true
         | f :: fs', v :: vs' => typed (snd f) v && go fs' vs'
         | _, _ => false
         end) fs vs
  | TNamed _ u, _ => typed u v
  | TChan, VChan _ => true
  | _, _ => false
  end.

(** The [hex] digit table of encode.go: "0123456789abcdef". *)
Definition hex (d : Z) : Z := if d <? 10 then 48 + d else 87 + d.

(** [htmlSafeSet]: the ASCII bytes written unescaped when HTML escaping is
    on (as json.Marshal does): every byte >= 0x20 but the double quote,
    the backslash, the less-than and greater-than signs and the ampersand. *)
Definition htmlSafe (b : Z) : bool :=
  (32 <=? b) && (b <? 128) && negb (existsb (Z.eqb b) [34; 92; 60; 62; 38]).

(** The escape written for an ASCII byte outside [htmlSafeSet]. *)
Definition escapeASCII (b : Z) : bytes :=
  if (b =? 92) || (b =? 34) then [92; b]
  else if b =? 8 then [92; 98]        (* \b *)
  else if b =? 12 then [92; 102]      (* \f *)
  else if b =? 10 then [92; 110]      (* \n *)
  else if b =? 13 then [92; 114]      (* \r *)
  else if b =? 9 then [92; 116]       (* \t *)
  else [92; 117; 48; 48; hex (Z.shiftr b 4); hex (Z.land b 15)].   (* \u00XX *)

(** The loop of encode.go's [appendString], one step per byte or rune
    (the [start]/[i] batching of unescaped bytes writes the same output).
    [fuel] bounds the number of steps; [length src] suffices. *)
Fixpoint appendString_loop (fuel : nat) (src : bytes) : bytes :=
  match fuel with
  | O => []
  | S fuel' =>
    match src with
    | [] => []
    | b :: rest =>
      if b <? RuneSelf then
        if htmlSafe b then b :: appendString_loop fuel' rest
        else escapeASCII b ++ appendString_loop fuel' rest
      else
        let (c, size) := DecodeRune src in
        if (c =? RuneError) && (size =? 1)%nat then
          [92; 117; 102; 102; 102; 100] ++ appendString_loop fuel' rest   (* \ufffd *)
        else if (c =? 8232) || (c =? 8233) then          (* U+2028, U+2029 *)
          [92; 117; 50; 48; 50; hex (Z.land c 15)] ++ appendString_loop fuel' (skipn size src)
        else firstn size src ++ appendString_loop fuel' (skipn size src)
    end
  end.

Definition appendString (src : bytes) : bytes :=
  [34] ++ appendString_loop (List.length src) src ++ [34].

(** The text json.Marshal writes, on the types it supports (the struct
    encoder writes the exported fields in declaration order, each as its
    quoted name, a colon and its value, separated by commas). *)
Fixpoint marshal (t : gotype) (v : goval) : bytes :=
  match t, v with
  | TString, VString s => appendString s
  | TBool, VBool b => if b then s2b "true" else s2b "false"
  | TNamed _ u, _ => marshal u v
  | TStruct fs, VStruct vs =>
      let fields :=
        (fix go (fs : list (string * gotype)) (vs : list goval) : list bytes :=
           match fs, vs with
           | f :: fs', v :: vs' =>
               if IsExported (fst f)
               then (appendString (s2b (fst f)) ++ [58] ++ marshal (snd f) v) :: go fs' vs'
               else go fs' vs'
           | _, _ => []
           end) fs vs in
      match fields with
      | [] => s2b "{}"
      | f0 :: fr => [123] ++ f0 ++ flat_map (fun f => 44 :: f) fr ++ [125]
      end
  | _, _ => []
  end.

(** The types whose encoder is [unsupportedTypeEncoder] somewhere on the
    way: a channel, and a struct with an exported field of such a type (the
    struct encoder runs the encoder of every exported field; unexported
    fields are not encoded). *)
Fixpoint unsupported (t : gotype) : bool :=
  match t with
  | TChan => true
  | TStruct fs =>
      (fix go (fs : list (string * gotype)) : bool :=
         match fs with
         | [] => false
         | f :: fs' => (IsExported (fst f) && unsupported (snd f)) || go fs'
         end) fs
  | TNamed _ u => unsupported u
  | _ => false
  end.

(** json.Marshal: [None] is its [UnsupportedTypeError] (the encoding state
    is dropped on error). *)
Definition Marshal (t : gotype) (v : goval) : option bytes :=
  if unsupported t then None else Some (marshal t v).


(** ** Decoding: the scanner and [unquote] of decode.go, fused into one
    parser over the bytes of the stream.  [PEof] is the scanner running out
    of input inside a value, [PErr] a syntax error. *)

Inductive value :=
| JNull
| JBool (b : bool)
| JNumber (lit : bytes)
| JString (s : bytes)
| JArray (elems : list value)
| JObject (members : list (bytes * value)).

Inductive presult (A : Type) := POk (a : A) (rest : bytes) | PErr | PEof.
Arguments POk {A}. Arguments PErr {A}. Arguments PEof {A}.

Definition map_p {A B} (f : A -> B) (r : presult A) : presult B :=
  match r with POk a rest => POk (f a) rest | PErr => PErr | PEof => PEof end.

Definition app_p (pre : bytes) (r : presult bytes) : presult bytes :=
  map_p (fun s => pre ++ s) r.

Definition isSpace (c : Z) : bool := (c =? 32) || (c =? 9) || (c =? 10) || (c =? 13).

Fixpoint skipSpace (s : bytes) : bytes :=
  match s with
  | c :: r => if isSpace c then skipSpace r else s
  | [] => []
  end.

Definition isDigit (c : Z) : bool := (48 <=? c) && (c <=? 57).

Definition hexval (c : Z) : option Z :=
  if isDigit c then Some (c - 48)
  else if (97 <=? c) && (c <=? 102) then Some (c - 87)
  else if (65 <=? c) && (c <=? 70) then Some (c - 55)
  else None.

(** [getu4] on the four hex digits after a backslash-u. *)
Definition getu4 (s : bytes) : presult Z :=
  match s with
  | a :: b :: c :: d :: rest =>
      match hexval a, hexval b, hexval c, hexval d with
      | Some x, Some y, Some z, Some w => POk (((x * 16 + y) * 16 + z) * 16 + w) rest
      | _, _, _, _ => PErr
      end
  | _ => if forallb (fun c => if hexval c then true else false) s then PEof else PErr
  end.

(** unicode/utf16 *)
Definition IsSurrogate (r : Z) : bool := (55296 <=? r) && (r <? 57344).
Definition utf16_DecodeRune (r1 r2 : Z) : Z :=
  if (55296 <=? r1) && (r1 <? 56320) && (56320 <=? r2) && (r2 <? 57344)
  then Z.lor (Z.shiftl (r1 - 55296) 10) (r2 - 56320) + 65536
  else RuneError.

(** The second half of a surrogate pair, when an escape follows. *)
Definition next_u4 (s : bytes) : option (Z * bytes) :=
  match s with
  | 92 :: 117 :: r => match getu4 r with POk rr r' => Some (rr, r') | _ => None end
  | _ => None
  end.

(** A string literal, after its opening quote. *)
Fixpoint parse_string (fuel : nat) (s : bytes) : presult bytes :=
  match fuel with
  | O => PErr
  | S fuel' =>
    match s with
    | [] => PEof
    | c :: rest =>
      if c =? 34 then POk [] rest
      else if c =? 92 then
        match rest with
        | [] => PEof
        | e :: rest2 =>
          if (e =? 34) || (e =? 92) || (e =? 47) then app_p [e] (parse_string fuel' rest2)
          else if e =? 98 then app_p [8] (parse_string fuel' rest2)
          else if e =? 102 then app_p [12] (parse_string fuel' rest2)
          else if e =? 110 then app_p [10] (parse_string fuel' rest2)
          else if e =? 114 then app_p [13] (parse_string fuel' rest2)
          else if e =? 116 then app_p [9] (parse_string fuel' rest2)
          else if e =? 117 then
            match getu4 rest2 with
            | POk rr rest3 =>
              if IsSurrogate rr then
                match next_u4 rest3 with
                | Some (rr1, rest4) =>
                    let dec := utf16_DecodeRune rr rr1 in
                    if dec =? RuneError
                    then app_p (EncodeRune RuneError) (parse_string fuel' rest3)
                    else app_p (EncodeRune dec) (parse_string fuel' rest4)
                | None => app_p (EncodeRune RuneError) (parse_string fuel' rest3)
                end
              else app_p (EncodeRune rr) (parse_string fuel' rest3)
            | PErr => PErr
            | PEof => PEof
            end
          else PErr
        end
      else if c <? 32 then PErr
      else if c <? RuneSelf then app_p [c] (parse_string fuel' rest)
      else
        let (rr, size) := DecodeRune s in
        app_p (EncodeRune rr) (parse_string fuel' (skipn size s))
    end
  end.

Fixpoint parse_literal (lit s : bytes) : presult unit :=
  match lit, s with
  | [], _ => POk tt s
  | _ :: _, [] => PEof
  | l :: lit', c :: s' => if l =? c then parse_literal lit' s' else PErr
  end.

Fixpoint span_digits (s : bytes) : bytes * bytes :=
  match s with
  | c :: r => if isDigit c then let (ds, r') := span_digits r in (c :: ds, r') else ([], s)
  | [] => ([], [])
  end.

(** Exponent part of a number literal. *)
Definition number_exp (lit s : bytes) : presult bytes :=
  match s with
  | e :: r =>
    if (e =? 101) || (e =? 69) then
      let (sg, r1) := match r with
                      | c :: r' => if (c =? 43) || (c =? 45) then ([c], r') else ([], r)
                      | [] => ([], r)
                      end in
      match r1 with
      | [] => PEof
      | d :: _ => if isDigit d then let (ds, r2) := span_digits r1 in
                                    POk (lit ++ e :: sg ++ ds) r2
                  else PErr
      end
    else POk lit s
  | [] => POk lit s
  end.

(** Fraction and exponent, after the integer part. *)
Definition number_frac (lit s : bytes) : presult bytes :=
  match s with
  | 46 :: r =>
      match r with
      | [] => PEof
      | d :: _ => if isDigit d then let (ds, r2) := span_digits r in
                                    number_exp (lit ++ 46 :: ds) r2
                  else PErr
      end
  | _ => number_exp lit s
  end.

(** A number literal (the scanner's grammar), starting at its first byte. *)
Definition parse_number (s : bytes) : presult bytes :=
  let (neg, s1) := match s with 45 :: r => ([45], r) | _ => ([], s) end in
  match s1 with
  | [] => PEof
  | c :: r =>
    if c =? 48 then number_frac (neg ++ [48]) r
    else if isDigit c then let (ds, r') := span_digits r in number_frac (neg ++ c :: ds) r'
    else PErr
  end.

Fixpoint parse_value (fuel : nat) (s : bytes) : presult value :=
  match fuel with
  | O => PErr
  | S f =>
    match skipSpace s with
    | [] => PEof
    | c :: r =>
      if c =? 123 then parse_object f r
      else if c =? 91 then parse_array f r
      else if c =? 34 then map_p JString (parse_string (S (List.length r)) r)
      else if c =? 116 then map_p (fun _ => JBool true) (parse_literal (s2b "rue") r)
      else if c =? 102 then map_p (fun _ => JBool false) (parse_literal (s2b "alse") r)
      else if c =? 110 then map_p (fun _ => JNull) (parse_literal (s2b "ull") r)
      else if (c =? 45) || isDigit c then map_p JNumber (parse_number (c :: r))
      else PErr
    end
  end
(** After the opening brace. *)
with parse_object (fuel : nat) (s : bytes) : presult value :=
  match fuel with
  | O => PErr
  | S f =>
    match skipSpace s with
    | [] => PEof
    | c :: r => if c =? 125 then POk (JObject []) r else parse_members f s []
    end
  end
(** A member (quoted key, colon, value), then a comma or the closing brace. *)
with parse_members (fuel : nat) (s : bytes) (acc : list (bytes * value)) : presult value :=
  match fuel with
  | O => PErr
  | S f =>
    match skipSpace s with
    | [] => PEof
    | c :: r =>
      if negb (c =? 34) then PErr else
      match parse_string (S (List.length r)) r with
      | PErr => PErr
      | PEof => PEof
      | POk key r1 =>
        match skipSpace r1 with
        | [] => PEof
        | c1 :: r2 =>
          if negb (c1 =? 58) then PErr else
          match parse_value f r2 with
          | PErr => PErr
          | PEof => PEof
          | POk v r3 =>
            match skipSpace r3 with
            | [] => PEof
            | c3 :: r4 =>
              if c3 =? 44 then parse_members f r4 (acc ++ [(key, v)])
              else if c3 =? 125 then POk (JObject (acc ++ [(key, v)])) r4
              else PErr
            end
          end
        end
      end
    end
  end
(** After the opening bracket. *)
with parse_array (fuel : nat) (s : bytes) : presult value :=
  match fuel with
  | O => PErr
  | S f =>
    match skipSpace s with
    | [] => PEof
    | c :: r => if c =? 93 then POk (JArray []) r else parse_elems f s []
    end
  end
with parse_elems (fuel : nat) (s : bytes) (acc : list value) : presult value :=
  match fuel with
  | O => PErr
  | S f =>
    match parse_value f s with
    | PErr => PErr
    | PEof => PEof
    | POk v r3 =>
      match skipSpace r3 with
      | [] => PEof
      | c3 :: r4 =>
        if c3 =? 44 then parse_elems f r4 (acc ++ [v])
        else if c3 =? 93 then POk (JArray (acc ++ [v])) r4
        else PErr
      end
    end
  end.

(** foldName, on ASCII: lower-case letters to upper case. *)
Definition foldName (s : bytes) : bytes :=
  map (fun c => if (97 <=? c) && (c <=? 122) then c - 32 else c) s.

(** The exported field a key selects: the first exported field whose name
    is the key, else the first whose folded name is the folded key. *)
Fixpoint find_field (eqk : bytes -> bool) (fs : list (string * gotype)) (i : nat)
  : option nat :=
  match fs with
  | [] => None
  | f :: fs' => if IsExported (fst f) && eqk (s2b (fst f)) then Some i
                else find_field eqk fs' (S i)
  end.

Definition field_index (fs : list (string * gotype)) (key : bytes) : option nat :=
  match find_field (bytes_eqb key) fs 0 with
  | Some i => Some i
  | None => find_field (fun n => bytes_eqb (foldName key) (foldName n)) fs 0
  end.

(** Storing a decoded JSON value into a Go value ([d.value] into an
    addressable [v]); [None] is an UnmarshalTypeError. *)
Fixpoint unmarshal (t : gotype) (j : value) (cur : goval) : option goval :=
  match t with
  | TNamed _ u => unmarshal u j cur
  | TString => match j with JString s => Some (VString s) | JNull => Some cur | _ => None end
  | TBool => match j with JBool b => Some (VBool b) | JNull => Some cur | _ => None end
  | TChan => match j with JNull => Some cur | _ => None end
  | TStruct fs =>
    let set :=
      fix set (fs : list (string * gotype)) (vs : list goval) (i : nat) (jv : value)
        : option (list goval) :=
        match fs, vs with
        | f :: fs', v :: vs' =>
          match i with
          | O => match unmarshal (snd f) jv v with
                 | Some v' => Some (v' :: vs')
                 | None => None
                 end
          | S i' => match set fs' vs' i' jv with
                    | Some vs'' => Some (v :: vs'')
                    | None => None
                    end
          end
        | _, _ => None
        end in
    match j, cur with
    | JNull, _ => Some cur
    | JObject kvs, VStruct vs =>
      let go := fix go (kvs : list (bytes * value)) (vs : list goval) : option (list goval) :=
        match kvs with
        | [] => Some vs
        | (k, jv) :: kvs' =>
          match field_index fs k with
          | None => go kvs' vs
          | Some i => match set fs vs i jv with
                      | Some vs' => go kvs' vs'
                      | None => None
                      end
          end
        end in
      match go kvs vs with Some vs' => Some (VStruct vs') | None => None end
    | _, _ => None
    end
  end.

End JSON.


(** * Errors, streams and effects *)

(** Go [error] values, as far as the code inspects them. *)
Inductive error :=
| EWire (msg : bytes) (code : Z)
    (** [&WireError{Msg, Code}] *)
| EApp (text : bytes) (status : option (Z * bytes))
    (** an application error; [status] is [Some (Status(), Message())] when
        its dynamic type implements [ErrorResponse] *)
| EFmt (format : string) (args : list bytes) (wrapped : list error)
    (** [fmt.Errorf(format, ...)]: its string arguments and its [%w] operands *)
| EJoin (errs : list error)
    (** [errors.Join] of the non-nil errors *)
| EText (text : bytes).
    (** any other error: [errors.New], io, network and parse errors *)

(** The type assertion [err.(ErrorResponse)]. *)
Definition asErrorResponse (e : error) : option (Z * bytes) :=
  match e with
  | EWire msg code => Some (code, msg)
  | EApp _ st => st
  | _ => None
  end.

(** [errors.Join(err, e)] with a non-nil [e]. *)
Definition Join (err : option error) (e : error) : error :=
  match err with None => EJoin [e] | Some e0 => EJoin [e0; e] end.

Inductive result (A : Type) := Ok (a : A) | Err (e : error).
Arguments Ok {A}. Arguments Err {A}.

(** An [io.Reader]: the bytes its reads yield, then [io.EOF] or an error;
    [scloser] is [Some f] when the dynamic type also implements
    [io.Closer], [f n] being the result of its [n]-th [Close] call. *)
Record stream := mkStream {
  sid : nat;
  sdata : bytes;
  sreaderr : option error;
  scloser : option (nat -> option error)
}.

(** [bytes.NewReader(buf)] and [strings.NewReader(s)]. *)
Definition NewReader (buf : bytes) : stream := mkStream 0 buf None None.

(** The requests handed to the HTTP client, and its responses. *)
Record http_Request := mkRequest {
  rq_method : bytes;
  rq_url : bytes;              (* the URL string given to NewRequestWithContext *)
  rq_body : option stream;     (* nil body: None *)
  rq_content_type : bytes;
  rq_cookies : list bytes
}.

Record http_Response := mkResponse {
  StatusCode : Z;
  ContentTypeHeader : bytes;   (* Header.Get("Content-Type") *)
  Body : stream
}.

(** What the code does that a caller can observe besides its result. *)
Inductive event :=
| EvRead (id : nat)              (* reads from a stream *)
| EvClose (id : nat)             (* Close on a stream *)
| EvInvoke                       (* the server calls the application procedure *)
| EvDo (req : http_Request)      (* the client performs the round trip *)
| EvLog (level : Z) (msg : string).

Definition LevelInfo : Z := 0.
Definition LevelWarn : Z := 4.

(** A state monad over the trace of events, oldest first. *)
Definition M (A : Type) := list event -> A * list event.

Definition ret {A} (a : A) : M A := fun tr => (a, tr).
Definition bind {A B} (m : M A) (k : A -> M B) : M B :=
  fun tr => let (a, tr') := m tr in k a tr'.
Definition emit (ev : event) : M unit := fun tr => (tt, tr ++ [ev]).

Notation "x <- m ;; k" := (bind m (fun x => k))
  (at level 61, m at next level, right associativity).
Notation "m ;;; k" := (bind m (fun _ => k)) (at level 61, right associativity).

Definition closes_of (id : nat) (tr : list event) : nat :=
  List.length (filter (fun ev => match ev with EvClose i => Nat.eqb i id | _ => false end) tr).

(** [c.Close()] on a stream (a stream with no [Close] of its own closes
    without error). *)
Definition Close (s : stream) : M (option error) :=
  fun tr =>
    let n := closes_of (sid s) tr in
    (match scloser s with Some f => f n | None => None end, tr ++ [EvClose (sid s)]).

(** [io.ReadAll]. *)
Definition ReadAll (s : stream) : M (result bytes) :=
  emit (EvRead (sid s)) ;;;
  ret (match sreaderr s with None => Ok (sdata s) | Some e => Err e end).

Definition run {A} (m : M A) : A * list event := m [].

(** * codec.go *)

(** [Codec[T]]; [T] ranges over the values of the type universe. *)
Record Codec := mkCodec {
  ContentType : bytes;
  KeepOpen : bool;
  Co : JSON.goval -> M (result stream);
  Dec : stream -> M (result JSON.goval)
}.

(** [empty{}]: its Read returns [0, io.EOF]; it has no Close. *)
Definition empty : stream := mkStream 0 [] None None.

(** [any(zero).(struct{})]: the dynamic type of [any(zero)] is [T], and the
    assertion to the non-interface type [struct{}] holds exactly when [T]
    is identical to it, i.e. is the anonymous struct type with no fields. *)
Definition isEmptyType (t : JSON.gotype) : bool :=
  match t with JSON.TStruct [] => true | _ => false end.

Definition io_EOF : error := EText (s2b "EOF").
Definition io_ErrUnexpectedEOF : error := EText (s2b "unexpected EOF").

(** [*json.UnsupportedTypeError] (its message also names the type). *)
Definition json_UnsupportedTypeError : error := EText (s2b "json: unsupported type").

(** [json.NewDecoder(r).Decode(&t)] with [t] the zero value of [T].  The
    scanner works on the bytes of the stream; when they end inside a value,
    the stream's error is reported (io.EOF when nothing but white space was
    read, io.ErrUnexpectedEOF otherwise).  On an error the partially
    decoded value is dropped: every caller discards it. *)
Definition json_Decode (t : JSON.gotype) (r : stream) : M (result JSON.goval) :=
  emit (EvRead (sid r)) ;;;
  ret (match JSON.parse_value (S (2 * List.length (sdata r))) (sdata r) with
       | JSON.POk j _ =>
           match JSON.unmarshal t j (JSON.zero t) with
           | Some v => Ok v
           | None => Err (EText (s2b "json: cannot unmarshal"))
           end
       | JSON.PErr => Err (EText (s2b "json: syntax error"))
       | JSON.PEof =>
           match sreaderr r with
           | Some e => Err e
           | None => match JSON.skipSpace (sdata r) with
                     | [] => Err io_EOF
                     | _ :: _ => Err io_ErrUnexpectedEOF
                     end
           end
       end).

(** [NewCodecJSON[T]()]; json.Marshal cannot fail on the type universe. *)
Definition NewCodecJSON (t : JSON.gotype) : Codec :=
  let zero := JSON.zero t in
  let isEmpty := isEmptyType t in
  {| ContentType := s2b "application/json";
     KeepOpen := false;
     Co := fun v => if isEmpty then ret (Ok empty)
                    else match JSON.Marshal t v with
                         | None => ret (Err json_UnsupportedTypeError)
                         | Some buf => ret (Ok (NewReader buf))
                         end;
     Dec := fun r => if isEmpty then ret (Ok zero) else json_Decode t r |}.


(** * srpc.go: endpoints *)

Definition QueryKey : bytes := s2b "srpc".
Definition MethodGet : bytes := s2b "GET".
Definition MethodHead : bytes := s2b "HEAD".
Definition MethodOptions : bytes := s2b "OPTIONS".

(** [Endpoint[Response, Request]], with its type arguments. *)
Record Endpoint := mkEndpoint {
  ResponseT : JSON.gotype;
  RequestT : JSON.gotype;
  method : bytes;
  path : bytes;
  stateChanging : bool;
  resc : Codec;
  reqc : Codec
}.

(** [NewEndpoint]; [None] is the panic on a path without a leading slash. *)
Definition NewEndpoint (Response Request : JSON.gotype) (method path : bytes)
    (resc reqc : Codec) : option Endpoint :=
  if negb (HasPrefix path (s2b "/")) then None
  else Some {| ResponseT := Response; RequestT := Request;
               method := method; path := path;
               stateChanging := negb (bytes_eqb method MethodGet) &&
                                negb (bytes_eqb method MethodOptions) &&
                                negb (bytes_eqb method MethodHead);
               resc := resc; reqc := reqc |}.

(** [NewEndpointJSON] *)
Definition NewEndpointJSON (Response Request : JSON.gotype) (method path : bytes)
  : option Endpoint :=
  NewEndpoint Response Request method path (NewCodecJSON Response) (NewCodecJSON Request).

(** ** Server *)

(** [http.StatusText] *)
Definition StatusText (code : Z) : bytes :=
  s2b match code with
  | 100 => "Continue" | 101 => "Switching Protocols" | 102 => "Processing"
  | 103 => "Early Hints"
  | 200 => "OK" | 201 => "Created" | 202 => "Accepted"
  | 203 => "Non-Authoritative Information" | 204 => "No Content"
  | 205 => "Reset Content" | 206 => "Partial Content" | 207 => "Multi-Status"
  | 208 => "Already Reported" | 226 => "IM Used"
  | 300 => "Multiple Choices" | 301 => "Moved Permanently" | 302 => "Found"
  | 303 => "See Other" | 304 => "Not Modified" | 305 => "Use Proxy"
  | 307 => "Temporary Redirect" | 308 => "Permanent Redirect"
  | 400 => "Bad Request" | 401 => "Unauthorized" | 402 => "Payment Required"
  | 403 => "Forbidden" | 404 => "Not Found" | 405 => "Method Not Allowed"
  | 406 => "Not Acceptable" | 407 => "Proxy Authentication Required"
  | 408 => "Request Timeout" | 409 => "Conflict" | 410 => "Gone"
  | 411 => "Length Required" | 412 => "Precondition Failed"
  | 413 => "Request Entity Too Large" | 414 => "Request URI Too Long"
  | 415 => "Unsupported Media Type" | 416 => "Requested Range Not Satisfiable"
  | 417 => "Expectation Failed" | 418 => "I'm a teapot"
  | 421 => "Misdirected Request" | 422 => "Unprocessable Entity" | 423 => "Locked"
  | 424 => "Failed Dependency" | 425 => "Too Early" | 426 => "Upgrade Required"
  | 428 => "Precondition Required" | 429 => "Too Many Requests"
  | 431 => "Request Header Fields Too Large"
  | 451 => "Unavailable For Legal Reasons"
  | 500 => "Internal Server Error" | 501 => "Not Implemented" | 502 => "Bad Gateway"
  | 503 => "Service Unavailable" | 504 => "Gateway Timeout"
  | 505 => "HTTP Version Not Supported" | 506 => "Variant Also Negotiates"
  | 507 => "Insufficient Storage" | 508 => "Loop Detected" | 510 => "Not Extended"
  | 511 => "Network Authentication Required"
  | _ => ""
  end%string.

Definition StatusOK : Z := 200.
Definition StatusBadRequest : Z := 400.
Definition StatusInternalServerError : Z := 500.

(** The final response the handler's [ResponseWriter] sends: its status,
    its Content-Type header and the body bytes its [Write] calls accept
    (to a HEAD request net/http sends these headers without the body). *)
Record response := mkResponse' {
  status : Z;
  resp_content_type : bytes;
  resp_body : bytes
}.

(** A handler either answers or panics (net/http then drops the
    connection). *)
Inductive outcome := Responded (r : response) | Panicked.

(** net/http's [bodyAllowedForStatus]. *)
Definition bodyAllowedForStatus (code : Z) : bool :=
  negb (((100 <=? code) && (code <=? 199)) || (code =? 204) || (code =? 304)).

(** [http.Error(w, msg, code)]: it sets the plain-text content type, calls
    [WriteHeader(code)] and writes the message with [fmt.Fprintln], i.e.
    followed by a newline.  [WriteHeader] panics on a code outside
    100..999; a code in 100..199 other than 101 only sends an informational
    response, and the write that follows sends the final header with status
    200; [Write] fails with [ErrBodyNotAllowed], writing nothing, when the
    status allows no body (the error is dropped by [Fprintln]'s caller). *)
Definition http_Error (msg : bytes) (code : Z) : outcome :=
  if (code <? 100) || (999 <? code) then Panicked
  else
    let st := if (code <=? 199) && negb (code =? 101) then StatusOK else code in
    Responded {| status := st;
                 resp_content_type := s2b "text/plain; charset=utf-8";
                 resp_body := if bodyAllowedForStatus st then msg ++ [10] else [] |}.

(** The inbound exchange: its body, and [hReq.URL.Query().Get(QueryKey)]. *)
Record inbound := mkInbound {
  in_body : stream;
  in_query : bytes
}.

(** The [Validable] capability of the decoded request: [None] when its
    dynamic type does not implement it, else the result of [Validate()]. *)
Definition Validator := JSON.goval -> option (option error).

(** A [Procedure[Response, Request]]. *)
Definition Procedure := JSON.goval -> result JSON.goval.

(** The handler [Register] binds to [method + " " + path]. *)
Definition handler (e : Endpoint) (validate : Validator) (p : Procedure)
    (hReq : inbound) : M outcome :=
  let streamUp := if stateChanging e then in_body hReq else NewReader (in_query hReq) in
  r <- Dec (reqc e) streamUp ;;
  match r with
  | Err _ =>
      emit (EvLog LevelInfo "Bad request") ;;;
      ret (http_Error (s2b "Unable to decode request.") StatusBadRequest)
  | Ok req =>
      match validate req with
      | Some (Some _) =>
          emit (EvLog LevelInfo "Invalid request") ;;;
          ret (http_Error (s2b "Invalid request.") StatusBadRequest)
      | _ =>
          emit EvInvoke ;;;
          match p req with
          | Err err =>
              let '(status, msg) :=
                match asErrorResponse err with
                | Some (st, m) => (st, m)
                | None => (StatusBadRequest, [])
                end in
              let msg := match msg with [] => StatusText status | _ => msg end in
              emit (EvLog LevelInfo "Handler Error") ;;;
              ret (http_Error msg status)
          | Ok resp =>
              sd <- Co (resc e) resp ;;
              match sd with
              | Err _ =>
                  emit (EvLog LevelWarn "Encoder Error") ;;;
                  ret (http_Error (s2b "Failed to encode response.") StatusInternalServerError)
              | Ok streamDown =>
                  (* io.Copy, then the deferred Close when the stream has one *)
                  emit (EvRead (sid streamDown)) ;;;
                  (match sreaderr streamDown with
                   | Some _ => emit (EvLog LevelInfo "streamDown Copy")
                   | None => ret tt
                   end) ;;;
                  (match scloser streamDown with
                   | Some _ =>
                       cerr <- Close streamDown ;;
                       match cerr with
                       | Some _ => emit (EvLog LevelInfo "streamDown Close")
                       | None => ret tt
                       end
                   | None => ret tt
                   end) ;;;
                  ret (Responded {| status := StatusOK;
                                    resp_content_type := ContentType (resc e);
                                    resp_body := sdata streamDown |})
              end
          end
      end
  end.


(** * net/url *)
Module URL.

Inductive encoding := encodePath | encodePathSegment | encodeHost | encodeZone
                    | encodeUserPassword | encodeQueryComponent | encodeFragment.

Definition is_alnum (c : Z) : bool :=
  ((97 <=? c) && (c <=? 122)) || ((65 <=? c) && (c <=? 90)) || ((48 <=? c) && (c <=? 57)).

Definition mem (c : Z) (l : string) : bool := existsb (Z.eqb c) (s2b l).

(** shouldEscape *)
Definition shouldEscape (c : Z) (mode : encoding) : bool :=
  if is_alnum c then false
  else if (match mode with encodeHost | encodeZone => true | _ => false end)
          && mem c "!$&'()*+,;=:[]<>" then false
  else if (c =? 34) && (match mode with encodeHost | encodeZone => true | _ => false end)
  then false
  else if mem c "-_.~" then false
  else if mem c "$&+,/:;=?@" then
    match mode with
    | encodePath => c =? 63
    | encodePathSegment => (c =? 47) || (c =? 59) || (c =? 44) || (c =? 63)
    | encodeUserPassword => (c =? 64) || (c =? 47) || (c =? 63) || (c =? 58)
    | encodeQueryComponent => true
    | encodeFragment => false
    | _ => true
    end
  else if (match mode with encodeFragment => true | _ => false end) && mem c "!()*"
  then false
  else true.

(** The digits of escape: "0123456789ABCDEF". *)
Definition upperhex (d : Z) : Z := if d <? 10 then 48 + d else 55 + d.

(** escape(s, mode), for the modes that write a space as a plus sign. *)
Fixpoint escape (s : bytes) (mode : encoding) : bytes :=
  match s with
  | [] => []
  | c :: r =>
    if shouldEscape c mode then
      if (c =? 32) && (match mode with encodeQueryComponent => true | _ => false end)
      then 43 :: escape r mode
      else 37 :: upperhex (Z.shiftr c 4) :: upperhex (Z.land c 15) :: escape r mode
    else c :: escape r mode
  end.

(** url.QueryEscape *)
Definition QueryEscape (s : bytes) : bytes := escape s encodeQueryComponent.

Definition ishex (c : Z) : bool :=
  ((48 <=? c) && (c <=? 57)) || ((97 <=? c) && (c <=? 102)) || ((65 <=? c) && (c <=? 70)).

Definition unhex (c : Z) : Z :=
  if (48 <=? c) && (c <=? 57) then c - 48
  else if (97 <=? c) && (c <=? 102) then c - 87
  else if (65 <=? c) && (c <=? 70) then c - 55
  else 0.

(** unescape(s, mode); [None] is an EscapeError or InvalidHostError. *)
Fixpoint unescape (s : bytes) (mode : encoding) : option bytes :=
  match s with
  | [] => Some []
  | c :: r =>
    if c =? 37 then
      match r with
      | h1 :: h2 :: r' =>
        if ishex h1 && ishex h2 then
          if (match mode with encodeHost => true | _ => false end) && (unhex h1 <? 8)
             && negb ((h1 =? 50) && (h2 =? 53))
          then None
          else if (match mode with encodeZone => true | _ => false end)
                  && negb ((h1 =? 50) && (h2 =? 53))
                  && negb (unhex h1 * 16 + unhex h2 =? 32)
                  && shouldEscape (unhex h1 * 16 + unhex h2) encodeHost
          then None
          else match unescape r' mode with
               | Some u => Some ((unhex h1 * 16 + unhex h2) :: u)
               | None => None
               end
        else None
      | _ => None
      end
    else if (match mode with encodeHost | encodeZone => true | _ => false end)
            && (c <? 128) && shouldEscape c mode
    then None
    else match unescape r mode with
         | Some u => Some ((if (c =? 43) && (match mode with encodeQueryComponent => true | _ => false end)
                            then 32 else c) :: u)
         | None => None
         end
  end.

(** The parts of a [URL] the code reads or that Parse fills. *)
Record URL := mkURL {
  Scheme : bytes;
  Opaque : bytes;
  User : option bytes;
  Host : bytes;
  Path : bytes;
  ForceQuery : bool;
  RawQuery : bytes;
  Fragment : bytes
}.

Definition emptyURL : URL := mkURL [] [] None [] [] false [] [].

(** strings.Cut *)
Fixpoint Cut (s : bytes) (sep : Z) : bytes * bytes * bool :=
  match s with
  | [] => ([], [], false)
  | c :: r => if c =? sep then ([], r, true)
              else let '(b, a, f) := Cut r sep in (c :: b, a, f)
  end.

(** strings.LastIndex for one byte *)
Definition LastIndex (s : bytes) (c : Z) : option nat :=
  fold_left (fun acc i => if nth i s 0 =? c then Some i else acc)
            (seq 0 (List.length s)) None.

Definition stringContainsCTLByte (s : bytes) : bool :=
  existsb (fun b => (b <? 32) || (b =? 127)) s.

(** getScheme; [None] is the missing protocol scheme error. *)
Fixpoint getScheme_loop (i : nat) (s : bytes) (pre : bytes) (all : bytes)
  : option (bytes * bytes) :=
  match s with
  | [] => Some ([], all)
  | c :: r =>
    if ((97 <=? c) && (c <=? 122)) || ((65 <=? c) && (c <=? 90))
    then getScheme_loop (S i) r (pre ++ [c]) all
    else if ((48 <=? c) && (c <=? 57)) || (c =? 43) || (c =? 45) || (c =? 46) then
      match i with O => Some ([], all) | _ => getScheme_loop (S i) r (pre ++ [c]) all end
    else if c =? 58 then
      match i with O => None | _ => Some (pre, r) end
    else Some ([], all)
  end.

Definition getScheme (rawURL : bytes) : option (bytes * bytes) :=
  getScheme_loop 0 rawURL [] rawURL.

Definition ToLower (s : bytes) : bytes :=
  map (fun c => if (65 <=? c) && (c <=? 90) then c + 32 else c) s.

Definition validOptionalPort (port : bytes) : bool :=
  match port with
  | [] => true
  | c :: r => (c =? 58) && forallb (fun b => (48 <=? b) && (b <=? 57)) r
  end.

(** [strings.Index(s, "%25")], counting from [i]. *)
Fixpoint IndexPct25 (s : bytes) (i : nat) : option nat :=
  match s with
  | 37 :: 50 :: 53 :: _ => Some i
  | _ :: r => IndexPct25 r (S i)
  | [] => None
  end.

(** parseHost: an IP literal in brackets is checked for the closing
    bracket and the port, and a zone identifier after "%25" is unescaped
    in [encodeZone] mode. *)
Definition parseHost (host : bytes) : option bytes :=
  match host with
  | 91 :: _ =>
    match LastIndex host 93 with
    | None => None
    | Some i =>
      if negb (validOptionalPort (skipn (S i) host)) then None
      else match IndexPct25 (firstn i host) 0 with
           | Some zone =>
             match unescape (firstn zone host) encodeHost,
                   unescape (firstn (i - zone) (skipn zone host)) encodeZone,
                   unescape (skipn i host) encodeHost with
             | Some h1, Some h2, Some h3 => Some (h1 ++ h2 ++ h3)
             | _, _, _ => None
             end
           | None => unescape host encodeHost
           end
    end
  | _ => match LastIndex host 58 with
         | None => unescape host encodeHost
         | Some i => if validOptionalPort (skipn i host) then unescape host encodeHost else None
         end
  end.

Definition validUserinfo (s : bytes) : bool :=
  forallb (fun c => is_alnum c || mem c "-._:~!$&'()*+,;=%@") s.

(** parseAuthority *)
Definition parseAuthority (authority : bytes) : option (option bytes * bytes) :=
  match LastIndex authority 64 with
  | None => match parseHost authority with
            | Some h => Some (None, h)
            | None => None
            end
  | Some i =>
    match parseHost (skipn (S i) authority) with
    | None => None
    | Some h =>
      let userinfo := firstn i authority in
      if negb (validUserinfo userinfo) then None
      else match unescape userinfo encodeUserPassword with
           | Some u => Some (Some u, h)
           | None => None
           end
    end
  end.

Definition HasSuffixQ (s : bytes) : bool :=
  match rev s with 63 :: _ => true | _ => false end.

Definition count (s : bytes) (c : Z) : nat := List.length (filter (Z.eqb c) s).

(** parse(rawURL, viaRequest = false) *)
Definition parse (rawURL : bytes) : option URL :=
  if stringContainsCTLByte rawURL then None
  else if bytes_eqb rawURL [42] then Some {| Scheme := []; Opaque := []; User := None;
      Host := []; Path := [42]; ForceQuery := false; RawQuery := []; Fragment := [] |}
  else
  match getScheme rawURL with
  | None => None
  | Some (scheme, rest) =>
    let scheme := ToLower scheme in
    let '(rest, fq, rq) :=
      if HasSuffixQ rest && (count rest 63 =? 1)%nat
      then (removelast rest, true, [])
      else let '(b, a, _) := Cut rest 63 in (b, false, a) in
    if negb (HasPrefix rest [47]) && negb (bytes_eqb scheme []) then
      Some {| Scheme := scheme; Opaque := rest; User := None; Host := [];
              Path := []; ForceQuery := fq; RawQuery := rq; Fragment := [] |}
    else if negb (HasPrefix rest [47]) &&
            existsb (Z.eqb 58) (let '(seg, _, _) := Cut rest 47 in seg) then None
    else
    let auth :=
      if (negb (bytes_eqb scheme []) || negb (HasPrefix rest [47; 47; 47]))
         && HasPrefix rest [47; 47]
      then let a := skipn 2 rest in
           let '(authority, p, found) := Cut a 47 in
           match parseAuthority authority with
           | Some (u, h) => Some (u, h, if found then 47 :: p else [])
           | None => None
           end
      else Some (None, [], rest) in
    match auth with
    | None => None
    | Some (u, h, rest) =>
      match unescape rest encodePath with
      | None => None
      | Some p => Some {| Scheme := scheme; Opaque := []; User := u; Host := h;
                          Path := p; ForceQuery := fq; RawQuery := rq; Fragment := [] |}
      end
    end
  end.

(** url.Parse: the fragment is cut off first. *)
Definition Parse (rawURL : bytes) : option URL :=
  let '(u, frag, _) := Cut rawURL 35 in
  match parse u with
  | None => None
  | Some url =>
    match frag with
    | [] => Some url
    | _ => match unescape frag encodeFragment with
           | Some f => Some {| Scheme := Scheme url; Opaque := Opaque url; User := User url;
                               Host := Host url; Path := Path url; ForceQuery := ForceQuery url;
                               RawQuery := RawQuery url; Fragment := f |}
           | None => None
           end
    end
  end.

End URL.

(** ** Client *)

(** strings.EqualFold, on ASCII. *)
Definition EqualFold (a b : bytes) : bool := bytes_eqb (URL.ToLower a) (URL.ToLower b).

(** httpguts.IsTokenRune on a byte: [validMethod] scans runes, and a byte
    outside ASCII is never part of a token rune. *)
Definition IsTokenRune (c : Z) : bool :=
  URL.is_alnum c || URL.mem c "!#$%&'*+-.^_`|~".

Definition validMethod (m : bytes) : bool :=
  match m with [] => false | _ => forallb IsTokenRune m end.

(** http.NewRequestWithContext, with [body = None] for a nil body. *)
Definition NewRequestWithContext (method url : bytes) (body : option stream)
  : result http_Request :=
  let method := match method with [] => MethodGet | _ => method end in
  if negb (validMethod method)
  then Err (EFmt "net/http: invalid method %q" [method] [])
  else match URL.Parse url with
       | None => Err (EText (s2b "parse error"))
       | Some _ => Ok {| rq_method := method; rq_url := url; rq_body := body;
                         rq_content_type := []; rq_cookies := [] |}
       end.

(** An [*http.Client]: [DefaultClient] or one given by the caller. *)
Inductive http_Client := DefaultClient | Client (id : nat).

(** The network: what a client's round trip yields for a request. *)
Definition Network := http_Client -> http_Request -> result http_Response.

(** [client.Do(req)]; the transport closes a non-nil request body, also
    on errors.  The result of that close is not modelled: a failing close
    makes the HTTP/1 transport fail the round trip, which here is part of
    what the network [net] answers. *)
Definition Do (net : Network) (c : http_Client) (req : http_Request)
  : M (result http_Response) :=
  emit (EvDo req) ;;;
  (match rq_body req with
   | Some s => match scloser s with
               | Some _ => _ <- Close s ;; ret tt
               | None => ret tt
               end
   | None => ret tt
   end) ;;;
  ret (net c req).

Record Transport := mkTransport {
  origin : bytes;
  client : http_Client;
  cookies : list bytes
}.

Definition ErrBadOrigin : error := EText (s2b "bad connector origin").

(** [NewTransport]; [client = None] is a nil client. *)
Definition NewTransport (origin : bytes) (client : option http_Client)
    (cookies : list bytes) : result Transport :=
  let c := {| origin := origin;
              client := match client with Some cl => cl | None => DefaultClient end;
              cookies := cookies |} in
  match URL.Parse origin with
  | None => Err (EFmt "%w: invalid URL: %w" [] [ErrBadOrigin; EText (s2b "parse error")])
  | Some u =>
    if negb (EqualFold (URL.Scheme u) (s2b "http")) && negb (EqualFold (URL.Scheme u) (s2b "https"))
    then Err (EFmt "%w: scheme must be http or https: %q" [origin] [ErrBadOrigin])
    else if negb (bytes_eqb (URL.Path u) [])
    then Err (EFmt "%w: path must be empty: %q" [URL.Path u] [ErrBadOrigin])
    else if negb (bytes_eqb (URL.RawQuery u) [])
    then Err (EFmt "%w: query must be empty: %q" [URL.RawQuery u] [ErrBadOrigin])
    else Ok c
  end.

(** [reqCtor] of [Remote], for [rawURL = conn.origin + e.path]. *)
Definition reqCtor (e : Endpoint) (rawURL : bytes) (streamUp : stream)
  : M (result http_Request) :=
  if stateChanging e then ret (NewRequestWithContext (method e) rawURL (Some streamUp))
  else
    r <- ReadAll streamUp ;;
    match r with
    | Err err => ret (Err err)
    | Ok buf =>
        let q := s2b "?" ++ QueryKey ++ s2b "=" ++ URL.QueryEscape buf in
        ret (NewRequestWithContext (method e) (rawURL ++ q) None)
    end.

(** [hReq.Header.Set("Content-Type", ...)] and [hReq.AddCookie]. *)
Definition setHeaders (e : Endpoint) (conn : Transport) (hReq : http_Request) : http_Request :=
  {| rq_method := rq_method hReq; rq_url := rq_url hReq; rq_body := rq_body hReq;
     rq_content_type := ContentType (reqc e);
     rq_cookies := rq_cookies hReq ++ cookies conn |}.

(** [readErr] *)
Definition readErr (resp : http_Response) : M error :=
  r <- ReadAll (Body resp) ;;
  match r with
  | Err err => ret (EFmt "read response body: %w" [] [err])
  | Ok buf =>
      (* defer func() { _ = resp.Body.Close() }() *)
      _ <- Close (Body resp) ;;
      ret (EWire buf (StatusCode resp))
  end.

(** The part of the call after the defers are registered, up to its
    return statements: the named results [(resp, err)]. *)
Definition decodeResponse (e : Endpoint) (hResp : http_Response)
  : M (JSON.goval * option error) :=
  let zero := JSON.zero (ResponseT e) in
  if negb (StatusCode hResp =? StatusOK) then
    err <- readErr hResp ;; ret (zero, Some err)
  else let ct := ContentTypeHeader hResp in
  if negb (bytes_eqb ct (ContentType (resc e))) then
    ret (zero, Some (EFmt "Content-Type: want %q got %q" [ContentType (resc e); ct] []))
  else
    d <- Dec (resc e) (Body hResp) ;;
    match d with
    | Err err => ret (zero, Some (EFmt "decoding response: %w" [] [err]))
    | Ok resp => ret (resp, None)
    end.

(** The deferred close of the request stream. *)
Definition closeRequest (e : Endpoint) (streamUp : stream) (err : option error)
  : M (option error) :=
  if negb (KeepOpen (reqc e)) then
    match scloser streamUp with
    | Some _ =>
        cerr <- Close streamUp ;;
        match cerr with
        | Some c => ret (Some (Join err (EFmt "closing Request: %w" [] [c])))
        | None => ret err
        end
    | None => ret err
    end
  else ret err.

(** The deferred close of the response body. *)
Definition closeBody (e : Endpoint) (hResp : http_Response) (err : option error)
  : M (option error) :=
  if negb (KeepOpen (resc e)) then
    cerr <- Close (Body hResp) ;;
    match cerr with
    | Some c => ret (Some (Join err c))
    | None => ret err
    end
  else ret err.

(** The procedure [e.Remote(conn)] returns, applied to [req]; the
    deferred functions run last registered first. *)
Definition Remote (net : Network) (e : Endpoint) (conn : Transport) (req : JSON.goval)
  : M (JSON.goval * option error) :=
  let zero := JSON.zero (ResponseT e) in
  let rawURL := origin conn ++ path e in
  su <- Co (reqc e) req ;;
  match su with
  | Err err => ret (zero, Some (EFmt "encoding request: %w" [] [err]))
  | Ok streamUp =>
    h <- reqCtor e rawURL streamUp ;;
    match h with
    | Err err => ret (zero, Some (EFmt "converting request to HTTP: %w" [] [err]))
    | Ok hReq =>
      let hReq := setHeaders e conn hReq in
      r <- Do net (client conn) hReq ;;
      match r with
      | Err err => ret (zero, Some (EFmt "issuing request: %w" [] [err]))
      | Ok hResp =>
        res <- decodeResponse e hResp ;;
        let '(resp, err) := res in
        err <- closeRequest e streamUp err ;;
        err <- closeBody e hResp err ;;
        ret (resp, err)
      end
    end
  end.

(** [RemoteWithOrigin]; [None] is its panic. *)
Definition RemoteWithOrigin (net : Network) (e : Endpoint) (origin : bytes)
  : option (JSON.goval -> M (JSON.goval * option error)) :=
  match NewTransport origin None [] with
  | Err _ => None
  | Ok conn => Some (Remote net e conn)
  end.


(** * Vocabulary of the statements *)

(** Encoding a value with a codec, then decoding what it produced. *)
Definition roundtrip (c : Codec) (v : JSON.goval) : M (result JSON.goval) :=
  r <- Co c v ;;
  match r with
  | Ok s => Dec c s
  | Err err => ret (Err err)
  end.

(** [string([]rune(s))]: each maximal valid UTF-8 sequence is kept and each
    byte that does not start one becomes U+FFFD. *)
Fixpoint ReplaceInvalid_fuel (fuel : nat) (s : bytes) : bytes :=
  match fuel with
  | O => []
  | S fuel' =>
    match s with
    | [] => []
    | _ :: _ => let '(r, size) := UTF8.DecodeRune s in
                UTF8.EncodeRune r ++ ReplaceInvalid_fuel fuel' (skipn size s)
    end
  end.

Definition ReplaceInvalid (s : bytes) : bytes := ReplaceInvalid_fuel (List.length s) s.

(** What decoding the JSON encoding of [v : t] yields: strings with their
    invalid UTF-8 replaced, unexported struct fields at their zero value. *)
Fixpoint decoded (t : JSON.gotype) (v : JSON.goval) : JSON.goval :=
  match t, v with
  | JSON.TString, JSON.VString s => JSON.VString (ReplaceInvalid s)
  | JSON.TNamed _ u, _ => decoded u v
  | JSON.TStruct fs, JSON.VStruct vs =>
      JSON.VStruct
        ((fix go (fs : list (string * JSON.gotype)) (vs : list JSON.goval) : list JSON.goval :=
            match fs, vs with
            | f :: fs', v :: vs' =>
                (if JSON.IsExported (fst f) then decoded (snd f) v else JSON.zero (snd f))
                :: go fs' vs'
            | _, _ => []
            end) fs vs)
  | _, _ => v
  end.

(** A Go identifier made of ASCII letters, digits and underscores. *)
Definition IsIdent (name : string) : bool :=
  forallb (fun c => URL.is_alnum c || (c =? 95)) (s2b name).

Fixpoint distinct_names (fs : list (string * JSON.gotype)) : bool :=
  match fs with
  | [] => true
  | f :: fs' => negb (existsb (fun g => String.eqb (fst f) (fst g)) fs') && distinct_names fs'
  end.

(** A type Go accepts, with distinct identifiers as struct field names,
    and with no channel in it (the round trip of the JSON codec is stated
    for these types). *)
Fixpoint wf_type (t : JSON.gotype) : bool :=
  match t with
  | JSON.TStruct fs =>
      distinct_names fs &&
      (fix go (fs : list (string * JSON.gotype)) : bool :=
         match fs with
         | [] => true
         | f :: fs' => IsIdent (fst f) && wf_type (snd f) && go fs'
         end) fs
  | JSON.TNamed _ u => wf_type u
  | JSON.TChan => false
  | _ => true
  end.

(** [e] is [base], possibly joined by deferred functions with further errors. *)
Inductive JoinedInto (base : error) : error -> Prop :=
| JI_self : JoinedInto base base
| JI_join e c : JoinedInto base e -> JoinedInto base (EJoin [e; c]).

(** The endpoint [e] with the decoding function of its response codec
    replaced by [dec]. *)
Definition with_response_Dec (e : Endpoint) (dec : stream -> M (result JSON.goval)) : Endpoint :=
  {| ResponseT := ResponseT e; RequestT := RequestT e; method := method e; path := path e;
     stateChanging := stateChanging e;
     resc := {| ContentType := ContentType (resc e); KeepOpen := KeepOpen (resc e);
                Co := Co (resc e); Dec := dec |};
     reqc := reqc e |}.

(** ** The JSON codec's round trip *)
(** Induction on types, with the hypothesis for every field of a struct. *)
Section GotypeInd.
Variable P : JSON.gotype -> Prop.
Hypothesis P_string : P JSON.TString.
Hypothesis P_bool : P JSON.TBool.
Hypothesis P_struct : forall fs, Forall (fun f => P (snd f)) fs -> P (JSON.TStruct fs).
Hypothesis P_named : forall n u, P u -> P (JSON.TNamed n u).
Hypothesis P_chan : P JSON.TChan.

Fixpoint gotype_ind' (t : JSON.gotype) : P t :=
  match t with
  | JSON.TString => P_string
  | JSON.TBool => P_bool
  | JSON.TStruct fs =>
      P_struct fs
        ((fix go (fs : list (string * JSON.gotype)) : Forall (fun f => P (snd f)) fs :=
            match fs with
            | [] => Forall_nil _
            | f :: fs' => Forall_cons f (gotype_ind' (snd f)) (go fs')
            end) fs)
  | JSON.TNamed n u => P_named n u (gotype_ind' u)
  | JSON.TChan => P_chan
  end.
End GotypeInd.

(** The inner loops of [JSON.marshal], [JSON.typed], [decoded] and
    [wf_type] on the fields of a struct, as functions of their own. *)
Fixpoint marshal_fields (fs : list (string * JSON.gotype)) (vs : list JSON.goval) : list bytes :=
  match fs, vs with
  | f :: fs', v :: vs' =>
      if JSON.IsExported (fst f)
      then (JSON.appendString (s2b (fst f)) ++ [58] ++ JSON.marshal (snd f) v) :: marshal_fields fs' vs'
      else marshal_fields fs' vs'
  | _, _ => []
  end.

Fixpoint typed_fields (fs : list (string * JSON.gotype)) (vs : list JSON.goval) : bool :=
  match fs, vs with
  | [], [] => true
  | f :: fs', v :: vs' => JSON.typed (snd f) v && typed_fields fs' vs'
  | _, _ => false
  end.

Fixpoint decoded_fields (fs : list (string * JSON.gotype)) (vs : list JSON.goval) : list JSON.goval :=
  match fs, vs with
  | f :: fs', v :: vs' =>
      (if JSON.IsExported (fst f) then decoded (snd f) v else JSON.zero (snd f))
      :: decoded_fields fs' vs'
  | _, _ => []
  end.

Fixpoint wf_fields (fs : list (string * JSON.gotype)) : bool :=
  match fs with
  | [] => true
  | f :: fs' => IsIdent (fst f) && wf_type (snd f) && wf_fields fs'
  end.

(** The [set] and [go] loops of [JSON.unmarshal] on a struct. *)
Fixpoint unmarshal_set (fs : list (string * JSON.gotype)) (vs : list JSON.goval) (i : nat)
  (jv : JSON.value) : option (list JSON.goval) :=
  match fs, vs with
  | f :: fs', v :: vs' =>
    match i with
    | O => match JSON.unmarshal (snd f) jv v with
           | Some v' => Some (v' :: vs')
           | None => None
           end
    | S i' => match unmarshal_set fs' vs' i' jv with
              | Some vs'' => Some (v :: vs'')
              | None => None
              end
    end
  | _, _ => None
  end.

Section UnmarshalMembers.
Variable fs : list (string * JSON.gotype).
Fixpoint unmarshal_members (kvs : list (bytes * JSON.value)) (vs : list JSON.goval)
  : option (list JSON.goval) :=
  match kvs with
  | [] => Some vs
  | (k, jv) :: kvs' =>
    match JSON.field_index fs k with
    | None => unmarshal_members kvs' vs
    | Some i => match unmarshal_set fs vs i jv with
                | Some vs' => unmarshal_members kvs' vs'
                | None => None
                end
    end
  end.
End UnmarshalMembers.

(** The JSON value the parser reads back from [JSON.marshal t v]. *)
Fixpoint json_of (t : JSON.gotype) (v : JSON.goval) : JSON.value :=
  match t, v with
  | JSON.TString, JSON.VString s => JSON.JString (ReplaceInvalid s)
  | JSON.TBool, JSON.VBool b => JSON.JBool b
  | JSON.TNamed _ u, _ => json_of u v
  | JSON.TStruct fs, JSON.VStruct vs =>
      JSON.JObject
        ((fix go (fs : list (string * JSON.gotype)) (vs : list JSON.goval)
            : list (bytes * JSON.value) :=
            match fs, vs with
            | f :: fs', v :: vs' =>
                if JSON.IsExported (fst f) then (s2b (fst f), json_of (snd f) v) :: go fs' vs'
                else go fs' vs'
            | _, _ => []
            end) fs vs)
  | _, _ => JSON.JNull
  end.

Fixpoint json_members (fs : list (string * JSON.gotype)) (vs : list JSON.goval)
  : list (bytes * JSON.value) :=
  match fs, vs with
  | f :: fs', v :: vs' =>
      if JSON.IsExported (fst f) then (s2b (fst f), json_of (snd f) v) :: json_members fs' vs'
      else json_members fs' vs'
  | _, _ => []
  end.

(** The members [JSON.marshal] writes for a struct: key, value text and the
    JSON value read back from it. *)
Fixpoint exported_items (fs : list (string * JSON.gotype)) (vs : list JSON.goval)
  : list (bytes * bytes * JSON.value) :=
  match fs, vs with
  | f :: fs', v :: vs' =>
      if JSON.IsExported (fst f)
      then (s2b (fst f), JSON.marshal (snd f) v, json_of (snd f) v) :: exported_items fs' vs'
      else exported_items fs' vs'
  | _, _ => []
  end.

(** A member as written between the braces, and as the parser returns it. *)
Definition member_text (it : bytes * bytes * JSON.value) : bytes :=
  JSON.appendString (fst (fst it)) ++ [58] ++ snd (fst it).

Definition member_pair (it : bytes * bytes * JSON.value) : bytes * JSON.value :=
  (fst (fst it), snd it).

(** utf8.ValidString: every step of [DecodeRune] decodes a rune (none is
    the one-byte [RuneError] of an invalid byte). *)
Fixpoint Valid_fuel (fuel : nat) (s : bytes) : bool :=
  match fuel with
  | O => true
  | S fuel' =>
    match s with
    | [] => true
    | _ :: _ => let '(r, size) := UTF8.DecodeRune s in
                negb ((r =? UTF8.RuneError) && (size =? 1)%nat) && Valid_fuel fuel' (skipn size s)
    end
  end.

Definition ValidString (s : bytes) : bool := Valid_fuel (List.length s) s.

(** Every string of [v] is valid UTF-8 and every struct field is exported. *)
Fixpoint plain (t : JSON.gotype) (v : JSON.goval) : bool :=
  match t, v with
  | JSON.TString, JSON.VString s => ValidString s
  | JSON.TNamed _ u, _ => plain u v
  | JSON.TStruct fs, JSON.VStruct vs =>
      (fix go (fs : list (string * JSON.gotype)) (vs : list JSON.goval) : bool :=
         match fs, vs with
         | f :: fs', v :: vs' => JSON.IsExported (fst f) && plain (snd f) v && go fs' vs'
         | _, _ => true
         end) fs vs
  | _, _ => true
  end.

Fixpoint plain_fields (fs : list (string * JSON.gotype)) (vs : list JSON.goval) : bool :=
  match fs, vs with
  | f :: fs', v :: vs' => JSON.IsExported (fst f) && plain (snd f) v && plain_fields fs' vs'
  | _, _ => true
  end.

(** A member whose key reads back as itself and whose value text parses. *)
Definition good_item (it : bytes * bytes * JSON.value) : Prop :=
  ReplaceInvalid (fst (fst it)) = fst (fst it) /\ all_bytes (fst (fst it)) = true /\
  forall fuel rest, (List.length (snd (fst it)) <= fuel)%nat ->
    JSON.parse_value fuel (snd (fst it) ++ rest) = JSON.POk (snd it) rest.

(** ** Concrete inputs *)

Definition ex_T : JSON.gotype := JSON.TStruct [("A"%string, JSON.TString); ("b"%string, JSON.TBool)].
Definition ex_in (body : bytes) : inbound := {| in_body := mkStream 1 body None None; in_query := [] |}.
Definition ex_post : Endpoint :=
  match NewEndpointJSON ex_T ex_T (s2b "POST") (s2b "/foo") with
  | Some e => e
  | None => {| ResponseT := ex_T; RequestT := ex_T; method := []; path := [];
               stateChanging := false; resc := NewCodecJSON ex_T; reqc := NewCodecJSON ex_T |}
  end.
Definition ex_req : JSON.goval := JSON.VStruct [JSON.VString (s2b "x"); JSON.VBool true].
(** A network answering every request with status [code], the given
    Content-Type header and body. *)
Definition ex_net (code : Z) (ct body : bytes) : Network :=
  fun _ _ => Ok {| StatusCode := code; ContentTypeHeader := ct;
                   Body := mkStream 2 body None None |}.
Definition ex_closing_stream : stream := mkStream 5 (s2b "{}") None (Some (fun _ => None)).

Definition ex_get : Endpoint :=
  {| ResponseT := ex_T; RequestT := ex_T; method := s2b "GET"; path := s2b "/foo";
     stateChanging := false; resc := NewCodecJSON ex_T;
     reqc := {| ContentType := s2b "application/json"; KeepOpen := false;
                Co := fun _ => ret (Ok ex_closing_stream);
                Dec := Dec (NewCodecJSON ex_T) |} |}.

Definition ex_conn : Transport := {| origin := s2b "http://example.com"; client := DefaultClient; cookies := [] |}.

(** ** Query parameters *)

(** url.QueryUnescape *)
Definition QueryUnescape (s : bytes) : option bytes := URL.unescape s URL.encodeQueryComponent.

(** [url.ParseQuery(query)] followed by [Values.Get(key)]: parseQuery
    appends the values to the map in query order, and Get returns the first
    value stored under [key], or the empty string.  [fuel] bounds the
    number of iterations; [length query + 1] suffices. *)
Fixpoint getQuery_fuel (fuel : nat) (query key : bytes) : bytes :=
  match fuel with
  | O => []
  | S fuel' =>
    match query with
    | [] => []
    | _ :: _ =>
      let '(k, rest, _) := URL.Cut query 38 in
      if existsb (Z.eqb 59) k then getQuery_fuel fuel' rest key
      else match k with
      | [] => getQuery_fuel fuel' rest key
      | _ :: _ =>
        let '(k, value, _) := URL.Cut k 61 in
        match QueryUnescape k, QueryUnescape value with
        | Some k', Some v' => if bytes_eqb k' key then v' else getQuery_fuel fuel' rest key
        | _, _ => getQuery_fuel fuel' rest key
        end
      end
    end
  end.

(** [u.Query().Get(key)] for a URL whose RawQuery is [rawQuery]. *)
Definition Query_Get (rawQuery key : bytes) : bytes :=
  getQuery_fuel (S (List.length rawQuery)) rawQuery key.

(** The URL [u?q]: what [URL.Parse] reads from [u], with [q] as its raw
    query. *)
Definition with_query (q : bytes) (x : URL.URL) : URL.URL :=
  URL.mkURL (URL.Scheme x) (URL.Opaque x) (URL.User x) (URL.Host x) (URL.Path x)
            (match q with [] => true | _ => false end) q (URL.Fragment x).

(** ** The test server *)

(** The server of TestJSONRoundTrip: an httptest server whose mux has [e]
    registered with the procedure [p], reached by every request (the mux's
    routing is not modelled).  The transport sends the bytes of the request
    body (a body whose read fails fails the round trip) and the URL, from
    which the server takes [hReq.URL.Query().Get(QueryKey)]; the handler
    runs on the server's own trace.  A handler that panics makes net/http
    drop the connection, which the client sees as an EOF.  The client
    reads the response's status, Content-Type header and body; closing
    that body returns nil. *)
Definition ResponseBodyId : nat := 3.

Definition serve (e : Endpoint) (validate : Validator) (p : Procedure) : Network :=
  fun _ hReq =>
    match match rq_body hReq with Some s => sreaderr s | None => None end with
    | Some err => Err err
    | None =>
      let body := match rq_body hReq with Some s => sdata s | None => [] end in
      let query := match URL.Parse (rq_url hReq) with
                   | Some u => Query_Get (URL.RawQuery u) QueryKey
                   | None => []
                   end in
      match fst (handler e validate p {| in_body := mkStream 1 body None None;
                                         in_query := query |} []) with
      | Panicked => Err io_EOF
      | Responded r =>
          Ok {| StatusCode := status r; ContentTypeHeader := resp_content_type r;
                Body := mkStream ResponseBodyId (resp_body r) None (Some (fun _ => None)) |}
      end
    end.

(** ** part_000: write-only and read-only endpoints *)

(** [ProcedureW[Request]]: the error it returns, [None] for nil. *)
Definition ProcedureW := JSON.goval -> option error.

(** The procedure [EndpointW.Register] registers on the underlying
    [Endpoint[struct{}, Request]]: [return struct{}{}, h(ctx, req)]. *)
Definition RegisterW (h : ProcedureW) : Procedure :=
  fun req => match h req with None => Ok (JSON.VStruct []) | Some err => Err err end.

(** The procedure [EndpointW.Remote] returns: the error of the call. *)
Definition RemoteW (net : Network) (e : Endpoint) (conn : Transport) (req : JSON.goval)
  : M (option error) :=
  res <- Remote net e conn req ;; ret (snd res).

(** [ProcedureR[Response]]: what [h(ctx)] returns. *)
Definition ProcedureR := result JSON.goval.

(** The procedure [EndpointR.Register] registers on the underlying
    [Endpoint[Response, struct{}]]: the request is dropped. *)
Definition RegisterR (h : ProcedureR) : Procedure := fun _ => h.

(** The procedure [EndpointR.Remote] returns: [cl(ctx, struct{}{})]. *)
Definition RemoteR (net : Network) (e : Endpoint) (conn : Transport)
  : M (JSON.goval * option error) :=
  Remote net e conn (JSON.VStruct []).

(** ** TestJSONRoundTrip *)

(** [type Resp struct { A string }] and [type Req struct { B string }]. *)
Definition Resp_T : JSON.gotype := JSON.TNamed "Resp" (JSON.TStruct [("A"%string, JSON.TString)]).
Definition Req_T : JSON.gotype := JSON.TNamed "Req" (JSON.TStruct [("B"%string, JSON.TString)]).

(** [var Ep = srpc.NewEndpointJSON[Resp, Req](http.MethodPost, "/foo")] *)
Definition test_Ep : Endpoint :=
  match NewEndpointJSON Resp_T Req_T (s2b "POST") (s2b "/foo") with
  | Some e => e
  | None => {| ResponseT := Resp_T; RequestT := Req_T; method := []; path := [];
               stateChanging := false; resc := NewCodecJSON Resp_T; reqc := NewCodecJSON Req_T |}
  end.

(** The procedure of the test: [rsp.A = "resp" + req.B; return]. *)
Definition test_proc : Procedure :=
  fun req => match req with
             | JSON.VStruct [JSON.VString b] => Ok (JSON.VStruct [JSON.VString (s2b "resp" ++ b)])
             | _ => Ok (JSON.zero Resp_T)  (* not a value of type Req *)
             end.

(** The transport [RemoteWithOrigin(srv.URL)] builds for the test server. *)
Definition test_conn : Transport :=
  match NewTransport (s2b "http://127.0.0.1:8080") None [] with
  | Ok c => c
  | Err _ => {| origin := []; client := DefaultClient; cookies := [] |}
  end.


(** * Proofs *)

(** ** Bit arithmetic on bytes and runes *)
Module BitFacts.

Lemma lor_disj k m c x :
  m = 2 ^ k -> 0 <= k -> c mod m = 0 -> 0 <= x < m -> Z.lor c x = c + x.
Proof.
  intros -> Hk Hc Hx.
  assert (Hl : Z.land c x = 0).
  { apply Z.bits_inj_0; intro n. rewrite Z.land_spec.
    destruct (Z.lt_ge_cases n 0) as [Hn|Hn].
    { rewrite Z.testbit_neg_r by exact Hn. reflexivity. }
    destruct (Z.lt_ge_cases n k) as [Hnk|Hnk].
    - rewrite <- (Z.mod_pow2_bits_low c k n Hnk), Hc, Z.bits_0. reflexivity.
    - rewrite <- (Z.mod_small x (2 ^ k)) by exact Hx.
      rewrite Z.mod_pow2_bits_high by lia. apply andb_false_r. }
  pose proof (Z.add_lor_land c x) as H. rewrite Hl in H. lia.
Qed.

Lemma land_mask k m p x :
  m = 2 ^ k - 1 -> p = 2 ^ k -> 0 <= k -> Z.land x m = x mod p.
Proof.
  intros -> -> Hk. rewrite <- Z.land_ones by exact Hk.
  rewrite Z.ones_equiv. reflexivity.
Qed.

Lemma shiftl_mul x k m : m = 2 ^ k -> 0 <= k -> Z.shiftl x k = x * m.
Proof. intros -> Hk. apply Z.shiftl_mul_pow2. exact Hk. Qed.

Lemma shiftr_div x k m : m = 2 ^ k -> 0 <= k -> Z.shiftr x k = x / m.
Proof. intros -> Hk. apply Z.shiftr_div_pow2. exact Hk. Qed.

End BitFacts.

Ltac zlia := Z.div_mod_to_equations; lia.

(** Turn the masks, shifts and disjoint ors of utf8.go into arithmetic. *)
Ltac bits_arith :=
  repeat first
    [ rewrite (BitFacts.land_mask 8 255 256) by (reflexivity || zlia)
    | rewrite (BitFacts.land_mask 6 63 64) by (reflexivity || zlia)
    | rewrite (BitFacts.land_mask 5 31 32) by (reflexivity || zlia)
    | rewrite (BitFacts.land_mask 4 15 16) by (reflexivity || zlia)
    | rewrite (BitFacts.land_mask 3 7 8) by (reflexivity || zlia)
    | rewrite (BitFacts.shiftl_mul _ 6 64) by (reflexivity || zlia)
    | rewrite (BitFacts.shiftl_mul _ 12 4096) by (reflexivity || zlia)
    | rewrite (BitFacts.shiftl_mul _ 18 262144) by (reflexivity || zlia)
    | rewrite (BitFacts.shiftr_div _ 6 64) by (reflexivity || zlia)
    | rewrite (BitFacts.shiftr_div _ 12 4096) by (reflexivity || zlia)
    | rewrite (BitFacts.shiftr_div _ 18 262144) by (reflexivity || zlia) ];
  repeat match goal with
  | |- context [Z.lor ?c ?x] =>
      lazymatch c with context [Z.lor _ _] => fail | _ => idtac end;
      lazymatch x with context [Z.lor _ _] => fail | _ => idtac end;
      first
        [ rewrite (BitFacts.lor_disj 3 8 c x) by (reflexivity || zlia)
        | rewrite (BitFacts.lor_disj 4 16 c x) by (reflexivity || zlia)
        | rewrite (BitFacts.lor_disj 5 32 c x) by (reflexivity || zlia)
        | rewrite (BitFacts.lor_disj 6 64 c x) by (reflexivity || zlia)
        | rewrite (BitFacts.lor_disj 12 4096 c x) by (reflexivity || zlia)
        | rewrite (BitFacts.lor_disj 18 262144 c x) by (reflexivity || zlia) ]
  end.

Module UTF8Facts.
Import UTF8.

Lemma enc1 b0 : 0 <= b0 <= 127 -> EncodeRune b0 = [b0].
Proof.
  intros H0. unfold EncodeRune, byte, rune1Max.
  rewrite (Z.mod_small _ (2 ^ 32)) by (cbn; lia).
  destruct (b0 <=? 127) eqn:E1; [|apply Z.leb_gt in E1; lia].
  bits_arith. f_equal. zlia.
Qed.

Lemma enc2 b0 b1 :
  194 <= b0 <= 223 -> 128 <= b1 <= 191 ->
  EncodeRune (Z.lor (Z.shiftl (Z.land b0 mask2) 6) (Z.land b1 maskx)) = [b0; b1].
Proof.
  intros H0 H1. unfold mask2, maskx.
  assert (Hr : Z.lor (Z.shiftl (Z.land b0 31) 6) (Z.land b1 63)
               = (b0 - 192) * 64 + (b1 - 128)).
  { bits_arith. zlia. }
  rewrite Hr. unfold EncodeRune, byte, t2, tx, maskx, rune1Max, rune2Max.
  rewrite (Z.mod_small _ (2 ^ 32)) by (cbn; zlia).
  destruct (_ <=? 127) eqn:E1; [apply Z.leb_le in E1; lia|].
  destruct (_ <=? 2047) eqn:E2; [|apply Z.leb_gt in E2; lia].
  bits_arith. f_equal; [|f_equal]; zlia.
Qed.

Lemma enc3 b0 b1 b2 :
  224 <= b0 <= 239 -> 128 <= b1 <= 191 -> 128 <= b2 <= 191 ->
  (b0 = 224 -> 160 <= b1) -> (b0 = 237 -> b1 <= 159) ->
  EncodeRune (Z.lor (Z.lor (Z.shiftl (Z.land b0 mask3) 12)
                           (Z.shiftl (Z.land b1 maskx) 6))
                    (Z.land b2 maskx)) = [b0; b1; b2].
Proof.
  intros H0 H1 H2 H3 H4. unfold mask3, maskx.
  assert (Hr : Z.lor (Z.lor (Z.shiftl (Z.land b0 15) 12) (Z.shiftl (Z.land b1 63) 6))
                     (Z.land b2 63)
               = (b0 - 224) * 4096 + (b1 - 128) * 64 + (b2 - 128)).
  { bits_arith. zlia. }
  rewrite Hr. unfold EncodeRune, byte, t3, tx, maskx, rune1Max, rune2Max, rune3Max,
    surrogateMin, surrogateMax.
  assert (Hlo : 2048 <= (b0 - 224) * 4096 + (b1 - 128) * 64 + (b2 - 128))
    by (destruct (Z.eq_dec b0 224); [specialize (H3 e)|]; lia).
  assert (Hs : (b0 - 224) * 4096 + (b1 - 128) * 64 + (b2 - 128) < 55296 \/
               57343 < (b0 - 224) * 4096 + (b1 - 128) * 64 + (b2 - 128))
    by (destruct (Z.eq_dec b0 237); [specialize (H4 e)|]; lia).
  rewrite (Z.mod_small _ (2 ^ 32)) by (cbn; zlia).
  destruct (_ <=? 127) eqn:E1; [apply Z.leb_le in E1; lia|].
  destruct (_ <=? 2047) eqn:E2; [apply Z.leb_le in E2; lia|].
  destruct ((_ <? 55296) || ((57343 <? _) && (_ <=? 65535))) eqn:E3.
  2:{ exfalso. apply Bool.orb_false_iff in E3 as [E3 E4].
      apply Z.ltb_ge in E3. apply andb_false_iff in E4 as [E4|E4];
      [apply Z.ltb_ge in E4|apply Z.leb_gt in E4]; lia. }
  bits_arith. f_equal; [|f_equal; [|f_equal]]; zlia.
Qed.

Lemma enc4 b0 b1 b2 b3 :
  240 <= b0 <= 244 -> 128 <= b1 <= 191 -> 128 <= b2 <= 191 -> 128 <= b3 <= 191 ->
  (b0 = 240 -> 144 <= b1) -> (b0 = 244 -> b1 <= 143) ->
  EncodeRune (Z.lor (Z.lor (Z.lor (Z.shiftl (Z.land b0 mask4) 18)
                                  (Z.shiftl (Z.land b1 maskx) 12))
                           (Z.shiftl (Z.land b2 maskx) 6))
                    (Z.land b3 maskx)) = [b0; b1; b2; b3].
Proof.
  intros H0 H1 H2 H3 H4 H5. unfold mask4, maskx.
  assert (Hr : Z.lor (Z.lor (Z.lor (Z.shiftl (Z.land b0 7) 18)
                                   (Z.shiftl (Z.land b1 63) 12))
                            (Z.shiftl (Z.land b2 63) 6)) (Z.land b3 63)
               = (b0 - 240) * 262144 + (b1 - 128) * 4096 + (b2 - 128) * 64 + (b3 - 128)).
  { bits_arith. zlia. }
  rewrite Hr. unfold EncodeRune, byte, t4, tx, maskx, rune1Max, rune2Max, rune3Max,
    surrogateMin, surrogateMax, MaxRune.
  assert (Hlo : 65536 <= (b0 - 240) * 262144 + (b1 - 128) * 4096 + (b2 - 128) * 64 + (b3 - 128))
    by (destruct (Z.eq_dec b0 240); [specialize (H4 e)|]; lia).
  assert (Hhi : (b0 - 240) * 262144 + (b1 - 128) * 4096 + (b2 - 128) * 64 + (b3 - 128) <= 1114111)
    by (destruct (Z.eq_dec b0 244); [specialize (H5 e)|]; lia).
  rewrite (Z.mod_small _ (2 ^ 32)) by (cbn; zlia).
  destruct (_ <=? 127) eqn:E1; [apply Z.leb_le in E1; lia|].
  destruct (_ <=? 2047) eqn:E2; [apply Z.leb_le in E2; lia|].
  destruct ((_ <? 55296) || ((57343 <? _) && (_ <=? 65535))) eqn:E3.
  { exfalso. apply Bool.orb_true_iff in E3 as [E3|E3];
    [apply Z.ltb_lt in E3|apply andb_true_iff in E3 as [_ E3]; apply Z.leb_le in E3]; lia. }
  destruct ((65535 <? _) && (_ <=? 1114111)) eqn:E4.
  2:{ exfalso. apply andb_false_iff in E4 as [E4|E4];
      [apply Z.ltb_ge in E4|apply Z.leb_gt in E4]; lia. }
  bits_arith. f_equal; [|f_equal; [|f_equal; [|f_equal]]]; zlia.
Qed.

Ltac zbool :=
  repeat match goal with
  | H : (_ <? _) = true |- _ => apply Z.ltb_lt in H
  | H : (_ <? _) = false |- _ => apply Z.ltb_ge in H
  | H : (_ <=? _) = true |- _ => apply Z.leb_le in H
  | H : (_ <=? _) = false |- _ => apply Z.leb_gt in H
  | H : (_ =? _) = true |- _ => apply Z.eqb_eq in H
  | H : (_ =? _) = false |- _ => apply Z.eqb_neq in H
  | H : Nat.leb _ _ = true |- _ => apply Nat.leb_le in H
  | H : Nat.leb _ _ = false |- _ => apply Nat.leb_gt in H
  | H : Nat.ltb _ _ = true |- _ => apply Nat.ltb_lt in H
  | H : Nat.ltb _ _ = false |- _ => apply Nat.ltb_ge in H
  | H : (_ || _) = true |- _ => apply Bool.orb_true_iff in H; destruct H as [H|H]
  | H : (_ || _) = false |- _ => apply Bool.orb_false_iff in H; destruct H as [? H]
  | H : (_ && _) = true |- _ => apply andb_true_iff in H; destruct H as [? H]
  | H : (_ && _) = false |- _ => apply andb_false_iff in H; destruct H as [H|H]
  end.

Ltac case_ifs H :=
  repeat (match type of H with
          | context [if ?c then _ else _] => destruct c eqn:?
          end; cbv beta iota in H).

(** A sequence accepted by DecodeRune is re-encoded byte for byte. *)
Lemma EncodeRune_DecodeRune p r n :
  all_bytes p = true -> DecodeRune p = (r, n) ->
  (n <> 1%nat \/ r <> RuneError) -> (0 < n)%nat ->
  EncodeRune r = firstn n p /\ (n <= List.length p)%nat.
Proof.
  intros Hb H Hv Hn.
  destruct p as [|p0 [|b1 [|b2 [|b3 rest]]]];
    unfold all_bytes, is_byte in Hb; cbn [forallb] in Hb; zbool;
    unfold DecodeRune, first, out in H; 
    cbn [List.length Nat.ltb Nat.leb] in H; case_ifs H; zbool;
    apply pair_equal_spec in H as [<- <-]; cbn [firstn List.length];
    try (exfalso; destruct Hv as [Hv|Hv]; apply Hv; reflexivity);
    try (exfalso; lia);
    (split; [|lia]);
    unfold locb, hicb in *;
    lazymatch goal with
    | |- EncodeRune (Z.lor (Z.lor (Z.lor _ _) _) _) = _ =>
        apply enc4; intros; subst; lia
    | |- EncodeRune (Z.lor (Z.lor _ _) _) = _ => apply enc3; intros; subst; lia
    | |- EncodeRune (Z.lor _ _) = _ => apply enc2; lia
    | |- EncodeRune _ = _ => apply enc1; lia
    end.
Qed.
End UTF8Facts.

(** ** Running the client call *)

Lemma Do_result net c req tr : fst (Do net c req tr) = net c req.
Proof.
  unfold Do, bind, emit, ret. simpl.
  destruct (rq_body req) as [s|]; [destruct (scloser s)|]; simpl; reflexivity.
Qed.

(** The client call, once the request is encoded, built and answered. *)
Lemma Remote_reaches net e conn req tr su tr1 hReq tr2 hResp
    (HCo : Co (reqc e) req tr = (Ok su, tr1))
    (HCtor : reqCtor e (origin conn ++ path e) su tr1 = (Ok hReq, tr2))
    (HNet : net (client conn) (setHeaders e conn hReq) = Ok hResp) :
  Remote net e conn req tr =
    (let '(res, tr4) := decodeResponse e hResp (snd (Do net (client conn) (setHeaders e conn hReq) tr2)) in
     let '(resp, err) := res in
     let '(err, tr5) := closeRequest e su err tr4 in
     let '(err, tr6) := closeBody e hResp err tr5 in
     ((resp, err), tr6)).
Proof.
  unfold Remote. unfold bind at 1. rewrite HCo. cbv beta iota zeta.
  unfold bind at 1. rewrite HCtor. cbv beta iota zeta.
  unfold bind at 1.
  pose proof (Do_result net (client conn) (setHeaders e conn hReq) tr2) as HD.
  destruct (Do net (client conn) (setHeaders e conn hReq) tr2) as [r3 tr3]. simpl in HD.
  subst r3. rewrite HNet. simpl snd. cbv beta iota zeta.
  unfold bind.
  destruct (decodeResponse e hResp tr3) as [[resp err] tr4].
  destruct (closeRequest e su err tr4) as [err1 tr5].
  destruct (closeBody e hResp err1 tr5) as [err2 tr6].
  reflexivity.
Qed.

Lemma closeRequest_joined e su base err0 tr :
  JoinedInto base err0 ->
  exists err1, fst (closeRequest e su (Some err0) tr) = Some err1 /\ JoinedInto base err1.
Proof.
  intros H. unfold closeRequest, bind, Close, ret.
  destruct (negb (KeepOpen (reqc e))); [|exists err0; split; [reflexivity|exact H]].
  destruct (scloser su) as [f|]; [|exists err0; split; [reflexivity|exact H]]. simpl.
  destruct (f (closes_of (sid su) tr)); simpl;
    [eexists; split; [reflexivity|apply JI_join; exact H]
    |exists err0; split; [reflexivity|exact H]].
Qed.

Lemma closeBody_joined e hResp base err0 tr :
  JoinedInto base err0 ->
  exists err1, fst (closeBody e hResp (Some err0) tr) = Some err1 /\ JoinedInto base err1.
Proof.
  intros H. unfold closeBody, bind, Close, ret.
  destruct (negb (KeepOpen (resc e))); [|exists err0; split; [reflexivity|exact H]].
  destruct (scloser (Body hResp)) as [f|]; simpl;
    [destruct (f (closes_of (sid (Body hResp)) tr))|]; simpl;
    solve [ eexists; split; [reflexivity|apply JI_join; exact H]
          | exists err0; split; [reflexivity|exact H] ].
Qed.

(** ** Query escaping *)

Lemma upperhex_ok d : 0 <= d < 16 -> URL.ishex (URL.upperhex d) = true /\ URL.unhex (URL.upperhex d) = d.
Proof.
  intros Hd.
  assert (d = 0 \/ d = 1 \/ d = 2 \/ d = 3 \/ d = 4 \/ d = 5 \/ d = 6 \/ d = 7 \/ d = 8 \/
          d = 9 \/ d = 10 \/ d = 11 \/ d = 12 \/ d = 13 \/ d = 14 \/ d = 15) as Hc by lia.
  repeat destruct Hc as [-> | Hc]; try (subst d); split; reflexivity.
Qed.

(** url.QueryUnescape undoes url.QueryEscape. *)
Lemma QueryEscape_unescape s :
  all_bytes s = true -> URL.unescape (URL.QueryEscape s) URL.encodeQueryComponent = Some s.
Proof.
  unfold URL.QueryEscape. induction s as [|a s IH]; [reflexivity|].
  simpl. intros H. apply andb_prop in H as [Ha Hs]. unfold is_byte in Ha.
  apply andb_prop in Ha as [Ha1 Ha2]. apply Z.leb_le in Ha1. apply Z.leb_le in Ha2.
  specialize (IH Hs).
  destruct (URL.shouldEscape a URL.encodeQueryComponent) eqn:Hesc.
  - destruct (a =? 32) eqn:H32; simpl.
    + apply Z.eqb_eq in H32. subst a. rewrite IH. reflexivity.
    + rewrite (BitFacts.land_mask 4 15 16) by (reflexivity || lia).
      rewrite (BitFacts.shiftr_div _ 4 16) by (reflexivity || lia).
      destruct (upperhex_ok (a / 16)) as [Hh1 Hu1]; [zlia|].
      destruct (upperhex_ok (a mod 16)) as [Hh2 Hu2]; [zlia|].
      rewrite Hh1, Hh2, Hu1, Hu2. simpl. rewrite IH. f_equal. f_equal. zlia.
  - simpl.
    assert (H37 : (a =? 37) = false).
    { destruct (a =? 37) eqn:E; [|reflexivity]. apply Z.eqb_eq in E. subst a. discriminate. }
    assert (H43 : (a =? 43) = false).
    { destruct (a =? 43) eqn:E; [|reflexivity]. apply Z.eqb_eq in E. subst a. discriminate. }
    rewrite H37, IH, H43. reflexivity.
Qed.

(** ** The JSON codec's round trip *)
Module RoundTrip.
Import UTF8.
Lemma first_size p0 sz lo hi : first p0 = FSeq sz lo hi -> (sz = 2 \/ sz = 3 \/ sz = 4)%nat.
Proof.
  unfold first. intros H.
  repeat match type of H with context [if ?c then _ else _] => destruct c end;
    try discriminate; injection H as <- _ _; lia.
Qed.

Lemma DecodeRune_size p : p <> [] -> (1 <= snd (DecodeRune p) <= List.length p)%nat.
Proof.
  intros Hp. destruct p as [|p0 rest]; [congruence|].
  unfold DecodeRune.
  destruct (first p0) as [| |sz lo hi] eqn:Hf; simpl; [lia|lia|].
  pose proof (first_size _ _ _ _ Hf) as Hsz.
  destruct (Nat.ltb _ sz) eqn:Hl; simpl; [lia|]. apply Nat.ltb_ge in Hl.
  destruct rest as [|b1 rest1]; simpl; [lia|].
  destruct (out b1 lo hi); simpl; [lia|].
  destruct (Nat.leb sz 2) eqn:H2; simpl; [lia|]. apply Nat.leb_gt in H2.
  destruct rest1 as [|b2 rest2]; simpl; [lia|].
  destruct (out b2 locb hicb); simpl; [lia|].
  destruct (Nat.leb sz 3) eqn:H3; simpl; [lia|]. apply Nat.leb_gt in H3.
  destruct rest2 as [|b3 rest3]; simpl in *; [lia|].
  destruct (out b3 locb hicb); simpl; lia.
Qed.

(** DecodeRune reads no byte past the sequence it accepts. *)
Lemma DecodeRune_prefix p q c n :
  DecodeRune p = (c, n) -> (0 < n)%nat -> (n <> 1%nat \/ c <> RuneError) ->
  DecodeRune (firstn n p ++ q) = (c, n).
Proof.
  intros H Hn Hv. destruct p as [|p0 rest]; [injection H as _ <-; lia|].
  unfold DecodeRune in H.
  destruct (first p0) as [| |sz lo hi] eqn:Hf.
  - injection H as <- <-. simpl. rewrite Hf. reflexivity.
  - injection H as <- <-. destruct Hv as [Hv|Hv]; congruence.
  - pose proof (first_size _ _ _ _ Hf) as Hsz.
    destruct (Nat.ltb _ sz) eqn:Hl; [injection H as <- <-; destruct Hv as [Hv|Hv]; congruence|].
    apply Nat.ltb_ge in Hl.
    destruct rest as [|b1 rest1]; [injection H as <- <-; destruct Hv as [Hv|Hv]; congruence|].
    destruct (out b1 lo hi) eqn:Ho1; [injection H as <- <-; destruct Hv as [Hv|Hv]; congruence|].
    destruct (Nat.leb sz 2) eqn:H2.
    { injection H as <- <-. simpl. rewrite Hf.
      apply Nat.leb_le in H2.
      replace (Nat.ltb _ sz) with false by (symmetry; apply Nat.ltb_ge; simpl; lia).
      rewrite Ho1. replace (Nat.leb sz 2) with true by (symmetry; apply Nat.leb_le; lia).
      reflexivity. }
    destruct rest1 as [|b2 rest2]; [injection H as <- <-; destruct Hv as [Hv|Hv]; congruence|].
    destruct (out b2 locb hicb) eqn:Ho2; [injection H as <- <-; destruct Hv as [Hv|Hv]; congruence|].
    destruct (Nat.leb sz 3) eqn:H3.
    { injection H as <- <-. simpl. rewrite Hf.
      pose proof H3 as H3'. apply Nat.leb_le in H3'.
      replace (Nat.ltb _ sz) with false by (symmetry; apply Nat.ltb_ge; simpl; lia).
      rewrite Ho1, H2, Ho2, H3. reflexivity. }
    destruct rest2 as [|b3 rest3]; [injection H as <- <-; destruct Hv as [Hv|Hv]; congruence|].
    destruct (out b3 locb hicb) eqn:Ho3; [injection H as <- <-; destruct Hv as [Hv|Hv]; congruence|].
    injection H as <- <-. simpl. rewrite Hf.
    replace (Nat.ltb _ sz) with false by (symmetry; apply Nat.ltb_ge; simpl; lia).
    rewrite Ho1, H2, Ho2, H3, Ho3. reflexivity.
Qed.

Lemma skipn_size_le b r : (List.length (skipn (snd (DecodeRune (b :: r))) (b :: r)) <= List.length r)%nat.
Proof.
  pose proof (DecodeRune_size (b :: r) ltac:(discriminate)) as H.
  rewrite length_skipn. set (n := snd (DecodeRune (b :: r))) in *.
  cbn [List.length] in *. lia.
Qed.

Lemma appendString_loop_fuel f1 : forall f2 s,
  (List.length s <= f1)%nat -> (List.length s <= f2)%nat ->
  JSON.appendString_loop f1 s = JSON.appendString_loop f2 s.
Proof.
  induction f1 as [|f1 IH]; intros f2 s H1 H2.
  - destruct s; [destruct f2; reflexivity| simpl in H1; lia].
  - destruct s as [|b r]; [destruct f2; reflexivity|].
    destruct f2 as [|f2]; [simpl in H2; lia|].
    simpl in H1, H2. cbn [JSON.appendString_loop].
    pose proof (skipn_size_le b r) as Hs.
    destruct (DecodeRune (b :: r)) as [c size]. simpl in Hs.
    rewrite (IH f2 r) by lia. rewrite (IH f2 (skipn size (b :: r))) by lia.
    reflexivity.
Qed.

Lemma ReplaceInvalid_fuel_eq f1 : forall f2 s,
  (List.length s <= f1)%nat -> (List.length s <= f2)%nat ->
  ReplaceInvalid_fuel f1 s = ReplaceInvalid_fuel f2 s.
Proof.
  induction f1 as [|f1 IH]; intros f2 s H1 H2.
  - destruct s; [destruct f2; reflexivity| simpl in H1; lia].
  - destruct s as [|b r]; [destruct f2; reflexivity|].
    destruct f2 as [|f2]; [simpl in H2; lia|].
    simpl in H1, H2. cbn [ReplaceInvalid_fuel].
    pose proof (skipn_size_le b r) as Hs.
    destruct (DecodeRune (b :: r)) as [c size]. simpl in Hs.
    rewrite (IH f2 (skipn size (b :: r))) by lia.
    reflexivity.
Qed.

Lemma hexval_hex d : 0 <= d < 16 -> JSON.hexval (JSON.hex d) = Some d.
Proof.
  intros Hd. rewrite <- (Z2Nat.id d) by lia.
  assert (Hn : (Z.to_nat d < 16)%nat) by lia.
  generalize dependent (Z.to_nat d); intros n Hn.
  do 16 (destruct n as [|n]; [reflexivity|]). lia.
Qed.

Lemma PS_plain f b X :
  32 <= b < 128 -> b <> 34 -> b <> 92 ->
  JSON.parse_string (S f) (b :: X) = JSON.app_p [b] (JSON.parse_string f X).
Proof.
  intros Hb H34 H92. cbn [JSON.parse_string].
  replace (b =? 34) with false by (symmetry; apply Z.eqb_neq; exact H34).
  replace (b =? 92) with false by (symmetry; apply Z.eqb_neq; exact H92).
  replace (b <? 32) with false by (symmetry; apply Z.ltb_ge; lia).
  replace (b <? RuneSelf) with true by (symmetry; apply Z.ltb_lt; unfold RuneSelf; lia).
  reflexivity.
Qed.

Lemma PS_u f a b c d X x y z w :
  JSON.hexval a = Some x -> JSON.hexval b = Some y ->
  JSON.hexval c = Some z -> JSON.hexval d = Some w ->
  JSON.IsSurrogate (((x * 16 + y) * 16 + z) * 16 + w) = false ->
  JSON.parse_string (S f) (92 :: 117 :: a :: b :: c :: d :: X)
  = JSON.app_p (EncodeRune (((x * 16 + y) * 16 + z) * 16 + w)) (JSON.parse_string f X).
Proof.
  intros Ha Hb Hc Hd Hs. cbn [JSON.parse_string]. cbv beta iota. cbn [orb Z.eqb Pos.eqb].
  unfold JSON.getu4. rewrite Ha, Hb, Hc, Hd, Hs. reflexivity.
Qed.

Lemma PS_u00 f b X :
  0 <= b < 128 ->
  JSON.parse_string (S f) ([92; 117; 48; 48; JSON.hex (Z.shiftr b 4); JSON.hex (Z.land b 15)] ++ X)
  = JSON.app_p [b] (JSON.parse_string f X).
Proof.
  intros Hb.
  rewrite (BitFacts.shiftr_div _ 4 16) by (reflexivity || lia).
  rewrite (BitFacts.land_mask 4 15 16) by (reflexivity || lia).
  cbn [app]. rewrite (PS_u f _ _ _ _ X 0 0 (b / 16) (b mod 16)); try reflexivity;
    try (apply hexval_hex; zlia).
  - replace (((0 * 16 + 0) * 16 + b / 16) * 16 + b mod 16) with b by zlia.
    rewrite UTF8Facts.enc1 by lia. reflexivity.
  - replace (((0 * 16 + 0) * 16 + b / 16) * 16 + b mod 16) with b by zlia.
    unfold JSON.IsSurrogate. apply andb_false_iff; left; apply Z.leb_gt; lia.
Qed.

Lemma htmlSafe_true b : JSON.htmlSafe b = true -> 32 <= b < 128 /\ b <> 34 /\ b <> 92.
Proof.
  unfold JSON.htmlSafe. rewrite !andb_true_iff, negb_true_iff. intros [[H1 H2] H3].
  apply Z.leb_le in H1. apply Z.ltb_lt in H2. cbn [existsb] in H3.
  rewrite !orb_false_iff in H3. destruct H3 as [H34 [H92 _]].
  apply Z.eqb_neq in H34, H92. lia.
Qed.

Lemma PS_escape f b X :
  0 <= b < 128 ->
  JSON.parse_string (S f) (JSON.escapeASCII b ++ X) = JSON.app_p [b] (JSON.parse_string f X).
Proof.
  intros Hb. unfold JSON.escapeASCII.
  destruct ((b =? 92) || (b =? 34)) eqn:E.
  { apply orb_true_iff in E. destruct E as [E|E]; apply Z.eqb_eq in E; subst b; reflexivity. }
  destruct (b =? 8) eqn:E8; [apply Z.eqb_eq in E8; subst b; reflexivity|].
  destruct (b =? 12) eqn:E12; [apply Z.eqb_eq in E12; subst b; reflexivity|].
  destruct (b =? 10) eqn:E10; [apply Z.eqb_eq in E10; subst b; reflexivity|].
  destruct (b =? 13) eqn:E13; [apply Z.eqb_eq in E13; subst b; reflexivity|].
  destruct (b =? 9) eqn:E9; [apply Z.eqb_eq in E9; subst b; reflexivity|].
  apply PS_u00; exact Hb.
Qed.

Lemma skipn_firstn_app {A} n (p X : list A) :
  (n <= List.length p)%nat -> skipn n (firstn n p ++ X) = X.
Proof.
  intros H. rewrite skipn_app, length_firstn.
  rewrite skipn_all2 by (rewrite length_firstn; lia).
  replace (n - Nat.min n (List.length p))%nat with 0%nat by lia. reflexivity.
Qed.

Lemma PS_multi f b r X c n :
  128 <= b -> DecodeRune (b :: r) = (c, n) -> (0 < n)%nat -> (n <> 1%nat \/ c <> RuneError) ->
  JSON.parse_string (S f) (firstn n (b :: r) ++ X) = JSON.app_p (EncodeRune c) (JSON.parse_string f X).
Proof.
  intros Hb HD Hn Hv.
  pose proof (DecodeRune_size (b :: r) ltac:(discriminate)) as Hs. rewrite HD in Hs.
  cbn [snd] in Hs.
  pose proof (DecodeRune_prefix (b :: r) X c n HD Hn Hv) as HP.
  rewrite <- (skipn_firstn_app n (b :: r) X) at 2 by exact (proj2 Hs).
  destruct n as [|n']; [lia|].
  cbn [firstn app] in HP |- *.
  cbn [JSON.parse_string].
  replace (b =? 34) with false by (symmetry; apply Z.eqb_neq; lia).
  replace (b =? 92) with false by (symmetry; apply Z.eqb_neq; lia).
  replace (b <? 32) with false by (symmetry; apply Z.ltb_ge; lia).
  replace (b <? RuneSelf) with false by (symmetry; apply Z.ltb_ge; unfold RuneSelf; lia).
  rewrite HP. reflexivity.
Qed.

Lemma DecodeRune_ascii b r : 0 <= b < 128 -> DecodeRune (b :: r) = (b, 1%nat).
Proof.
  intros Hb. unfold DecodeRune, first.
  replace (b <? 128) with true by (symmetry; apply Z.ltb_lt; lia). reflexivity.
Qed.

Lemma all_bytes_skipn k : forall s, all_bytes s = true -> all_bytes (skipn k s) = true.
Proof.
  induction k as [|k IH]; intros s H; [exact H|].
  destruct s as [|b r]; [reflexivity|]. cbn [skipn]. apply IH.
  unfold all_bytes in *. cbn [forallb] in H. apply andb_true_iff in H. apply H.
Qed.

Lemma PS_fffd f X :
  JSON.parse_string (S f) ([92; 117; 102; 102; 102; 100] ++ X)
  = JSON.app_p (EncodeRune RuneError) (JSON.parse_string f X).
Proof. apply (PS_u f _ _ _ _ X 15 15 15 13); reflexivity. Qed.

Lemma PS_2028 f c X :
  c = 8232 \/ c = 8233 ->
  JSON.parse_string (S f) ([92; 117; 50; 48; 50; JSON.hex (Z.land c 15)] ++ X)
  = JSON.app_p (EncodeRune c) (JSON.parse_string f X).
Proof.
  intros [-> | ->]; [apply (PS_u f _ _ _ _ X 2 0 2 8) | apply (PS_u f _ _ _ _ X 2 0 2 9)];
    reflexivity.
Qed.

Lemma parse_appendString n : forall s fuel rest,
  (List.length s <= n)%nat -> all_bytes s = true ->
  (List.length (JSON.appendString_loop (List.length s) s) < fuel)%nat ->
  JSON.parse_string fuel (JSON.appendString_loop (List.length s) s ++ 34 :: rest)
  = JSON.POk (ReplaceInvalid s) rest.
Proof.
  induction n as [|n IH]; intros s fuel rest Hn Hb Hf.
  - destruct s; [|simpl in Hn; lia].
    destruct fuel; [simpl in Hf; lia|]. reflexivity.
  - destruct s as [|b r].
    { destruct fuel; [simpl in Hf; lia|]. reflexivity. }
    destruct fuel as [|f]; [lia|].
    assert (Hbr : is_byte b = true /\ all_bytes r = true)
      by (unfold all_bytes in *; cbn [forallb] in Hb; apply andb_true_iff in Hb; exact Hb).
    destruct Hbr as [Hb0 Hr]. unfold is_byte in Hb0.
    apply andb_true_iff in Hb0. destruct Hb0 as [Hb0 Hb1].
    apply Z.leb_le in Hb0. apply Z.leb_le in Hb1.
    cbn [List.length] in Hn, Hf |- *.
    unfold ReplaceInvalid. cbn [List.length ReplaceInvalid_fuel].
    cbn [JSON.appendString_loop] in Hf |- *.
    destruct (b <? RuneSelf) eqn:Ha.
    + apply Z.ltb_lt in Ha. unfold RuneSelf in Ha.
      rewrite DecodeRune_ascii by lia. cbn [skipn].
      rewrite UTF8Facts.enc1 by lia.
      change (ReplaceInvalid_fuel (List.length r) r) with (ReplaceInvalid r).
      destruct (JSON.htmlSafe b) eqn:Hs.
      * apply htmlSafe_true in Hs.
        cbn [app List.length] in Hf |- *.
        rewrite PS_plain by lia. rewrite (IH r) by (auto; lia). reflexivity.
      * rewrite <- app_assoc. rewrite PS_escape by lia.
        rewrite length_app in Hf.
        assert (1 <= List.length (JSON.escapeASCII b))%nat
          by (unfold JSON.escapeASCII; repeat (destruct (_ =? _)); simpl; lia).
        rewrite (IH r) by (auto; lia). reflexivity.
    + apply Z.ltb_ge in Ha. unfold RuneSelf in Ha.
      pose proof (DecodeRune_size (b :: r) ltac:(discriminate)) as Hsz.
      destruct (DecodeRune (b :: r)) as [c size] eqn:HD. cbn [snd List.length] in Hsz.
      assert (Hsk : (List.length (skipn size (b :: r)) <= List.length r)%nat)
        by (rewrite length_skipn; cbn [List.length]; lia).
      assert (Hbs : all_bytes (skipn size (b :: r)) = true) by (apply all_bytes_skipn; exact Hb).
      rewrite (ReplaceInvalid_fuel_eq (List.length r) (List.length (skipn size (b :: r))))
        by (auto; lia).
      destruct ((c =? RuneError) && (size =? 1)%nat) eqn:Hinv.
      * apply andb_true_iff in Hinv. destruct Hinv as [Hc Hs1].
        apply Z.eqb_eq in Hc. apply Nat.eqb_eq in Hs1. subst c size. cbn [skipn] in *.
        rewrite <- app_assoc. rewrite PS_fffd.
        rewrite length_app in Hf. cbn [List.length] in Hf.
        rewrite (IH r) by (auto; lia). reflexivity.
      * rewrite (appendString_loop_fuel (List.length r) (List.length (skipn size (b :: r))))
          in Hf |- * by (auto; lia).
        destruct ((c =? 8232) || (c =? 8233)) eqn:H2028; cbv iota in Hf; rewrite length_app in Hf.
        -- rewrite <- app_assoc. rewrite PS_2028
             by (apply orb_true_iff in H2028; destruct H2028 as [E|E]; apply Z.eqb_eq in E; auto).
           cbn [List.length] in Hf.
           rewrite (IH (skipn size (b :: r))) by (auto; lia). reflexivity.
        -- rewrite <- app_assoc. rewrite (PS_multi f b r _ c size) by
             (first [ exact HD | lia
                    | apply andb_false_iff in Hinv; destruct Hinv as [E|E];
                      [right; apply Z.eqb_neq in E; exact E | left; apply Nat.eqb_neq in E; exact E] ]).
           rewrite length_firstn in Hf. cbn [List.length] in Hf.
           rewrite (IH (skipn size (b :: r))) by (auto; lia). reflexivity.
Qed.



Lemma marshal_struct fs vs :
  JSON.marshal (JSON.TStruct fs) (JSON.VStruct vs)
  = match marshal_fields fs vs with
    | [] => s2b "{}"
    | f0 :: fr => [123] ++ f0 ++ flat_map (fun f => 44 :: f) fr ++ [125]
    end.
Proof. reflexivity. Qed.

Lemma json_of_struct fs vs : json_of (JSON.TStruct fs) (JSON.VStruct vs) = JSON.JObject (json_members fs vs).
Proof. reflexivity. Qed.

Lemma typed_struct fs vs : JSON.typed (JSON.TStruct fs) (JSON.VStruct vs) = typed_fields fs vs.
Proof. reflexivity. Qed.

Lemma decoded_struct fs vs : decoded (JSON.TStruct fs) (JSON.VStruct vs) = JSON.VStruct (decoded_fields fs vs).
Proof. reflexivity. Qed.

Lemma wf_struct fs : wf_type (JSON.TStruct fs) = distinct_names fs && wf_fields fs.
Proof. reflexivity. Qed.

Lemma unmarshal_struct fs kvs vs :
  JSON.unmarshal (JSON.TStruct fs) (JSON.JObject kvs) (JSON.VStruct vs)
  = match unmarshal_members fs kvs vs with Some vs' => Some (JSON.VStruct vs') | None => None end.
Proof. reflexivity. Qed.

Lemma marshal_fields_items fs : forall vs,
  marshal_fields fs vs = map member_text (exported_items fs vs).
Proof.
  induction fs as [|f fs IH]; intros [|v vs]; try reflexivity.
  cbn [marshal_fields exported_items]. destruct (JSON.IsExported (fst f)); cbn [map];
    rewrite IH; reflexivity.
Qed.

Lemma json_members_items fs : forall vs,
  json_members fs vs = map member_pair (exported_items fs vs).
Proof.
  induction fs as [|f fs IH]; intros [|v vs]; try reflexivity.
  cbn [json_members exported_items]. destruct (JSON.IsExported (fst f)); cbn [map];
    rewrite IH; reflexivity.
Qed.

Lemma skipSpace_nonspace c r : JSON.isSpace c = false -> JSON.skipSpace (c :: r) = c :: r.
Proof. intros H. cbn [JSON.skipSpace]. rewrite H. reflexivity. Qed.

Ltac len_lia :=
  repeat (first [rewrite length_app in * | progress cbn [List.length] in *]); lia.

Lemma member_text_eq k vt j :
  member_text (k, vt, j) = 34 :: JSON.appendString_loop (List.length k) k ++ 34 :: 58 :: vt.
Proof. unfold member_text, JSON.appendString. cbn [fst snd]. rewrite <- !app_assoc. reflexivity. Qed.

Lemma parse_members_chain its : forall it0 acc fuel rest,
  Forall good_item (it0 :: its) ->
  le (List.length (member_text it0 ++ flat_map (fun f => 44 :: f) (map member_text its) ++ [125]))
     (S fuel) ->
  JSON.parse_members fuel
    (member_text it0 ++ flat_map (fun f => 44 :: f) (map member_text its) ++ 125 :: rest) acc
  = JSON.POk (JSON.JObject (acc ++ map member_pair (it0 :: its))) rest.
Proof.
  induction its as [|it1 its IH]; intros [[k vt] j] acc fuel rest Hg Hlen;
    inversion Hg as [|? ? [Hk [Hkb Hv]] Hg']; subst; cbn [fst snd] in Hk, Hkb, Hv.
  all: rewrite member_text_eq in Hlen |- *.
  all: cbn [map flat_map] in Hlen |- *.
  all: destruct fuel as [|f]; [len_lia|].
  all: cbn [app]; repeat rewrite <- app_assoc; cbn [app].
  all: cbn [JSON.parse_members]; rewrite skipSpace_nonspace by reflexivity; cbn [negb Z.eqb Pos.eqb].
  all: rewrite parse_appendString with (n := List.length k)
         by (auto; rewrite length_app; cbn [List.length]; lia).
  all: rewrite Hk; rewrite skipSpace_nonspace by reflexivity; cbn [negb Z.eqb Pos.eqb].
  - rewrite Hv by len_lia.
    rewrite skipSpace_nonspace by reflexivity. reflexivity.
  - idtac.
    rewrite Hv by len_lia.
    rewrite skipSpace_nonspace by reflexivity. cbn [Z.eqb Pos.eqb].
    rewrite IH.
    + rewrite <- app_assoc. reflexivity.
    + exact Hg'.
    + len_lia.
Qed.

Lemma ReplaceInvalid_ascii s :
  forallb (fun c => (0 <=? c) && (c <? 128)) s = true -> ReplaceInvalid s = s.
Proof.
  induction s as [|b s IH]; intros H; [reflexivity|].
  cbn [forallb] in H. apply andb_true_iff in H as [Hb H].
  apply andb_true_iff in Hb as [Hb0 Hb1]. apply Z.leb_le in Hb0. apply Z.ltb_lt in Hb1.
  unfold ReplaceInvalid. cbn [List.length ReplaceInvalid_fuel].
  rewrite DecodeRune_ascii by lia. cbn [skipn]. rewrite UTF8Facts.enc1 by lia.
  change (ReplaceInvalid_fuel (List.length s) s) with (ReplaceInvalid s).
  rewrite IH by exact H. reflexivity.
Qed.

Lemma IsIdent_ascii name :
  IsIdent name = true -> forallb (fun c => (0 <=? c) && (c <? 128)) (s2b name) = true.
Proof.
  unfold IsIdent. rewrite !forallb_forall. intros H c Hc. specialize (H c Hc).
  unfold URL.is_alnum in H. rewrite !orb_true_iff, !andb_true_iff, !Z.leb_le, Z.eqb_eq in H.
  apply andb_true_iff; split; [apply Z.leb_le | apply Z.ltb_lt]; lia.
Qed.

Lemma ascii_all_bytes s :
  forallb (fun c => (0 <=? c) && (c <? 128)) s = true -> all_bytes s = true.
Proof.
  unfold all_bytes, is_byte. rewrite !forallb_forall. intros H c Hc. specialize (H c Hc).
  rewrite andb_true_iff, Z.leb_le, Z.ltb_lt in H.
  apply andb_true_iff; split; apply Z.leb_le; lia.
Qed.

Lemma parse_object_members f it0 X :
  JSON.parse_object (S f) (member_text it0 ++ X) = JSON.parse_members f (member_text it0 ++ X) [].
Proof.
  destruct it0 as [[k vt] j]. rewrite member_text_eq. cbn [app JSON.parse_object].
  rewrite skipSpace_nonspace by reflexivity. reflexivity.
Qed.

Lemma parse_value_marshal : forall t, wf_type t = true ->
  forall v, JSON.typed t v = true -> forall fuel rest,
  le (List.length (JSON.marshal t v)) fuel ->
  JSON.parse_value fuel (JSON.marshal t v ++ rest) = JSON.POk (json_of t v) rest.
Proof.
  apply (gotype_ind' (fun t => wf_type t = true ->
    forall v, JSON.typed t v = true -> forall fuel rest,
    le (List.length (JSON.marshal t v)) fuel ->
    JSON.parse_value fuel (JSON.marshal t v ++ rest) = JSON.POk (json_of t v) rest)).
  - intros _ v Hty fuel rest Hlen. destruct v as [s| | |]; try discriminate.
    cbn [JSON.marshal json_of JSON.typed] in *. unfold JSON.appendString in *.
    destruct fuel as [|f]; [cbn [app List.length] in Hlen; lia|].
    rewrite <- !app_assoc. cbn [app].
    cbn [JSON.parse_value]. rewrite skipSpace_nonspace by reflexivity. cbn [Z.eqb Pos.eqb].
    rewrite parse_appendString with (n := List.length s)
      by (auto; rewrite length_app; cbn [List.length]; lia).
    reflexivity.
  - intros _ v Hty fuel rest Hlen. destruct v as [|b| |]; try discriminate.
    destruct fuel as [|f]; [destruct b; cbn in Hlen; lia|].
    destruct b; reflexivity.
  - intros fs IHfs Hwf v Hty fuel rest Hlen. destruct v as [| |vs|]; try discriminate.
    rewrite wf_struct in Hwf. apply andb_true_iff in Hwf as [Hd Hw].
    rewrite typed_struct in Hty.
    rewrite marshal_struct in *. rewrite json_of_struct, json_members_items.
    rewrite marshal_fields_items in *.
    assert (Hg : Forall good_item (exported_items fs vs)).
    { clear - IHfs Hw Hty. revert vs Hty.
      induction fs as [|f fs IH]; intros [|v vs] Hty; try discriminate; try constructor.
      inversion IHfs as [|? ? Pf IHfs']; subst.
      cbn [wf_fields] in Hw. apply andb_true_iff in Hw as [Hw Hws].
      apply andb_true_iff in Hw as [Hid Hwf].
      cbn [typed_fields] in Hty. apply andb_true_iff in Hty as [Hty Htys].
      cbn [exported_items]. destruct (JSON.IsExported (fst f)).
      - constructor; [|apply IH; assumption].
        unfold good_item; cbn [fst snd]. apply IsIdent_ascii in Hid.
        split; [apply ReplaceInvalid_ascii; exact Hid|].
        split; [apply ascii_all_bytes; exact Hid|].
        intros fuel rest Hl. apply Pf; assumption.
      - apply IH; assumption. }
    revert Hlen Hg. destruct (exported_items fs vs) as [|it0 its]; intros Hlen Hg.
    + destruct fuel as [|[|f]]; cbn in Hlen; try lia. reflexivity.
    + cbn [map] in Hlen |- *. destruct fuel as [|f]; [cbn [List.length app] in Hlen; lia|].
      rewrite <- !app_assoc. cbn [app].
      cbn [JSON.parse_value]. rewrite skipSpace_nonspace by reflexivity. cbn [Z.eqb Pos.eqb].
      destruct f as [|f]; [rewrite !length_app in Hlen; cbn [List.length] in Hlen;
                           destruct it0 as [[k vt] j]; rewrite member_text_eq in Hlen;
                           cbn [List.length] in Hlen; lia|].
      rewrite parse_object_members.
      rewrite parse_members_chain.
      * reflexivity.
      * exact Hg.
      * len_lia.
  - intros n u IH Hwf v Hty fuel rest Hlen.
    cbn [wf_type JSON.typed JSON.marshal json_of] in *. apply IH; assumption.
  - discriminate.
Qed.

Lemma decoded_fields_app pre : forall vpre post vpost,
  List.length pre = List.length vpre ->
  decoded_fields (pre ++ post) (vpre ++ vpost) = decoded_fields pre vpre ++ decoded_fields post vpost.
Proof.
  induction pre as [|f pre IH]; intros [|v vpre] post vpost H; try discriminate; [reflexivity|].
  cbn [app decoded_fields]. rewrite IH by (cbn in H; lia). reflexivity.
Qed.

Lemma length_decoded_fields fs : forall vs,
  List.length fs = List.length vs -> List.length (decoded_fields fs vs) = List.length fs.
Proof.
  induction fs as [|f fs IH]; intros [|v vs] H; try discriminate; [reflexivity|].
  cbn [decoded_fields List.length]. rewrite IH by (cbn in H; lia). reflexivity.
Qed.

Lemma find_field_skip eqk pre : forall l i,
  (forall g, In g pre -> JSON.IsExported (fst g) && eqk (s2b (fst g)) = false) ->
  JSON.find_field eqk (pre ++ l) i = JSON.find_field eqk l (i + List.length pre).
Proof.
  induction pre as [|g pre IH]; intros l i H.
  - cbn. rewrite Nat.add_0_r. reflexivity.
  - cbn [app JSON.find_field]. rewrite (H g (or_introl eq_refl)).
    rewrite IH by (intros g' Hg'; apply H; right; exact Hg').
    cbn [List.length]. rewrite Nat.add_succ_r. reflexivity.
Qed.

Lemma bytes_eqb_spec a b : bytes_eqb a b = true <-> a = b.
Proof. unfold bytes_eqb. destruct (list_eq_dec Z.eq_dec a b); split; congruence. Qed.

Lemma s2b_inj a : forall b, s2b a = s2b b -> a = b.
Proof.
  induction a as [|c a IH]; intros [|d b] H; try discriminate; [reflexivity|].
  unfold s2b in H. cbn [list_ascii_of_string map] in H. injection H as Hcd Hab.
  apply N2Z.inj in Hcd.
  rewrite <- (ascii_N_embedding c), <- (ascii_N_embedding d), Hcd.
  f_equal. apply IH. exact Hab.
Qed.

Lemma distinct_names_app pre : forall f post,
  distinct_names (pre ++ f :: post) = true -> forall g, In g pre -> fst g <> fst f.
Proof.
  induction pre as [|h pre IH]; intros f post H g Hg; [destruct Hg|].
  cbn [app distinct_names] in H. apply andb_true_iff in H as [Hn H].
  destruct Hg as [<- | Hg]; [|exact (IH f post H g Hg)].
  intros Heq. apply negb_true_iff in Hn.
  assert (existsb (fun g => String.eqb (fst h) (fst g)) (pre ++ f :: post) = true) as Hc
    by (apply existsb_exists; exists f; split;
        [apply in_or_app; right; left; reflexivity | apply String.eqb_eq; exact Heq]).
  congruence.
Qed.

Lemma field_index_at pre f post :
  distinct_names (pre ++ f :: post) = true -> JSON.IsExported (fst f) = true ->
  JSON.field_index (pre ++ f :: post) (s2b (fst f)) = Some (List.length pre).
Proof.
  intros Hd He. unfold JSON.field_index.
  rewrite find_field_skip.
  - cbn [JSON.find_field]. rewrite He.
    replace (bytes_eqb (s2b (fst f)) (s2b (fst f))) with true
      by (symmetry; apply bytes_eqb_spec; reflexivity).
    reflexivity.
  - intros g Hg. apply andb_false_iff. right.
    destruct (bytes_eqb (s2b (fst f)) (s2b (fst g))) eqn:E; [|reflexivity].
    apply bytes_eqb_spec, s2b_inj in E.
    exfalso. exact (distinct_names_app pre f post Hd g Hg (eq_sym E)).
Qed.

Lemma unmarshal_set_at pre f post : forall A z B jv,
  List.length A = List.length pre ->
  unmarshal_set (pre ++ f :: post) (A ++ z :: B) (List.length pre) jv
  = match JSON.unmarshal (snd f) jv z with Some v' => Some (A ++ v' :: B) | None => None end.
Proof.
  induction pre as [|g pre IH]; intros [|a A] z B jv H; try discriminate.
  - reflexivity.
  - cbn [app List.length unmarshal_set]. rewrite IH by (cbn in H; lia).
    destruct (JSON.unmarshal (snd f) jv z); reflexivity.
Qed.

Lemma unmarshal_members_fields post : forall pre vpre vpost,
  List.length pre = List.length vpre ->
  distinct_names (pre ++ post) = true ->
  typed_fields post vpost = true ->
  Forall (fun f => forall v, JSON.typed (snd f) v = true ->
            JSON.unmarshal (snd f) (json_of (snd f) v) (JSON.zero (snd f))
            = Some (decoded (snd f) v)) post ->
  unmarshal_members (pre ++ post) (json_members post vpost)
    (decoded_fields pre vpre ++ map (fun f => JSON.zero (snd f)) post)
  = Some (decoded_fields (pre ++ post) (vpre ++ vpost)).
Proof.
  induction post as [|f post IH]; intros pre vpre vpost Hl Hd Ht Hu.
  - destruct vpost; [|discriminate]. rewrite !app_nil_r. reflexivity.
  - destruct vpost as [|v vpost]; [discriminate|].
    cbn [typed_fields] in Ht. apply andb_true_iff in Ht as [Ht Hts].
    inversion Hu as [|? ? Hf Hus]; subst.
    assert (Hsplit : pre ++ f :: post = (pre ++ [f]) ++ post) by (rewrite <- app_assoc; reflexivity).
    assert (Hsplitv : vpre ++ v :: vpost = (vpre ++ [v]) ++ vpost)
      by (rewrite <- app_assoc; reflexivity).
    assert (Hl' : List.length (pre ++ [f]) = List.length (vpre ++ [v]))
      by (rewrite !length_app; cbn; lia).
    cbn [json_members map].
    destruct (JSON.IsExported (fst f)) eqn:He.
    + cbn [unmarshal_members]. rewrite field_index_at by assumption.
      rewrite unmarshal_set_at by (rewrite length_decoded_fields; lia).
      rewrite Hf by exact Ht.
      replace (decoded_fields pre vpre ++ decoded (snd f) v :: map (fun f => JSON.zero (snd f)) post)
        with (decoded_fields (pre ++ [f]) (vpre ++ [v]) ++ map (fun f => JSON.zero (snd f)) post)
        by (rewrite decoded_fields_app by exact Hl; cbn [decoded_fields]; rewrite He;
            rewrite <- app_assoc; reflexivity).
      rewrite Hsplit, Hsplitv. apply IH; try assumption. rewrite <- Hsplit. exact Hd.
    + replace (decoded_fields pre vpre ++ JSON.zero (snd f) :: map (fun f => JSON.zero (snd f)) post)
        with (decoded_fields (pre ++ [f]) (vpre ++ [v]) ++ map (fun f => JSON.zero (snd f)) post)
        by (rewrite decoded_fields_app by exact Hl; cbn [decoded_fields map]; rewrite He;
            rewrite <- app_assoc; reflexivity).
      rewrite Hsplit, Hsplitv. apply IH; try assumption. rewrite <- Hsplit. exact Hd.
Qed.

Lemma unmarshal_json_of : forall t, wf_type t = true ->
  forall v, JSON.typed t v = true ->
  JSON.unmarshal t (json_of t v) (JSON.zero t) = Some (decoded t v).
Proof.
  apply (gotype_ind' (fun t => wf_type t = true ->
    forall v, JSON.typed t v = true ->
    JSON.unmarshal t (json_of t v) (JSON.zero t) = Some (decoded t v))).
  - intros _ v Hty. destruct v; try discriminate. reflexivity.
  - intros _ v Hty. destruct v; try discriminate. reflexivity.
  - intros fs IHfs Hwf v Hty. destruct v as [| |vs|]; try discriminate.
    rewrite wf_struct in Hwf. apply andb_true_iff in Hwf as [Hd Hw].
    rewrite typed_struct in Hty.
    rewrite json_of_struct, decoded_struct.
    change (JSON.zero (JSON.TStruct fs)) with (JSON.VStruct (map (fun f => JSON.zero (snd f)) fs)).
    rewrite unmarshal_struct.
    pose proof (unmarshal_members_fields fs [] [] vs eq_refl Hd Hty) as H.
    cbn [app decoded_fields] in H. rewrite H; [reflexivity|].
    clear - IHfs Hw. induction fs as [|f fs IH]; constructor.
    + inversion IHfs as [|? ? Pf _]; subst.
      cbn [wf_fields] in Hw. apply andb_true_iff in Hw as [Hw _]. apply andb_true_iff in Hw as [_ Hw].
      intros v Hv. apply Pf; assumption.
    + inversion IHfs; subst. cbn [wf_fields] in Hw. apply andb_true_iff in Hw as [_ Hw].
      apply IH; assumption.
  - intros n u IH Hwf v Hty. cbn [wf_type JSON.typed JSON.unmarshal json_of decoded JSON.zero] in *.
    apply IH; assumption.
  - discriminate.
Qed.



Lemma Valid_fuel_eq f1 : forall f2 s,
  (List.length s <= f1)%nat -> (List.length s <= f2)%nat -> Valid_fuel f1 s = Valid_fuel f2 s.
Proof.
  induction f1 as [|f1 IH]; intros f2 s H1 H2.
  - destruct s; [destruct f2; reflexivity| simpl in H1; lia].
  - destruct s as [|b r]; [destruct f2; reflexivity|].
    destruct f2 as [|f2]; [simpl in H2; lia|].
    simpl in H1, H2. cbn [Valid_fuel].
    pose proof (skipn_size_le b r) as Hs.
    destruct (DecodeRune (b :: r)) as [c size]. simpl in Hs.
    rewrite (IH f2 (skipn size (b :: r))) by lia. reflexivity.
Qed.

Lemma ReplaceInvalid_valid n : forall s, (List.length s <= n)%nat ->
  all_bytes s = true -> ValidString s = true -> ReplaceInvalid s = s.
Proof.
  induction n as [|n IH]; intros s Hn Hb Hv.
  - destruct s; [reflexivity|simpl in Hn; lia].
  - destruct s as [|b r]; [reflexivity|].
    unfold ValidString, ReplaceInvalid in *. cbn [List.length Valid_fuel ReplaceInvalid_fuel] in *.
    pose proof (DecodeRune_size (b :: r) ltac:(discriminate)) as Hsz.
    destruct (DecodeRune (b :: r)) as [c size] eqn:HD. cbn [snd List.length] in Hsz.
    apply andb_true_iff in Hv as [Hok Hv]. apply negb_true_iff, andb_false_iff in Hok.
    assert (Hok' : (size <> 1%nat \/ c <> RuneError)).
    { destruct Hok as [E|E]; [right; apply Z.eqb_neq in E | left; apply Nat.eqb_neq in E]; exact E. }
    destruct (UTF8Facts.EncodeRune_DecodeRune (b :: r) c size Hb HD Hok' ltac:(lia)) as [He _].
    assert (Hsk : (List.length (skipn size (b :: r)) <= List.length r)%nat)
      by (rewrite length_skipn; cbn [List.length]; lia).
    rewrite (Valid_fuel_eq _ (List.length (skipn size (b :: r)))) in Hv by (auto; lia).
    rewrite (ReplaceInvalid_fuel_eq _ (List.length (skipn size (b :: r)))) by (auto; lia).
    rewrite He. rewrite IH.
    + apply firstn_skipn.
    + lia.
    + apply all_bytes_skipn. exact Hb.
    + exact Hv.
Qed.

Lemma decoded_plain : forall t v, JSON.typed t v = true -> plain t v = true -> decoded t v = v.
Proof.
  apply (gotype_ind' (fun t => forall v, JSON.typed t v = true -> plain t v = true -> decoded t v = v)).
  - intros v Hty Hp. destruct v as [s| | |]; try discriminate. cbn in Hty, Hp |- *.
    rewrite (ReplaceInvalid_valid (List.length s)) by (auto; lia). reflexivity.
  - intros v Hty Hp. destruct v; try discriminate. reflexivity.
  - intros fs IHfs v Hty Hp. destruct v as [| |vs|]; try discriminate.
    rewrite typed_struct in Hty. rewrite decoded_struct. f_equal.
    change (plain_fields fs vs = true) in Hp.
    revert vs Hty Hp. induction fs as [|f fs IH]; intros [|v vs] Hty Hp; try discriminate;
      [reflexivity|].
    inversion IHfs as [|? ? Pf IHfs']; subst.
    cbn [typed_fields] in Hty. apply andb_true_iff in Hty as [Hty Htys].
    cbn [plain_fields] in Hp. apply andb_true_iff in Hp as [Hp Hps].
    apply andb_true_iff in Hp as [He Hp].
    cbn [decoded_fields]. rewrite He, Pf, IH by assumption. reflexivity.
  - intros n u IH v Hty Hp. cbn [JSON.typed plain decoded] in *. apply IH; assumption.
  - intros v _ _. destruct v; reflexivity.
Qed.

Lemma json_Decode_marshal t v tr :
  wf_type t = true -> JSON.typed t v = true ->
  json_Decode t (NewReader (JSON.marshal t v)) tr = (Ok (decoded t v), tr ++ [EvRead 0]).
Proof.
  intros Hwf Hty. unfold json_Decode, bind, emit, ret. cbn [sdata sid NewReader].
  pose proof (parse_value_marshal t Hwf v Hty (S (2 * List.length (JSON.marshal t v))) []
                ltac:(lia)) as HP.
  rewrite app_nil_r in HP. rewrite HP.
  rewrite unmarshal_json_of by assumption. reflexivity.
Qed.
End RoundTrip.

(** ** Client and server of one exchange

    Facts about the bytes the client sends, how the URL it builds parses
    back, and how the JSON codecs and the handler behave on them. *)
Module Loopback.

(** *** Bytes *)

Lemma all_bytes_app a b : all_bytes (a ++ b) = all_bytes a && all_bytes b.
Proof. unfold all_bytes. apply forallb_app. Qed.

Lemma s2b_bytes s : all_bytes (s2b s) = true.
Proof.
  unfold all_bytes, s2b. rewrite forallb_forall. intros c Hc.
  apply in_map_iff in Hc as [a [<- _]]. unfold is_byte.
  pose proof (N_ascii_bounded a). apply andb_true_iff; split; apply Z.leb_le; lia.
Qed.

Lemma all_bytes_firstn k : forall s, all_bytes s = true -> all_bytes (firstn k s) = true.
Proof.
  induction k as [|k IH]; intros s H; [reflexivity|].
  destruct s as [|b r]; [reflexivity|]. cbn [firstn]. unfold all_bytes in *.
  cbn [forallb] in *. apply andb_true_iff in H as [H1 H2]. rewrite H1. apply IH, H2.
Qed.

Lemma hex_byte d : 0 <= d < 16 -> is_byte (JSON.hex d) = true.
Proof.
  intros Hd. unfold JSON.hex, is_byte.
  destruct (d <? 10); apply andb_true_iff; split; apply Z.leb_le; lia.
Qed.

Lemma escapeASCII_bytes b : 0 <= b < 128 -> all_bytes (JSON.escapeASCII b) = true.
Proof.
  intros Hb. unfold JSON.escapeASCII.
  assert (Hbb : is_byte b = true) by (unfold is_byte; apply andb_true_iff; split; apply Z.leb_le; lia).
  destruct ((b =? 92) || (b =? 34)); [cbn; rewrite Hbb; reflexivity|].
  destruct (b =? 8); [reflexivity|]. destruct (b =? 12); [reflexivity|].
  destruct (b =? 10); [reflexivity|]. destruct (b =? 13); [reflexivity|].
  destruct (b =? 9); [reflexivity|].
  rewrite (BitFacts.shiftr_div _ 4 16) by (reflexivity || lia).
  rewrite (BitFacts.land_mask 4 15 16) by (reflexivity || lia).
  unfold all_bytes. cbn [forallb].
  assert (H1 : 0 <= b / 16 < 16) by (split; [apply Z.div_pos | apply Z.div_lt_upper_bound]; lia).
  assert (H2 : 0 <= b mod 16 < 16) by (apply Z.mod_pos_bound; lia).
  rewrite !hex_byte by assumption. reflexivity.
Qed.

Lemma appendString_loop_bytes fuel : forall s,
  all_bytes s = true -> all_bytes (JSON.appendString_loop fuel s) = true.
Proof.
  induction fuel as [|fuel IH]; intros s Hs; [reflexivity|].
  destruct s as [|b r]; [reflexivity|]. cbn [JSON.appendString_loop].
  assert (Hs' := Hs). unfold all_bytes in Hs'. cbn [forallb] in Hs'.
  apply andb_true_iff in Hs' as [Hb Hr]. unfold is_byte in Hb.
  apply andb_true_iff in Hb as [Hb1 Hb2]. apply Z.leb_le in Hb1, Hb2.
  destruct (b <? UTF8.RuneSelf) eqn:Hlt.
  - apply Z.ltb_lt in Hlt. unfold UTF8.RuneSelf in Hlt.
    destruct (JSON.htmlSafe b).
    + unfold all_bytes in *. cbn [forallb]. apply andb_true_iff; split.
      * unfold is_byte. apply andb_true_iff; split; apply Z.leb_le; lia.
      * apply IH, Hr.
    + rewrite all_bytes_app, escapeASCII_bytes, IH by (assumption || lia). reflexivity.
  - destruct (UTF8.DecodeRune (b :: r)) as [c size] eqn:HD.
    destruct ((c =? UTF8.RuneError) && (size =? 1)%nat).
    + rewrite all_bytes_app, IH by assumption. reflexivity.
    + destruct ((c =? 8232) || (c =? 8233)) eqn:Hc.
      * rewrite all_bytes_app, IH by (apply RoundTrip.all_bytes_skipn; exact Hs).
        apply orb_true_iff in Hc as [Hc|Hc]; apply Z.eqb_eq in Hc; subst c; reflexivity.
      * rewrite all_bytes_app, all_bytes_firstn, IH
          by (exact Hs || (apply RoundTrip.all_bytes_skipn; exact Hs)).
        reflexivity.
Qed.

Lemma appendString_bytes s : all_bytes s = true -> all_bytes (JSON.appendString s) = true.
Proof.
  intros Hs. unfold JSON.appendString.
  rewrite !all_bytes_app, appendString_loop_bytes by exact Hs. reflexivity.
Qed.

Lemma marshal_bytes : forall t v, JSON.typed t v = true -> all_bytes (JSON.marshal t v) = true.
Proof.
  apply (gotype_ind' (fun t => forall v, JSON.typed t v = true -> all_bytes (JSON.marshal t v) = true)).
  - intros v Hty. destruct v as [s| | |]; try discriminate. apply appendString_bytes, Hty.
  - intros v Hty. destruct v as [|b| |]; try discriminate. destruct b; reflexivity.
  - intros fs IHfs v Hty. destruct v as [| |vs|]; try discriminate.
    rewrite RoundTrip.typed_struct in Hty. rewrite RoundTrip.marshal_struct.
    assert (HF : Forall (fun m => all_bytes m = true) (marshal_fields fs vs)).
    { revert vs Hty. induction fs as [|f fs IH]; intros [|v vs] Hty; try discriminate;
        [constructor|].
      inversion IHfs as [|? ? Pf IHfs']; subst.
      cbn [typed_fields] in Hty. apply andb_true_iff in Hty as [Hty Htys].
      cbn [marshal_fields]. destruct (JSON.IsExported (fst f)); [constructor|]; auto.
      rewrite !all_bytes_app, appendString_bytes, Pf by (apply s2b_bytes || exact Hty).
      reflexivity. }
    destruct (marshal_fields fs vs) as [|f0 fr]; [reflexivity|].
    inversion HF as [|? ? H0 Hfr]; subst.
    rewrite !all_bytes_app, H0. cbn [andb].
    assert (Hfm : all_bytes (flat_map (fun f => 44 :: f) fr) = true).
    { clear HF. induction Hfr as [|m ms Hm Hms IH]; [reflexivity|].
      cbn [flat_map]. rewrite all_bytes_app, IH, andb_true_r.
      unfold all_bytes in *. cbn [forallb]. rewrite Hm. reflexivity. }
    rewrite Hfm. reflexivity.
  - intros n u IH v Hty. apply IH, Hty.
  - intros v _. destruct v; reflexivity.
Qed.


(** *** The query string *)

Lemma shouldEscape_query c :
  URL.shouldEscape c URL.encodeQueryComponent = negb (URL.is_alnum c || URL.mem c "-_.~").
Proof.
  unfold URL.shouldEscape. destruct (URL.is_alnum c); [reflexivity|].
  cbn [andb orb negb]. rewrite !andb_false_r.
  destruct (URL.mem c "-_.~"); [reflexivity|].
  destruct (URL.mem c "$&+,/:;=?@"); reflexivity.
Qed.

Lemma upperhex_alnum d : 0 <= d < 16 -> URL.is_alnum (URL.upperhex d) = true.
Proof.
  intros Hd. unfold URL.upperhex, URL.is_alnum.
  destruct (d <? 10) eqn:H; [apply Z.ltb_lt in H | apply Z.ltb_ge in H];
    rewrite !orb_true_iff, !andb_true_iff, !Z.leb_le; lia.
Qed.

(** The bytes [url.QueryEscape] writes. *)
Lemma QueryEscape_chars s : all_bytes s = true ->
  forall c, In c (URL.QueryEscape s) -> URL.is_alnum c = true \/ In c [45; 95; 46; 126; 43; 37].
Proof.
  unfold URL.QueryEscape. induction s as [|a s IH]; intros Hs c Hc; [destruct Hc|].
  unfold all_bytes in Hs. cbn [forallb] in Hs. apply andb_true_iff in Hs as [Ha Hs].
  specialize (IH Hs). cbn [URL.escape] in Hc. rewrite shouldEscape_query in Hc.
  destruct (URL.is_alnum a || URL.mem a "-_.~") eqn:Hsafe; cbn [negb] in Hc.
  - destruct Hc as [<-|Hc]; [|apply IH, Hc].
    apply orb_true_iff in Hsafe as [H|H]; [left; exact H|right].
    unfold URL.mem in H. cbn in H. rewrite !orb_true_iff, !Z.eqb_eq in H.
    destruct H as [->|[->|[->|[->|H]]]]; cbn; try tauto. discriminate.
  - destruct ((a =? 32) && true).
    + destruct Hc as [<-|Hc]; [right; cbn; tauto|apply IH, Hc].
    + unfold is_byte in Ha. apply andb_true_iff in Ha as [Ha1 Ha2].
      apply Z.leb_le in Ha1, Ha2.
      rewrite (BitFacts.shiftr_div _ 4 16) in Hc by (reflexivity || lia).
      rewrite (BitFacts.land_mask 4 15 16) in Hc by (reflexivity || lia).
      destruct Hc as [<-|[<-|[<-|Hc]]].
      * right. cbn. tauto.
      * left. apply upperhex_alnum. split; [apply Z.div_pos | apply Z.div_lt_upper_bound]; lia.
      * left. apply upperhex_alnum. apply Z.mod_pos_bound. lia.
      * apply IH, Hc.
Qed.

Lemma safe_char c : URL.is_alnum c = true \/ In c [45; 95; 46; 126; 43; 37] ->
  32 <= c /\ c <> 127 /\ c <> 35 /\ c <> 38 /\ c <> 59 /\ c <> 61 /\ c <> 63.
Proof.
  intros [H|H].
  - unfold URL.is_alnum in H. rewrite !orb_true_iff, !andb_true_iff, !Z.leb_le in H. lia.
  - cbn in H. repeat destruct H as [<-|H]; try lia.
Qed.

Lemma QueryEscape_safe s : all_bytes s = true ->
  forall c, In c (URL.QueryEscape s) ->
  32 <= c /\ c <> 127 /\ c <> 35 /\ c <> 38 /\ c <> 59 /\ c <> 61 /\ c <> 63.
Proof. intros Hs c Hc. apply safe_char, (QueryEscape_chars s Hs c Hc). Qed.

Lemma Cut_none c : forall l, ~ In c l -> URL.Cut l c = (l, [], false).
Proof.
  induction l as [|a l IH]; intros H; [reflexivity|]. cbn [URL.Cut].
  destruct (a =? c) eqn:E; [apply Z.eqb_eq in E; subst; exfalso; apply H; left; reflexivity|].
  rewrite IH by (intros Hin; apply H; right; exact Hin). reflexivity.
Qed.

Lemma Cut_first c q : forall l, ~ In c l -> URL.Cut (l ++ c :: q) c = (l, q, true).
Proof.
  induction l as [|a l IH]; intros H; cbn [URL.Cut app].
  - rewrite Z.eqb_refl. reflexivity.
  - destruct (a =? c) eqn:E; [apply Z.eqb_eq in E; subst; exfalso; apply H; left; reflexivity|].
    rewrite IH by (intros Hin; apply H; right; exact Hin). reflexivity.
Qed.

Lemma getScheme_loop_app q : forall u i pre A,
  URL.getScheme_loop i (u ++ 63 :: q) pre (A ++ 63 :: q)
  = option_map (fun sr => (fst sr, snd sr ++ 63 :: q)) (URL.getScheme_loop i u pre A).
Proof.
  induction u as [|c u IH]; intros i pre A; [reflexivity|].
  cbn [app URL.getScheme_loop].
  destruct (((97 <=? c) && (c <=? 122)) || ((65 <=? c) && (c <=? 90))); [apply IH|].
  destruct (((48 <=? c) && (c <=? 57)) || (c =? 43) || (c =? 45) || (c =? 46)).
  - destruct i; [reflexivity|apply IH].
  - destruct (c =? 58); [destruct i; reflexivity|reflexivity].
Qed.

Lemma getScheme_loop_rest : forall u i pre A s r,
  URL.getScheme_loop i u pre A = Some (s, r) -> r = A \/ exists p, u = p ++ 58 :: r.
Proof.
  induction u as [|c u IH]; intros i pre A s r H; cbn [URL.getScheme_loop] in H.
  - injection H as _ <-. left. reflexivity.
  - destruct (((97 <=? c) && (c <=? 122)) || ((65 <=? c) && (c <=? 90))).
    { destruct (IH _ _ _ _ _ H) as [->|[p ->]]; [left; reflexivity|].
      right. exists (c :: p). reflexivity. }
    destruct (((48 <=? c) && (c <=? 57)) || (c =? 43) || (c =? 45) || (c =? 46)).
    { destruct i; [injection H as _ <-; left; reflexivity|].
      destruct (IH _ _ _ _ _ H) as [->|[p ->]]; [left; reflexivity|].
      right. exists (c :: p). reflexivity. }
    destruct (c =? 58) eqn:E.
    + destruct i; [discriminate|]. injection H as _ <-. apply Z.eqb_eq in E. subst c.
      right. exists []. reflexivity.
    + injection H as _ <-. left. reflexivity.
Qed.

Lemma count_nil c l : ~ In c l -> URL.count l c = 0%nat.
Proof.
  intros H. unfold URL.count. induction l as [|a l IH]; [reflexivity|].
  cbn [filter]. destruct (c =? a) eqn:E.
  - apply Z.eqb_eq in E. subst. exfalso. apply H. left. reflexivity.
  - apply IH. intros Hin. apply H. right. exact Hin.
Qed.

Lemma count_app l m c : URL.count (l ++ m) c = (URL.count l c + URL.count m c)%nat.
Proof. unfold URL.count. rewrite filter_app, length_app. reflexivity. Qed.

Lemma count_in c l : In c l -> (1 <= URL.count l c)%nat.
Proof.
  unfold URL.count. induction l as [|a l IH]; intros H; [destruct H|].
  cbn [filter]. destruct (c =? a) eqn:E; cbn [List.length]; [lia|].
  destruct H as [->|H]; [rewrite Z.eqb_refl in E; discriminate|]. apply IH, H.
Qed.

Lemma HasSuffixQ_in s : URL.HasSuffixQ s = true -> In 63 s.
Proof.
  unfold URL.HasSuffixQ. intros H. apply in_rev.
  destruct (rev s) as [|a r]; [discriminate|].
  destruct (Z.eq_dec a 63) as [->|Ha]; [left; reflexivity|].
  destruct a as [|p|p]; try discriminate.
  repeat (destruct p as [p|p|]; try discriminate). exfalso. apply Ha. reflexivity.
Qed.

Lemma split_noquery rest : ~ In 63 rest ->
  (if URL.HasSuffixQ rest && Nat.eqb (URL.count rest 63) 1
   then (removelast rest, true, [])
   else let '(b, a, _) := URL.Cut rest 63 in (b, false, a)) = (rest, false, []).
Proof.
  intros H. destruct (URL.HasSuffixQ rest) eqn:E.
  - exfalso. apply H, HasSuffixQ_in, E.
  - cbn [andb]. rewrite Cut_none by exact H. reflexivity.
Qed.

Lemma split_query rest q : ~ In 63 rest ->
  (if URL.HasSuffixQ (rest ++ 63 :: q) && Nat.eqb (URL.count (rest ++ 63 :: q) 63) 1
   then (removelast (rest ++ 63 :: q), true, [])
   else let '(b, a, _) := URL.Cut (rest ++ 63 :: q) 63 in (b, false, a))
  = (rest, match q with [] => true | _ => false end, q).
Proof.
  intros H. rewrite count_app, count_nil by exact H.
  change (URL.count (63 :: q) 63) with (S (URL.count q 63)).
  destruct q as [|c q].
  - replace (URL.HasSuffixQ (rest ++ [63])) with true
      by (unfold URL.HasSuffixQ; rewrite rev_app_distr; reflexivity).
    cbn. rewrite removelast_last. reflexivity.
  - destruct (URL.HasSuffixQ (rest ++ 63 :: c :: q)) eqn:E.
    + assert (Hq : In 63 (c :: q)).
      { unfold URL.HasSuffixQ in E. rewrite rev_app_distr in E.
        apply HasSuffixQ_in. unfold URL.HasSuffixQ.
        destruct (rev (c :: q)) as [|x r] eqn:Er; [apply (f_equal (@List.length Z)) in Er;
          rewrite length_rev in Er; discriminate|].
        change (rev (63 :: c :: q)) with (rev (c :: q) ++ [63]) in E. rewrite Er in E. exact E. }
      pose proof (count_in 63 (c :: q) Hq) as Hc.
      destruct (Nat.eqb (0 + S (URL.count (c :: q) 63)) 1) eqn:Eq;
        [apply Nat.eqb_eq in Eq; lia|].
      cbn [andb]. rewrite Cut_first by exact H. reflexivity.
    + cbn [andb]. rewrite Cut_first by exact H. reflexivity.
Qed.

Lemma CTL_app a b : URL.stringContainsCTLByte (a ++ b) =
  URL.stringContainsCTLByte a || URL.stringContainsCTLByte b.
Proof. unfold URL.stringContainsCTLByte. apply existsb_app. Qed.

Lemma parse_query u q : u <> [42] -> ~ In 63 u -> URL.stringContainsCTLByte q = false ->
  URL.parse (u ++ 63 :: q) = option_map (with_query q) (URL.parse u).
Proof.
  intros H42 H63 Hq. unfold URL.parse.
  rewrite CTL_app. replace (URL.stringContainsCTLByte (63 :: q)) with false
    by (unfold URL.stringContainsCTLByte in *; cbn [existsb]; rewrite Hq; reflexivity).
  rewrite orb_false_r. destruct (URL.stringContainsCTLByte u); [reflexivity|].
  replace (bytes_eqb (u ++ 63 :: q) [42]) with false.
  2:{ unfold bytes_eqb. destruct (list_eq_dec Z.eq_dec (u ++ 63 :: q) [42]) as [E|]; [|reflexivity].
      destruct u as [|a [|b u]]; cbn in E; injection E; intros; try discriminate.
      }
  replace (bytes_eqb u [42]) with false.
  2:{ unfold bytes_eqb. destruct (list_eq_dec Z.eq_dec u [42]); congruence. }
  unfold URL.getScheme. rewrite getScheme_loop_app.
  destruct (URL.getScheme_loop 0 u [] u) as [[sch rest]|] eqn:HG; [|reflexivity].
  cbn [option_map fst snd].
  assert (HR : ~ In 63 rest).
  { destruct (getScheme_loop_rest _ _ _ _ _ _ HG) as [->|[p' ->]]; [exact H63|].
    intros Hin. apply H63, in_or_app. right. right. exact Hin. }
  rewrite (split_query rest q HR), (split_noquery rest HR).
  destruct (negb (HasPrefix rest [47]) && negb (bytes_eqb (URL.ToLower sch) [])); [reflexivity|].
  destruct (negb (HasPrefix rest [47]) &&
            existsb (Z.eqb 58) (let '(seg, _, _) := URL.Cut rest 47 in seg)); [reflexivity|].
  destruct ((negb (bytes_eqb (URL.ToLower sch) []) || negb (HasPrefix rest [47; 47; 47]))
            && HasPrefix rest [47; 47]).
  - destruct (URL.Cut (skipn 2 rest) 47) as [[authority p'] found].
    destruct (URL.parseAuthority authority) as [[us h]|]; [|reflexivity].
    destruct found; [destruct (URL.unescape (47 :: p') URL.encodePath)
                    |destruct (URL.unescape [] URL.encodePath)]; reflexivity.
  - destruct (URL.unescape rest URL.encodePath); reflexivity.
Qed.

Lemma Parse_query u q : u <> [42] -> ~ In 63 u -> ~ In 35 u ->
  URL.stringContainsCTLByte q = false -> ~ In 35 q ->
  URL.Parse (u ++ 63 :: q) = option_map (with_query q) (URL.Parse u).
Proof.
  intros H42 H63 H35 Hq Hq35. unfold URL.Parse.
  rewrite (Cut_none 35 (u ++ 63 :: q)).
  2:{ intros Hin. apply in_app_or in Hin as [Hin|[Hin|Hin]]; [exact (H35 Hin)|discriminate|exact (Hq35 Hin)]. }
  rewrite (Cut_none 35 u H35). cbv beta iota.
  rewrite parse_query by assumption. destruct (URL.parse u); reflexivity.
Qed.

Lemma Query_Get_srpc buf : all_bytes buf = true ->
  Query_Get ([115; 114; 112; 99; 61] ++ URL.QueryEscape buf) QueryKey = buf.
Proof.
  intros Hb. pose proof (QueryEscape_safe buf Hb) as HS.
  unfold Query_Get. cbn [List.length app]. cbn [getQuery_fuel].
  rewrite (Cut_none 38).
  2:{ intros Hin. cbn in Hin. destruct Hin as [H|[H|[H|[H|[H|Hin]]]]]; try discriminate.
      destruct (HS 38 Hin) as (_ & _ & _ & H & _). apply H. reflexivity. }
  replace (existsb (Z.eqb 59) (115 :: 114 :: 112 :: 99 :: 61 :: URL.QueryEscape buf)) with false.
  2:{ symmetry. apply not_true_iff_false. intros He. apply existsb_exists in He as [c [Hc Hce]].
      apply Z.eqb_eq in Hce. subst c. cbn in Hc.
      destruct Hc as [H|[H|[H|[H|[H|Hin]]]]]; try discriminate.
      destruct (HS 59 Hin) as (_ & _ & _ & _ & H & _). apply H. reflexivity. }
  cbv beta iota.
  change (115 :: 114 :: 112 :: 99 :: 61 :: URL.QueryEscape buf)
    with ([115; 114; 112; 99] ++ 61 :: URL.QueryEscape buf).
  rewrite Cut_first by (cbn; intuition discriminate). cbv beta iota.
  unfold QueryUnescape. rewrite QueryEscape_unescape by exact Hb. reflexivity.
Qed.

(** *** JSON endpoints *)

Lemma NewEndpointJSON_fields ResT ReqT meth pth e :
  NewEndpointJSON ResT ReqT meth pth = Some e ->
  HasPrefix pth [47] = true /\ ResponseT e = ResT /\ RequestT e = ReqT /\
  method e = meth /\ path e = pth /\ resc e = NewCodecJSON ResT /\ reqc e = NewCodecJSON ReqT /\
  stateChanging e = negb (bytes_eqb meth MethodGet) && negb (bytes_eqb meth MethodOptions) &&
                    negb (bytes_eqb meth MethodHead).
Proof.
  unfold NewEndpointJSON, NewEndpoint. destruct (HasPrefix pth (s2b "/")) eqn:H; [|discriminate].
  intros HE. injection HE as <-. repeat split; exact H || reflexivity.
Qed.

Lemma Co_json t v tr : JSON.unsupported t = false ->
  Co (NewCodecJSON t) v tr = (Ok (if isEmptyType t then empty else NewReader (JSON.marshal t v)), tr).
Proof.
  intros Hu. cbn [Co NewCodecJSON]. unfold JSON.Marshal. rewrite Hu.
  destruct (isEmptyType t); reflexivity.
Qed.

Lemma json_Decode_data t v s rest tr : wf_type t = true -> JSON.typed t v = true ->
  sdata s = JSON.marshal t v ++ rest -> fst (json_Decode t s tr) = Ok (decoded t v).
Proof.
  intros Hwf Hty Hs. unfold json_Decode, bind, emit, ret. cbn [fst]. rewrite Hs.
  rewrite (RoundTrip.parse_value_marshal t Hwf v Hty) by (rewrite length_app; lia).
  rewrite RoundTrip.unmarshal_json_of by assumption. reflexivity.
Qed.

Lemma Dec_json t v s tr : wf_type t = true -> JSON.typed t v = true ->
  sdata s = (if isEmptyType t then [] else JSON.marshal t v) ->
  fst (Dec (NewCodecJSON t) s tr) = Ok (decoded t v).
Proof.
  intros Hwf Hty Hs. cbn [Dec NewCodecJSON]. destruct (isEmptyType t) eqn:He.
  - destruct t as [| |[|f fs]| |]; try discriminate.
    destruct v as [| |[|w ws]|]; try discriminate. reflexivity.
  - apply (json_Decode_data t v s []); [exact Hwf|exact Hty|rewrite app_nil_r; exact Hs].
Qed.

Lemma validMethod_nonempty m : validMethod m = true -> match m with [] => MethodGet | _ => m end = m.
Proof. destruct m; [discriminate|reflexivity]. Qed.

Lemma url_not_star o pth : HasPrefix pth [47] = true -> o ++ pth <> [42].
Proof.
  intros Hp E. destruct pth as [|c pth']; [discriminate|].
  cbn [HasPrefix] in Hp. apply andb_true_iff in Hp as [Hc _]. apply Z.eqb_eq in Hc. subst c.
  destruct o as [|a [|b o]]; cbn in E; injection E; intros; try discriminate.
Qed.

Lemma query_text_eq E : s2b "?" ++ QueryKey ++ s2b "=" ++ E = 63 :: ([115; 114; 112; 99; 61] ++ E).
Proof. reflexivity. Qed.

Lemma query_safe buf : all_bytes buf = true ->
  URL.stringContainsCTLByte ([115; 114; 112; 99; 61] ++ URL.QueryEscape buf) = false /\
  ~ In 35 ([115; 114; 112; 99; 61] ++ URL.QueryEscape buf).
Proof.
  intros Hb. pose proof (QueryEscape_safe buf Hb) as HS. split.
  - apply not_true_iff_false. intros He. unfold URL.stringContainsCTLByte in He.
    apply existsb_exists in He as [c [Hc Hce]].
    rewrite orb_true_iff, Z.ltb_lt, Z.eqb_eq in Hce.
    apply in_app_or in Hc as [Hc|Hc].
    + cbn in Hc. repeat destruct Hc as [<-|Hc]; try lia; try destruct Hc.
    + destruct (HS c Hc) as (H1 & H2 & _). lia.
  - intros Hc. apply in_app_or in Hc as [Hc|Hc].
    + cbn in Hc. repeat destruct Hc as [Hc|Hc]; try discriminate; try destruct Hc.
    + destruct (HS 35 Hc) as (_ & _ & H & _). apply H. reflexivity.
Qed.

(** The request a client of a JSON endpoint sends, and the inbound
    exchange the test server hands to the handler. *)
Lemma json_request ResT ReqT meth pth e conn v tr
    (HE : NewEndpointJSON ResT ReqT meth pth = Some e)
    (Hmeth : validMethod meth = true)
    (HURL : URL.Parse (origin conn ++ pth) <> None)
    (H35 : ~ In 35 (origin conn ++ pth)) (H63 : ~ In 63 (origin conn ++ pth))
    (Hwf : wf_type ReqT = true) (Hv : JSON.typed ReqT v = true) :
  exists hReq tr2,
    reqCtor e (origin conn ++ path e)
      (if isEmptyType ReqT then empty else NewReader (JSON.marshal ReqT v)) tr = (Ok hReq, tr2) /\
    forall validate p c, exists inb,
      serve e validate p c (setHeaders e conn hReq) =
        match fst (handler e validate p inb []) with
        | Panicked => Err io_EOF
        | Responded r => Ok {| StatusCode := status r; ContentTypeHeader := resp_content_type r;
                               Body := mkStream ResponseBodyId (resp_body r) None (Some (fun _ => None)) |}
        end /\
      forall tr', fst (Dec (reqc e) (if stateChanging e then in_body inb else NewReader (in_query inb)) tr')
                  = Ok (decoded ReqT v).
Proof.
  destruct (NewEndpointJSON_fields _ _ _ _ _ HE) as (Hpre & HRT & HQT & Hm & Hp & Hrc & Hqc & HSC).
  set (su := if isEmptyType ReqT then empty else NewReader (JSON.marshal ReqT v)).
  assert (Hsu : sdata su = if isEmptyType ReqT then [] else JSON.marshal ReqT v)
    by (unfold su; destruct (isEmptyType ReqT); reflexivity).
  assert (Hsb : all_bytes (sdata su) = true)
    by (rewrite Hsu; destruct (isEmptyType ReqT); [reflexivity|apply marshal_bytes; exact Hv]).
  assert (Herr : sreaderr su = None) by (unfold su; destruct (isEmptyType ReqT); reflexivity).
  pose proof (validMethod_nonempty meth Hmeth) as Hmeth'.
  destruct (URL.Parse (origin conn ++ pth)) as [x|] eqn:HP; [|congruence].
  destruct (stateChanging e) eqn:HSC'.
  - exists {| rq_method := meth; rq_url := origin conn ++ pth; rq_body := Some su;
              rq_content_type := []; rq_cookies := [] |}, tr. split.
    + unfold reqCtor. rewrite HSC', Hm, Hp. unfold ret, NewRequestWithContext.
      rewrite Hmeth', Hmeth, HP. reflexivity.
    + intros validate p c.
      exists {| in_body := mkStream 1 (sdata su) None None;
                in_query := Query_Get (URL.RawQuery x) QueryKey |}. split.
      * unfold serve. cbn [setHeaders rq_body rq_url]. rewrite Herr, HP. reflexivity.
      * intros tr'. cbn [in_body]. rewrite Hqc. apply Dec_json; assumption.
  - set (q := [115; 114; 112; 99; 61] ++ URL.QueryEscape (sdata su)).
    destruct (query_safe (sdata su) Hsb) as [Hq Hq35].
    assert (HPq : URL.Parse ((origin conn ++ pth) ++ 63 :: q) = Some (with_query q x)).
    { rewrite Parse_query by (exact (url_not_star _ _ Hpre) || assumption). rewrite HP. reflexivity. }
    exists {| rq_method := meth;
              rq_url := (origin conn ++ pth) ++ s2b "?" ++ QueryKey ++ s2b "=" ++ URL.QueryEscape (sdata su);
              rq_body := None; rq_content_type := []; rq_cookies := [] |},
           (tr ++ [EvRead (sid su)]). split.
    + unfold reqCtor. rewrite HSC', Hm, Hp. unfold ReadAll, bind, emit, ret. cbv beta iota.
      rewrite Herr. cbv beta iota. unfold NewRequestWithContext.
      rewrite Hmeth', Hmeth, query_text_eq. fold q. rewrite HPq. reflexivity.
    + intros validate p c.
      exists {| in_body := mkStream 1 [] None None; in_query := sdata su |}. split.
      * unfold serve. cbn [setHeaders rq_body rq_url]. rewrite query_text_eq. fold q. rewrite HPq.
        cbn [with_query URL.RawQuery]. unfold q. rewrite Query_Get_srpc by exact Hsb. reflexivity.
      * intros tr'. cbn [in_query]. rewrite Hqc. apply Dec_json; assumption.
Qed.

(** *** The handler *)

Lemma handler_ok e validate p inb tr x tr1 r sd tr2
    (HDec : Dec (reqc e) (if stateChanging e then in_body inb else NewReader (in_query inb)) tr = (Ok x, tr1))
    (HVal : forall y, validate x <> Some (Some y))
    (HP : p x = Ok r)
    (HCo : Co (resc e) r (tr1 ++ [EvInvoke]) = (Ok sd, tr2)) :
  fst (handler e validate p inb tr) =
    Responded {| status := StatusOK; resp_content_type := ContentType (resc e); resp_body := sdata sd |}.
Proof.
  unfold handler. unfold bind at 1. rewrite HDec. cbv beta iota.
  destruct (validate x) as [[y|]|] eqn:HV; [exfalso; exact (HVal y eq_refl)| |];
  unfold bind at 1, emit; cbv beta iota; rewrite HP; unfold bind at 1; rewrite HCo; cbv beta iota;
  unfold bind, emit, ret, Close;
  destruct (sreaderr sd); destruct (scloser sd) as [f|]; cbv beta iota; try reflexivity;
  destruct (f _); reflexivity.
Qed.

Lemma json_response_body ResT r :
  sdata (if isEmptyType ResT then empty else NewReader (JSON.marshal ResT r)) =
  (if isEmptyType ResT then [] else JSON.marshal ResT r).
Proof. destruct (isEmptyType ResT); reflexivity. Qed.

Lemma bytes_eqb_refl' a : bytes_eqb a a = true.
Proof. apply RoundTrip.bytes_eqb_spec. reflexivity. Qed.

(** The client's end of a call that the server answers with 200, the
    JSON content type and the JSON encoding of [r]. *)
Lemma json_client_end e su ResT r tr
    (Hrc : resc e = NewCodecJSON ResT) (HRT : ResponseT e = ResT)
    (HK : KeepOpen (reqc e) = false) (Hsu : scloser su = None)
    (Hwf : wf_type ResT = true) (Hr : JSON.typed ResT r = true) :
  let hResp := {| StatusCode := StatusOK; ContentTypeHeader := s2b "application/json";
                  Body := mkStream ResponseBodyId (if isEmptyType ResT then [] else JSON.marshal ResT r)
                            None (Some (fun _ => None)) |} in
  fst (let '(res, tr4) := decodeResponse e hResp tr in
       let '(resp, err) := res in
       let '(err, tr5) := closeRequest e su err tr4 in
       let '(err, tr6) := closeBody e hResp err tr5 in
       ((resp, err), tr6)) = (decoded ResT r, None).
Proof.
  intros hResp. subst hResp.
  set (b := mkStream ResponseBodyId (if isEmptyType ResT then [] else JSON.marshal ResT r)
              None (Some (fun _ => None))).
  unfold decodeResponse. cbn [StatusCode ContentTypeHeader Body].
  rewrite Hrc. cbn [ContentType NewCodecJSON]. rewrite bytes_eqb_refl'.
  change (negb (StatusOK =? StatusOK)) with false. cbn [negb]. cbv beta iota.
  unfold bind at 1.
  pose proof (Dec_json ResT r b tr Hwf Hr eq_refl) as HD.
  destruct (Dec (NewCodecJSON ResT) b tr) as [d tr3]. cbn [fst] in HD. subst d.
  unfold ret. cbv beta iota.
  unfold closeRequest. rewrite HK, Hsu. cbn [negb]. unfold ret.
  unfold closeBody. rewrite Hrc. cbn [KeepOpen NewCodecJSON negb].
  unfold bind, Close, ret. reflexivity.
Qed.

End Loopback.

(** Channels are outside the well-formed types. *)
Lemma wf_supported : forall t, wf_type t = true -> JSON.unsupported t = false.
Proof.
  apply (gotype_ind' (fun t => wf_type t = true -> JSON.unsupported t = false)).
  - reflexivity.
  - reflexivity.
  - intros fs IHfs Hwf. rewrite RoundTrip.wf_struct in Hwf. apply andb_true_iff in Hwf as [_ Hw].
    cbn [JSON.unsupported]. induction fs as [|f fs IH]; [reflexivity|].
    inversion IHfs as [|? ? Pf IHfs']; subst.
    cbn [wf_fields] in Hw. apply andb_true_iff in Hw as [Hw Hws].
    apply andb_true_iff in Hw as [_ Hw].
    rewrite (Pf Hw), andb_false_r. apply IH; assumption.
  - intros n u IH Hwf. apply IH. exact Hwf.
  - discriminate.
Qed.

(** * The claims *)

(** ** Codec *)

(** C5: the JSON codec of the unit type [struct{}] encodes every value as
    the empty source (no bytes, no read error) without any effect, and
    decodes every source, empty or not, to the unit value without error and
    without reading it (the trace is left unchanged). *)
Theorem unit_codec_short_circuits :
  (forall v tr, Co (NewCodecJSON (JSON.TStruct [])) v tr = (Ok empty, tr)) /\
  sdata empty = [] /\ sreaderr empty = None /\
  (forall r tr, Dec (NewCodecJSON (JSON.TStruct [])) r tr = (Ok (JSON.VStruct []), tr)).
Proof.
  repeat split; reflexivity.
Qed.

Lemma marshal_nonempty t v : JSON.typed t v = true -> JSON.unsupported t = false ->
  JSON.marshal t v <> [].
Proof.
  induction t as [| |fs|n u IH|]; destruct v; simpl; intros H Hu; try discriminate.
  - destruct b; discriminate.
  - match goal with |- match ?x with [] => _ | _ :: _ => _ end <> [] => destruct x end;
      discriminate.
  - apply IH; assumption.
  - apply IH; assumption.
  - apply IH; assumption.
  - apply IH; assumption.
Qed.

(** C10: the no-op case of the JSON codec is taken for the type [struct{}]
    only.  For every other type [t] (a named struct type without fields
    among them), encoding returns what [json.Marshal] returns: its text,
    never empty, as the source, or its error (for a type json.Marshal does
    not support, a channel type for one); and decoding reads the source
    (its first effect is a read of it) and parses it. *)
Theorem json_codec_marshals_other_types (t : JSON.gotype) (Ht : t <> JSON.TStruct []) :
  isEmptyType t = false /\
  (forall v tr, Co (NewCodecJSON t) v tr =
     (match JSON.Marshal t v with
      | Some buf => Ok (NewReader buf)
      | None => Err json_UnsupportedTypeError
      end, tr)) /\
  (forall v buf, JSON.typed t v = true -> JSON.Marshal t v = Some buf -> buf <> []) /\
  (forall r tr, Dec (NewCodecJSON t) r tr = json_Decode t r tr /\
                snd (json_Decode t r tr) = tr ++ [EvRead (sid r)]).
Proof.
  assert (He : isEmptyType t = false).
  { destruct t as [| |[|f fs]|n u|]; try reflexivity. congruence. }
  split; [exact He|]. split; [|split].
  - intros v tr. simpl. rewrite He. destruct (JSON.Marshal t v); reflexivity.
  - intros v buf Hty HM. unfold JSON.Marshal in HM.
    destruct (JSON.unsupported t) eqn:Hu; [discriminate|].
    injection HM as <-. apply marshal_nonempty; assumption.
  - intros r tr. simpl. rewrite He. split; reflexivity.
Qed.

Lemma json_codec_marshals_other_types_witness :
  JSON.TNamed "Empty" (JSON.TStruct []) <> JSON.TStruct [] /\
  Co (NewCodecJSON (JSON.TNamed "Empty" (JSON.TStruct []))) (JSON.VStruct []) [] =
    (Ok (NewReader (s2b "{}")), []).
Proof.
  split; [discriminate|].
  destruct (json_codec_marshals_other_types (JSON.TNamed "Empty" (JSON.TStruct [])))
    as [_ [H _]]; [discriminate|].
  rewrite H. reflexivity.
Defined.

(** C10 fails as stated for a type json.Marshal does not support: for a
    channel type, which is not [struct{}], encoding returns json.Marshal's
    [UnsupportedTypeError] and emits no JSON text. *)
Lemma json_codec_marshals_other_types_counterexample :
  JSON.TChan <> JSON.TStruct [] /\ isEmptyType JSON.TChan = false /\
  Co (NewCodecJSON JSON.TChan) (JSON.VChan 0) [] = (Err json_UnsupportedTypeError, []).
Proof.
  split; [discriminate|]. split; reflexivity.
Qed.





(** ** Server *)

(** C7: when the decoded request implements [Validable] and [Validate()]
    fails, the handler answers 400 (Bad Request) with the plain-text body
    of [http.Error], logs, and never invokes the procedure: the trace ends
    with the log line right after decoding, and the outcome is the same
    for every procedure. *)
Theorem invalid_request_never_reaches_procedure
    (e : Endpoint) (validate : Validator) (p : Procedure) (hReq : inbound)
    (tr tr1 : list event) (v : JSON.goval) (err : error)
    (HDec : Dec (reqc e) (if stateChanging e then in_body hReq else NewReader (in_query hReq)) tr
            = (Ok v, tr1))
    (HVal : validate v = Some (Some err)) :
  handler e validate p hReq tr =
    (Responded {| status := StatusBadRequest;
                  resp_content_type := s2b "text/plain; charset=utf-8";
                  resp_body := s2b "Invalid request." ++ [10] |},
     tr1 ++ [EvLog LevelInfo "Invalid request"]) /\
  (forall p', handler e validate p' hReq tr = handler e validate p hReq tr).
Proof.
  assert (H : forall q, handler e validate q hReq tr =
    (Responded {| status := StatusBadRequest;
                  resp_content_type := s2b "text/plain; charset=utf-8";
                  resp_body := s2b "Invalid request." ++ [10] |},
     tr1 ++ [EvLog LevelInfo "Invalid request"])).
  { intros q. unfold handler, bind. rewrite HDec. rewrite HVal. reflexivity. }
  split; [apply H|]. intros p'. rewrite !H. reflexivity.
Qed.

Lemma invalid_request_never_reaches_procedure_witness :
  handler ex_post (fun _ => Some (Some (EText (s2b "bad"))))
          (fun v => Ok v) (ex_in (s2b "{}")) [] =
    (Responded {| status := StatusBadRequest;
                  resp_content_type := s2b "text/plain; charset=utf-8";
                  resp_body := s2b "Invalid request." ++ [10] |},
     [EvRead 1; EvLog LevelInfo "Invalid request"]).
Proof.
  apply (proj1 (invalid_request_never_reaches_procedure ex_post
           (fun _ => Some (Some (EText (s2b "bad")))) (fun v => Ok v) (ex_in (s2b "{}")) []
           [EvRead 1] (JSON.VStruct [JSON.VString []; JSON.VBool false]) (EText (s2b "bad"))
           ltac:(vm_compute; reflexivity) eq_refl)).
Defined.

(** ** Client *)

(** C8: when the response has status 200 but its Content-Type header is
    not exactly the response codec's [ContentType], the call returns the
    zero value and an error (the Content-Type error, possibly joined with
    close errors by the deferred functions), and the body is not decoded:
    the call behaves the same whatever the codec's decoding function is. *)
Theorem content_type_mismatch_is_an_error (net : Network) (e : Endpoint) (conn : Transport)
    (req : JSON.goval) (tr tr1 tr2 : list event) (su : stream) (hReq : http_Request)
    (hResp : http_Response)
    (HCo : Co (reqc e) req tr = (Ok su, tr1))
    (HCtor : reqCtor e (origin conn ++ path e) su tr1 = (Ok hReq, tr2))
    (HNet : net (client conn) (setHeaders e conn hReq) = Ok hResp)
    (HOK : StatusCode hResp = StatusOK)
    (HCT : ContentTypeHeader hResp <> ContentType (resc e)) :
  fst (fst (Remote net e conn req tr)) = JSON.zero (ResponseT e) /\
  (exists err, snd (fst (Remote net e conn req tr)) = Some err /\
     JoinedInto (EFmt "Content-Type: want %q got %q"
                      [ContentType (resc e); ContentTypeHeader hResp] []) err) /\
  (forall dec, Remote net (with_response_Dec e dec) conn req tr = Remote net e conn req tr).
Proof.
  assert (Hdr : forall e' tr', ResponseT e' = ResponseT e -> resc e' = resc e \/ ContentType (resc e') = ContentType (resc e) ->
    decodeResponse e' hResp tr' =
      ((JSON.zero (ResponseT e), Some (EFmt "Content-Type: want %q got %q"
                      [ContentType (resc e'); ContentTypeHeader hResp] [])), tr')).
  { intros e' tr' HT HC. unfold decodeResponse. rewrite HOK, HT. simpl.
    assert (Hb : bytes_eqb (ContentTypeHeader hResp) (ContentType (resc e')) = false).
    { unfold bytes_eqb. destruct (list_eq_dec Z.eq_dec _ _) as [Heq|]; [|reflexivity].
      exfalso. apply HCT. rewrite Heq. destruct HC as [->| ->]; reflexivity. }
    rewrite Hb. reflexivity. }
  rewrite (Remote_reaches net e conn req tr su tr1 hReq tr2 hResp HCo HCtor HNet).
  rewrite (Hdr e _ eq_refl (or_introl eq_refl)).
  split; [|split].
  - destruct (closeRequest _ _ _ _) as [err1 tr5]. destruct (closeBody _ _ _ _). reflexivity.
  - destruct (closeRequest_joined e su (EFmt "Content-Type: want %q got %q"
                      [ContentType (resc e); ContentTypeHeader hResp] [])
                (EFmt "Content-Type: want %q got %q"
                      [ContentType (resc e); ContentTypeHeader hResp] [])
                (snd (Do net (client conn) (setHeaders e conn hReq) tr2)) (JI_self _))
      as [err1 [H1 J1]].
    destruct (closeRequest _ _ _ _) as [err1' tr5]. simpl in H1. subst err1'.
    destruct (closeBody_joined e hResp _ err1 tr5 J1) as [err2 [H2 J2]].
    destruct (closeBody _ _ _ _) as [err2' tr6]. simpl in H2. subst err2'.
    exists err2. split; [reflexivity|exact J2].
  - intros dec.
    rewrite (Remote_reaches net (with_response_Dec e dec) conn req tr su tr1 hReq tr2 hResp
               HCo HCtor HNet).
    rewrite (Hdr (with_response_Dec e dec) _ eq_refl (or_intror eq_refl)).
    reflexivity.
Qed.


Lemma content_type_mismatch_is_an_error_witness :
  Remote (ex_net 200 (s2b "text/html") (s2b "{}")) ex_post ex_conn ex_req [] =
  Remote (ex_net 200 (s2b "text/html") (s2b "{}"))
         (with_response_Dec ex_post (fun _ => ret (Err io_EOF))) ex_conn ex_req [].
Proof.
  symmetry.
  apply (proj2 (proj2 (content_type_mismatch_is_an_error
    (ex_net 200 (s2b "text/html") (s2b "{}")) ex_post ex_conn ex_req [] [] []
    (NewReader (JSON.marshal ex_T ex_req))
    {| rq_method := s2b "POST"; rq_url := s2b "http://example.com/foo";
       rq_body := Some (NewReader (JSON.marshal ex_T ex_req));
       rq_content_type := []; rq_cookies := [] |}
    {| StatusCode := 200; ContentTypeHeader := s2b "text/html";
       Body := mkStream 2 (s2b "{}") None None |}
    ltac:(vm_compute; reflexivity) ltac:(vm_compute; reflexivity) eq_refl eq_refl
    ltac:(vm_compute; discriminate)))).
Defined.

(** C1 (as amended): the request of a client call is built in one of two
    ways, chosen by [stateChanging], which [NewEndpoint] sets to "the method
    is none of GET, OPTIONS, HEAD".  When [stateChanging] is true, the
    encoded stream is the body of a request to [origin + path], nothing
    read and no query added.  When it is false, the whole encoded request
    is read (one read of the stream), and the request has no body and the
    URL [origin + path + "?srpc=" + QueryEscape(data)].  When [origin +
    path] holds neither '#' nor '?', that URL parses as the URL of [origin
    + path] with the raw query "srpc=" followed by the escaped data, whose
    [srpc] parameter is the data.  Setting the headers keeps URL and
    body. *)
Theorem request_mode_by_method (Response Request : JSON.gotype) (meth pth : bytes)
    (rc qc : Codec) (e : Endpoint) (conn : Transport) (su : stream)
    (tr tr' : list event) (hReq : http_Request)
    (HE : NewEndpoint Response Request meth pth rc qc = Some e)
    (HCtor : reqCtor e (origin conn ++ path e) su tr = (Ok hReq, tr')) :
  stateChanging e = negb (bytes_eqb meth MethodGet) && negb (bytes_eqb meth MethodOptions) &&
                    negb (bytes_eqb meth MethodHead) /\
  path e = pth /\
  rq_url (setHeaders e conn hReq) = rq_url hReq /\
  rq_body (setHeaders e conn hReq) = rq_body hReq /\
  (if stateChanging e
   then rq_url hReq = origin conn ++ pth /\ rq_body hReq = Some su /\ tr' = tr
   else rq_url hReq = origin conn ++ pth ++ s2b "?" ++ QueryKey ++ s2b "=" ++ URL.QueryEscape (sdata su) /\
        rq_body hReq = None /\ tr' = tr ++ [EvRead (sid su)] /\
        (all_bytes (sdata su) = true -> ~ In 35 (origin conn ++ pth) -> ~ In 63 (origin conn ++ pth) ->
         exists u, URL.Parse (origin conn ++ pth) = Some u /\
           URL.Parse (rq_url hReq) = Some (with_query (QueryKey ++ s2b "=" ++ URL.QueryEscape (sdata su)) u) /\
           Query_Get (QueryKey ++ s2b "=" ++ URL.QueryEscape (sdata su)) QueryKey = sdata su)).
Proof.
  unfold NewEndpoint in HE.
  destruct (HasPrefix pth (s2b "/")) eqn:Hpre; [|discriminate].
  injection HE as <-. simpl in HCtor |- *.
  split; [reflexivity|]. split; [reflexivity|]. split; [reflexivity|]. split; [reflexivity|].
  unfold reqCtor in HCtor. simpl in HCtor.
  destruct (negb (bytes_eqb meth MethodGet) && negb (bytes_eqb meth MethodOptions) &&
            negb (bytes_eqb meth MethodHead)).
  - unfold ret, NewRequestWithContext in HCtor.
    destruct (negb (validMethod _)); [discriminate|].
    destruct (URL.Parse _); [|discriminate].
    injection HCtor as <- <-. simpl. auto.
  - unfold ReadAll, bind, emit, ret in HCtor. simpl in HCtor.
    destruct (sreaderr su); [discriminate|].
    unfold NewRequestWithContext in HCtor.
    destruct (negb (validMethod _)); [discriminate|].
    destruct (URL.Parse _) as [x|] eqn:HP; [|discriminate].
    injection HCtor as <- <-. simpl.
    rewrite <- !app_assoc. split; [reflexivity|]. split; [reflexivity|]. split; [reflexivity|].
    intros Hb H35 H63.
    destruct (Loopback.query_safe (sdata su) Hb) as [Hq Hq35].
    rewrite app_assoc.
    change (115 :: 114 :: 112 :: 99 :: 61 :: URL.QueryEscape (sdata su))
      with ([115; 114; 112; 99; 61] ++ URL.QueryEscape (sdata su)) in HP |- *.
    rewrite Loopback.Parse_query in HP |- *
      by (exact (Loopback.url_not_star _ _ Hpre) || assumption).
    destruct (URL.Parse (origin conn ++ pth)) as [u|]; [|discriminate].
    exists u. split; [reflexivity|]. split; [reflexivity|].
    apply Loopback.Query_Get_srpc. exact Hb.
Qed.

Lemma request_mode_by_method_witness :
  rq_url {| rq_method := s2b "GET"; rq_url := s2b "http://example.com/foo?srpc=%7B%7D";
            rq_body := None; rq_content_type := []; rq_cookies := [] |}
  = origin ex_conn ++ s2b "/foo" ++ s2b "?" ++ QueryKey ++ s2b "=" ++ URL.QueryEscape (s2b "{}").
Proof.
  pose proof (request_mode_by_method ex_T ex_T (s2b "GET") (s2b "/foo")
     (NewCodecJSON ex_T) (NewCodecJSON ex_T)
     {| ResponseT := ex_T; RequestT := ex_T; method := s2b "GET"; path := s2b "/foo";
        stateChanging := false; resc := NewCodecJSON ex_T; reqc := NewCodecJSON ex_T |}
     ex_conn (mkStream 3 (s2b "{}") None None) [] [EvRead 3]
     {| rq_method := s2b "GET"; rq_url := s2b "http://example.com/foo?srpc=%7B%7D";
        rq_body := None; rq_content_type := []; rq_cookies := [] |}
     eq_refl ltac:(vm_compute; reflexivity)) as H.
  exact (proj1 (proj2 (proj2 (proj2 (proj2 H))))).
Defined.

(** C1 fails as stated for the paths [NewEndpoint] accepts that hold a '#'
    or a '?'.  For the GET path "/a#b" the query text lands in the
    fragment of the URL, which is not sent, and the request has no [srpc]
    parameter and no body; for the GET path "/a?x=1" the raw query is
    "x=1?srpc=%7B%7D", which has no [srpc] parameter either. *)
Lemma request_mode_by_method_counterexample :
  (exists e, NewEndpoint ex_T ex_T (s2b "GET") (s2b "/a#b") (NewCodecJSON ex_T) (NewCodecJSON ex_T)
               = Some e /\
     reqCtor e (origin ex_conn ++ path e) (NewReader (s2b "{}")) [] =
       (Ok {| rq_method := s2b "GET"; rq_url := s2b "http://example.com/a#b?srpc=%7B%7D";
              rq_body := None; rq_content_type := []; rq_cookies := [] |}, [EvRead 0])) /\
  option_map (fun u => (URL.Path u, URL.RawQuery u, URL.Fragment u))
    (URL.Parse (s2b "http://example.com/a#b?srpc=%7B%7D")) =
    Some (s2b "/a", [], s2b "b?srpc={}") /\
  option_map (fun u => Query_Get (URL.RawQuery u) QueryKey)
    (URL.Parse (s2b "http://example.com/a#b?srpc=%7B%7D")) = Some [] /\
  (exists e, NewEndpoint ex_T ex_T (s2b "GET") (s2b "/a?x=1") (NewCodecJSON ex_T) (NewCodecJSON ex_T)
               = Some e /\
     reqCtor e (origin ex_conn ++ path e) (NewReader (s2b "{}")) [] =
       (Ok {| rq_method := s2b "GET"; rq_url := s2b "http://example.com/a?x=1?srpc=%7B%7D";
              rq_body := None; rq_content_type := []; rq_cookies := [] |}, [EvRead 0])) /\
  option_map (fun u => (URL.RawQuery u, Query_Get (URL.RawQuery u) QueryKey))
    (URL.Parse (s2b "http://example.com/a?x=1?srpc=%7B%7D")) =
    Some (s2b "x=1?srpc=%7B%7D", []).
Proof.
  split; [eexists; split; [reflexivity|vm_compute; reflexivity]|].
  split; [vm_compute; reflexivity|].
  split; [vm_compute; reflexivity|].
  split; [eexists; split; [reflexivity|vm_compute; reflexivity]|].
  vm_compute; reflexivity.
Qed.

(** ** Server errors *)

Lemma handler_procedure_error e validate p hReq tr v tr1 err
    (HDec : Dec (reqc e) (if stateChanging e then in_body hReq else NewReader (in_query hReq)) tr
            = (Ok v, tr1))
    (HVal : forall x, validate v <> Some (Some x))
    (HP : p v = Err err) :
  fst (handler e validate p hReq tr) =
    (let '(st, msg) := match asErrorResponse err with
                       | Some (st, m) => (st, m)
                       | None => (StatusBadRequest, [])
                       end in
     http_Error (match msg with [] => StatusText st | _ => msg end) st).
Proof.
  unfold handler, bind. rewrite HDec.
  destruct (validate v) as [[x|]|] eqn:Hv; [exfalso; exact (HVal x eq_refl)| |];
    simpl; rewrite HP; destruct (asErrorResponse err) as [[st m]|]; reflexivity.
Qed.

(** C2 (as amended): when the procedure fails with [err], the handler
    answers with [http.Error], which writes the message followed by a
    newline: when [err] implements [ErrorResponse] with status 404 and
    message "missing", the response has status 404, the plain-text content
    type and the body "missing\n"; when [err] does not implement it, status
    400 (Bad Request) and the body "Bad Request\n". *)
Theorem procedure_error_response (e : Endpoint) (validate : Validator) (p : Procedure)
    (hReq : inbound) (tr tr1 : list event) (v : JSON.goval) (err : error)
    (HDec : Dec (reqc e) (if stateChanging e then in_body hReq else NewReader (in_query hReq)) tr
            = (Ok v, tr1))
    (HVal : forall x, validate v <> Some (Some x))
    (HP : p v = Err err) :
  (asErrorResponse err = Some (404, s2b "missing") ->
     fst (handler e validate p hReq tr) =
       Responded {| status := 404; resp_content_type := s2b "text/plain; charset=utf-8";
                    resp_body := s2b "missing" ++ [10] |}) /\
  (asErrorResponse err = None ->
     fst (handler e validate p hReq tr) =
       Responded {| status := StatusBadRequest; resp_content_type := s2b "text/plain; charset=utf-8";
                    resp_body := s2b "Bad Request" ++ [10] |}).
Proof.
  rewrite (handler_procedure_error e validate p hReq tr v tr1 err HDec HVal HP).
  split.
  - intros H. rewrite H. reflexivity.
  - intros H. rewrite H. reflexivity.
Qed.

Lemma procedure_error_response_witness :
  fst (handler ex_post (fun _ => None)
         (fun _ => Err (EApp (s2b "not found") (Some (404, s2b "missing"))))
         (ex_in (s2b "{}")) []) =
  Responded {| status := 404; resp_content_type := s2b "text/plain; charset=utf-8";
               resp_body := s2b "missing" ++ [10] |}.
Proof.
  apply (proj1 (procedure_error_response ex_post (fun _ => None)
           (fun _ => Err (EApp (s2b "not found") (Some (404, s2b "missing"))))
           (ex_in (s2b "{}")) [] [EvRead 1] (JSON.VStruct [JSON.VString []; JSON.VBool false])
           (EApp (s2b "not found") (Some (404, s2b "missing")))
           ltac:(vm_compute; reflexivity) ltac:(intros x; discriminate) eq_refl)).
  reflexivity.
Defined.

(** C2 fails as stated: the body [http.Error] writes for the message
    "missing" is "missing" followed by a newline, not "missing". *)
Lemma procedure_error_response_counterexample :
  fst (handler ex_post (fun _ => None)
         (fun _ => Err (EApp (s2b "not found") (Some (404, s2b "missing"))))
         (ex_in (s2b "{}")) []) =
  Responded {| status := 404; resp_content_type := s2b "text/plain; charset=utf-8";
               resp_body := s2b "missing" ++ [10] |} /\
  s2b "missing" ++ [10] <> s2b "missing".
Proof.
  split; [vm_compute; reflexivity | discriminate].
Qed.

(** ** Client status and cleanup *)

Lemma decodeResponse_non_ok e hResp tr (HS : StatusCode hResp <> StatusOK) :
  exists tr', decodeResponse e hResp tr =
    ((JSON.zero (ResponseT e),
      Some (match sreaderr (Body hResp) with
            | None => EWire (sdata (Body hResp)) (StatusCode hResp)
            | Some rerr => EFmt "read response body: %w" [] [rerr]
            end)), tr').
Proof.
  unfold decodeResponse.
  replace (StatusCode hResp =? StatusOK) with false by (symmetry; apply Z.eqb_neq; exact HS).
  simpl. unfold readErr, ReadAll, bind, emit, ret, Close.
  destruct (sreaderr (Body hResp)); simpl; eexists; reflexivity.
Qed.

Lemma closeRequest_clean e su err tr
    (H : KeepOpen (reqc e) = true \/ forall f, scloser su = Some f -> forall n, f n = None) :
  fst (closeRequest e su err tr) = err.
Proof.
  unfold closeRequest, bind, Close, ret.
  destruct H as [H|H].
  - rewrite H. reflexivity.
  - destruct (negb (KeepOpen (reqc e))); [|reflexivity].
    destruct (scloser su) as [f|] eqn:Hs; [|reflexivity]. simpl.
    rewrite (H f eq_refl). reflexivity.
Qed.

Lemma closeBody_clean e hResp err tr
    (H : KeepOpen (resc e) = true \/ forall f, scloser (Body hResp) = Some f -> forall n, f n = None) :
  fst (closeBody e hResp err tr) = err.
Proof.
  unfold closeBody, bind, Close, ret.
  destruct H as [H|H].
  - rewrite H. reflexivity.
  - destruct (negb (KeepOpen (resc e))); [|reflexivity].
    destruct (scloser (Body hResp)) as [f|] eqn:Hs; simpl; [|reflexivity].
    rewrite (H f eq_refl). reflexivity.
Qed.

(** C4: a call whose response has a status other than 200 returns the
    zero value and an error.  That error is the one [readErr] builds,
    possibly joined with close errors by the deferred functions: a
    [WireError] with the whole body as message and the status as code
    when the body can be read, the wrapped read error when it cannot.
    When no deferred close reports an error, it is exactly that error. *)
Theorem non_ok_status_is_an_error (net : Network) (e : Endpoint) (conn : Transport)
    (req : JSON.goval) (tr tr1 tr2 : list event) (su : stream) (hReq : http_Request)
    (hResp : http_Response)
    (HCo : Co (reqc e) req tr = (Ok su, tr1))
    (HCtor : reqCtor e (origin conn ++ path e) su tr1 = (Ok hReq, tr2))
    (HNet : net (client conn) (setHeaders e conn hReq) = Ok hResp)
    (HS : StatusCode hResp <> StatusOK) :
  let base := match sreaderr (Body hResp) with
              | None => EWire (sdata (Body hResp)) (StatusCode hResp)
              | Some rerr => EFmt "read response body: %w" [] [rerr]
              end in
  fst (fst (Remote net e conn req tr)) = JSON.zero (ResponseT e) /\
  exists err, snd (fst (Remote net e conn req tr)) = Some err /\ JoinedInto base err /\
    ((KeepOpen (reqc e) = true \/ forall f, scloser su = Some f -> forall n, f n = None) ->
     (KeepOpen (resc e) = true \/ forall f, scloser (Body hResp) = Some f -> forall n, f n = None) ->
     err = base).
Proof.
  intros base.
  rewrite (Remote_reaches net e conn req tr su tr1 hReq tr2 hResp HCo HCtor HNet).
  destruct (decodeResponse_non_ok e hResp (snd (Do net (client conn) (setHeaders e conn hReq) tr2)) HS)
    as [tr4 Hd].
  rewrite Hd. fold base.
  destruct (closeRequest_joined e su base base tr4 (JI_self _)) as [err1 [H1 J1]].
  pose proof (closeRequest_clean e su (Some base) tr4) as C1.
  destruct (closeRequest e su (Some base) tr4) as [err1' tr5]. simpl in H1, C1. subst err1'.
  destruct (closeBody_joined e hResp base err1 tr5 J1) as [err2 [H2 J2]].
  pose proof (closeBody_clean e hResp (Some err1) tr5) as C2.
  destruct (closeBody e hResp (Some err1) tr5) as [err2' tr6]. simpl in H2, C2. subst err2'.
  split; [reflexivity|]. exists err2. split; [reflexivity|]. split; [exact J2|].
  intros K1 K2. specialize (C1 K1). specialize (C2 K2). congruence.
Qed.

Lemma non_ok_status_is_an_error_witness :
  snd (fst (Remote (ex_net 404 (s2b "text/plain; charset=utf-8") (s2b "missing")) ex_post ex_conn ex_req []))
  = Some (EWire (s2b "missing") 404).
Proof.
  destruct (non_ok_status_is_an_error
    (ex_net 404 (s2b "text/plain; charset=utf-8") (s2b "missing")) ex_post ex_conn ex_req [] [] []
    (NewReader (JSON.marshal ex_T ex_req))
    {| rq_method := s2b "POST"; rq_url := s2b "http://example.com/foo";
       rq_body := Some (NewReader (JSON.marshal ex_T ex_req));
       rq_content_type := []; rq_cookies := [] |}
    {| StatusCode := 404; ContentTypeHeader := s2b "text/plain; charset=utf-8";
       Body := mkStream 2 (s2b "missing") None None |}
    ltac:(vm_compute; reflexivity) ltac:(vm_compute; reflexivity) eq_refl ltac:(discriminate))
    as [_ [err [Herr [_ Hexact]]]].
  rewrite Herr, Hexact; [reflexivity| |].
  - right. intros f Hf. discriminate.
  - right. intros f Hf. discriminate.
Defined.

(** C4 fails as stated: with status 404 and a body whose read fails, the
    call returns the wrapped read error, which is no [WireError] (it does
    not implement [ErrorResponse]). *)
Lemma non_ok_status_is_an_error_counterexample :
  snd (fst (Remote (fun _ _ => Ok {| StatusCode := 404; ContentTypeHeader := [];
                                     Body := mkStream 2 (s2b "miss") (Some (EText (s2b "connection reset"))) None |})
                   ex_post ex_conn ex_req []))
  = Some (EFmt "read response body: %w" [] [EText (s2b "connection reset")]) /\
  asErrorResponse (EFmt "read response body: %w" [] [EText (s2b "connection reset")]) = None.
Proof.
  split; [vm_compute; reflexivity | reflexivity].
Qed.

(** C6, a divergence: for an endpoint whose method does not change state
    (GET, OPTIONS, HEAD), the encoded request stream is read into the
    query and is no request body; when the round trip fails the call
    returns before any deferred function is registered, so the stream is
    never closed, even when its codec does not keep it open and it has a
    [Close] method: after the read and the round trip no event follows. *)
Theorem query_stream_left_open_on_round_trip_error (net : Network) (e : Endpoint)
    (conn : Transport) (req : JSON.goval) (tr tr1 tr2 : list event) (su : stream)
    (hReq : http_Request) (err : error)
    (HSC : stateChanging e = false)
    (HKO : KeepOpen (reqc e) = false)
    (HCl : scloser su <> None)
    (HCo : Co (reqc e) req tr = (Ok su, tr1))
    (HCtor : reqCtor e (origin conn ++ path e) su tr1 = (Ok hReq, tr2))
    (HNet : net (client conn) (setHeaders e conn hReq) = Err err) :
  Remote net e conn req tr =
    ((JSON.zero (ResponseT e), Some (EFmt "issuing request: %w" [] [err])),
     tr1 ++ [EvRead (sid su); EvDo (setHeaders e conn hReq)]).
Proof.
  assert (Hb : rq_body hReq = None /\ tr2 = tr1 ++ [EvRead (sid su)]).
  { unfold reqCtor in HCtor. rewrite HSC in HCtor.
    unfold ReadAll, bind, emit, ret in HCtor. simpl in HCtor.
    destruct (sreaderr su); [discriminate|].
    unfold NewRequestWithContext in HCtor.
    destruct (negb (validMethod _)); [discriminate|].
    destruct (URL.Parse _); [|discriminate].
    injection HCtor as <- <-. split; reflexivity. }
  destruct Hb as [Hb ->].
  unfold Remote. unfold bind at 1. rewrite HCo. cbv beta iota zeta.
  unfold bind at 1. rewrite HCtor. cbv beta iota zeta.
  unfold bind at 1. unfold Do at 1, bind, emit, ret.
  replace (rq_body (setHeaders e conn hReq)) with (None : option stream) by (symmetry; exact Hb).
  cbv beta iota zeta. rewrite HNet. rewrite <- app_assoc. reflexivity.
Qed.

Lemma query_stream_left_open_on_round_trip_error_witness :
  snd (Remote (fun _ _ => Err (EText (s2b "connection refused"))) ex_get ex_conn ex_req [])
  = [EvRead 5; EvDo {| rq_method := s2b "GET"; rq_url := s2b "http://example.com/foo?srpc=%7B%7D";
                       rq_body := None; rq_content_type := s2b "application/json";
                       rq_cookies := [] |}].
Proof.
  rewrite (query_stream_left_open_on_round_trip_error
    (fun _ _ => Err (EText (s2b "connection refused"))) ex_get ex_conn ex_req [] [] [EvRead 5]
    ex_closing_stream
    {| rq_method := s2b "GET"; rq_url := s2b "http://example.com/foo?srpc=%7B%7D";
       rq_body := None; rq_content_type := []; rq_cookies := [] |}
    (EText (s2b "connection refused"))
    eq_refl eq_refl ltac:(discriminate) eq_refl ltac:(vm_compute; reflexivity) eq_refl).
  reflexivity.
Defined.

(** ** Construction-time checks *)

Lemma validMethod_standard m :
  bytes_eqb m MethodGet = true \/ bytes_eqb m MethodOptions = true \/ bytes_eqb m MethodHead = true ->
  validMethod m = true.
Proof.
  unfold bytes_eqb.
  intros [H|[H|H]]; destruct (list_eq_dec Z.eq_dec _ _) as [->|]; try discriminate; reflexivity.
Qed.

(** C9: [NewEndpoint] fails (panics) exactly for the paths that do not
    start with a slash, and [NewTransport] fails exactly for the origins
    that url.Parse rejects or whose scheme is neither http nor https (in
    any case) or whose path or raw query is not empty.  A method that is
    not a valid HTTP token is not checked at construction: the endpoint
    is built, and every call of it fails at request construction with the
    invalid method error, after the request is encoded. *)
Theorem construction_checks (Response Request : JSON.gotype) (meth pth : bytes) (rc qc : Codec) :
  (NewEndpoint Response Request meth pth rc qc = None <-> HasPrefix pth (s2b "/") = false) /\
  (forall origin client cookies,
     (exists err, NewTransport origin client cookies = Err err) <->
     match URL.Parse origin with
     | None => True
     | Some u => (EqualFold (URL.Scheme u) (s2b "http") = false /\
                  EqualFold (URL.Scheme u) (s2b "https") = false) \/
                 URL.Path u <> [] \/ URL.RawQuery u <> []
     end) /\
  (forall e net conn req tr su tr1,
     NewEndpoint Response Request meth pth rc qc = Some e ->
     meth <> [] -> validMethod meth = false ->
     Co (reqc e) req tr = (Ok su, tr1) ->
     Remote net e conn req tr =
       ((JSON.zero Response,
         Some (EFmt "converting request to HTTP: %w" []
                 [EFmt "net/http: invalid method %q" [meth] []])), tr1)).
Proof.
  split; [|split].
  - unfold NewEndpoint. destruct (HasPrefix pth (s2b "/")); simpl; split; congruence.
  - intros origin client cookies. unfold NewTransport.
    destruct (URL.Parse origin) as [u|]; [|split; [tauto|eauto]].
    destruct (EqualFold (URL.Scheme u) (s2b "http")) eqn:E1;
    destruct (EqualFold (URL.Scheme u) (s2b "https")) eqn:E2; simpl;
    unfold bytes_eqb;
    destruct (list_eq_dec Z.eq_dec (URL.Path u) []) as [Hp|Hp];
    destruct (list_eq_dec Z.eq_dec (URL.RawQuery u) []) as [Hq|Hq]; simpl;
    split; intros H;
    solve [ eauto | tauto | destruct H as [? H]; discriminate H
          | destruct H as [[? ?]|[?|?]]; congruence ].
  - intros e net conn req tr su tr1 HE Hm Hv HCo.
    unfold NewEndpoint in HE. destruct (negb (HasPrefix pth (s2b "/"))); [discriminate|].
    injection HE as <-.
    assert (HSC : negb (bytes_eqb meth MethodGet) && negb (bytes_eqb meth MethodOptions) &&
                  negb (bytes_eqb meth MethodHead) = true).
    { destruct (bytes_eqb meth MethodGet) eqn:E1;
      [rewrite validMethod_standard in Hv by auto; discriminate|].
      destruct (bytes_eqb meth MethodOptions) eqn:E2;
      [rewrite validMethod_standard in Hv by auto; discriminate|].
      destruct (bytes_eqb meth MethodHead) eqn:E3;
      [rewrite validMethod_standard in Hv by auto; discriminate|].
      reflexivity. }
    unfold Remote. unfold bind at 1. simpl reqc in HCo |- *. rewrite HCo. cbv beta iota zeta.
    unfold bind at 1. unfold reqCtor. simpl stateChanging. rewrite HSC.
    unfold ret at 1, NewRequestWithContext. simpl method.
    destruct meth as [|c m']; [congruence|].
    cbn [stateChanging method]. cbv beta iota zeta. rewrite Hv. reflexivity.
Qed.

(** C9 fails as stated: an endpoint with the method "G T" and a transport
    for http://example.com are both constructed, and the call then fails
    with a configuration error. *)
Lemma construction_checks_counterexample :
  (exists e, NewEndpointJSON ex_T ex_T (s2b "G T") (s2b "/foo") = Some e /\
     snd (fst (Remote (ex_net 200 (s2b "application/json") (s2b "{}")) e ex_conn ex_req [])) =
       Some (EFmt "converting request to HTTP: %w" []
               [EFmt "net/http: invalid method %q" [s2b "G T"] []])) /\
  NewTransport (s2b "http://example.com") None [] = Ok ex_conn.
Proof.
  split; [|vm_compute; reflexivity].
  eexists. split; [reflexivity|]. vm_compute. reflexivity.
Qed.

(** * The test server, end to end *)

Module Served.
Import Loopback.

Lemma not_in_existsb c l : existsb (Z.eqb c) l = false -> ~ In c l.
Proof.
  intros H Hin. apply not_true_iff_false in H. apply H, existsb_exists.
  exists c. split; [exact Hin|apply Z.eqb_refl].
Qed.

(** The call when the network fails. *)
Lemma Remote_net_err net e conn req tr su tr1 hReq tr2 err
    (HCo : Co (reqc e) req tr = (Ok su, tr1))
    (HCtor : reqCtor e (origin conn ++ path e) su tr1 = (Ok hReq, tr2))
    (HNet : net (client conn) (setHeaders e conn hReq) = Err err) :
  fst (Remote net e conn req tr) =
    (JSON.zero (ResponseT e), Some (EFmt "issuing request: %w" [] [err])).
Proof.
  unfold Remote. unfold bind at 1. rewrite HCo. cbv beta iota zeta.
  unfold bind at 1. rewrite HCtor. cbv beta iota zeta.
  unfold bind at 1.
  pose proof (Do_result net (client conn) (setHeaders e conn hReq) tr2) as HD.
  destruct (Do net (client conn) (setHeaders e conn hReq) tr2) as [r3 tr3]. simpl in HD.
  subst r3. rewrite HNet. reflexivity.
Qed.

(** A call of a JSON endpoint served by [serve]: what the client gets
    follows from the handler's outcome on the decoded request. *)
Lemma serve_call ResT ReqT meth pth e conn validate p v tr
    (HE : NewEndpointJSON ResT ReqT meth pth = Some e)
    (Hmeth : validMethod meth = true)
    (HURL : URL.Parse (origin conn ++ pth) <> None)
    (H35 : ~ In 35 (origin conn ++ pth)) (H63 : ~ In 63 (origin conn ++ pth))
    (HwfQ : wf_type ReqT = true) (Hv : JSON.typed ReqT v = true) :
  exists inb tr3,
    (forall tr', fst (Dec (reqc e) (if stateChanging e then in_body inb else NewReader (in_query inb)) tr')
                 = Ok (decoded ReqT v)) /\
    fst (Remote (serve e validate p) e conn v tr) =
      match fst (handler e validate p inb []) with
      | Panicked => (JSON.zero ResT, Some (EFmt "issuing request: %w" [] [io_EOF]))
      | Responded r =>
          fst (let hResp := {| StatusCode := status r; ContentTypeHeader := resp_content_type r;
                               Body := mkStream ResponseBodyId (resp_body r) None (Some (fun _ => None)) |} in
               let '(res, tr4) := decodeResponse e hResp tr3 in
               let '(resp, err) := res in
               let '(err, tr5) := closeRequest e (if isEmptyType ReqT then empty
                                                  else NewReader (JSON.marshal ReqT v)) err tr4 in
               let '(err, tr6) := closeBody e hResp err tr5 in
               ((resp, err), tr6))
      end.
Proof.
  destruct (NewEndpointJSON_fields _ _ _ _ _ HE) as (Hpre & HRT & HQT & Hm & Hp & Hrc & Hqc & HSC).
  destruct (json_request ResT ReqT meth pth e conn v tr HE Hmeth HURL H35 H63 HwfQ Hv)
    as (hReq & tr2 & HCtor & Hserve).
  destruct (Hserve validate p (client conn)) as (inb & Hs & HDecI).
  exists inb, (snd (Do (serve e validate p) (client conn) (setHeaders e conn hReq) tr2)).
  split; [exact HDecI|].
  assert (HCoQ : Co (reqc e) v tr =
                 (Ok (if isEmptyType ReqT then empty else NewReader (JSON.marshal ReqT v)), tr))
    by (rewrite Hqc; apply Co_json, wf_supported, HwfQ).
  destruct (fst (handler e validate p inb [])) as [r|] eqn:Ho.
  - rewrite (Remote_reaches _ _ _ _ _ _ _ _ _ _ HCoQ HCtor Hs). reflexivity.
  - rewrite (Remote_net_err _ _ _ _ _ _ _ _ _ _ HCoQ HCtor Hs). rewrite HRT. reflexivity.
Qed.

Lemma Dec_at e s x
    (H : forall tr', fst (Dec (reqc e) s tr') = Ok x) :
  exists tr1, Dec (reqc e) s [] = (Ok x, tr1).
Proof.
  specialize (H []). destruct (Dec (reqc e) s []) as [d tr1]. cbn [fst] in H. subst d.
  exists tr1. reflexivity.
Qed.

(** The client's end when the answer is not 200. *)
Lemma client_end_non_ok e su ResT st ct b tr
    (Hrc : resc e = NewCodecJSON ResT) (HRT : ResponseT e = ResT)
    (HK : KeepOpen (reqc e) = false) (Hsu : scloser su = None) (Hst : st <> StatusOK) :
  fst (let hResp := {| StatusCode := st; ContentTypeHeader := ct;
                       Body := mkStream ResponseBodyId b None (Some (fun _ => None)) |} in
       let '(res, tr4) := decodeResponse e hResp tr in
       let '(resp, err) := res in
       let '(err, tr5) := closeRequest e su err tr4 in
       let '(err, tr6) := closeBody e hResp err tr5 in
       ((resp, err), tr6)) = (JSON.zero ResT, Some (EWire b st)).
Proof.
  cbv zeta. unfold decodeResponse. cbn [StatusCode ContentTypeHeader Body].
  replace (st =? StatusOK) with false by (symmetry; apply Z.eqb_neq; exact Hst).
  cbn [negb]. unfold readErr, ReadAll, bind, emit, ret, Close. cbn [sreaderr sdata scloser Body StatusCode].
  unfold closeRequest. rewrite HK, Hsu. cbn [negb]. unfold ret.
  unfold closeBody. rewrite Hrc. cbn [KeepOpen NewCodecJSON negb].
  unfold bind, Close, ret. rewrite HRT. reflexivity.
Qed.

(** The client's end when the answer is 200 with another content type. *)
Lemma client_end_ct e su ResT ct b tr
    (Hrc : resc e = NewCodecJSON ResT) (HRT : ResponseT e = ResT)
    (HK : KeepOpen (reqc e) = false) (Hsu : scloser su = None)
    (Hct : bytes_eqb ct (s2b "application/json") = false) :
  fst (let hResp := {| StatusCode := StatusOK; ContentTypeHeader := ct;
                       Body := mkStream ResponseBodyId b None (Some (fun _ => None)) |} in
       let '(res, tr4) := decodeResponse e hResp tr in
       let '(resp, err) := res in
       let '(err, tr5) := closeRequest e su err tr4 in
       let '(err, tr6) := closeBody e hResp err tr5 in
       ((resp, err), tr6)) =
    (JSON.zero ResT, Some (EFmt "Content-Type: want %q got %q" [s2b "application/json"; ct] [])).
Proof.
  cbv zeta. unfold decodeResponse. cbn [StatusCode ContentTypeHeader Body].
  rewrite Hrc. cbn [ContentType NewCodecJSON]. rewrite Hct.
  change (negb (StatusOK =? StatusOK)) with false. cbn [negb]. unfold ret.
  unfold closeRequest. rewrite HK, Hsu. cbn [negb]. unfold ret.
  unfold closeBody. rewrite Hrc. cbn [KeepOpen NewCodecJSON negb].
  unfold bind, Close, ret. rewrite HRT. reflexivity.
Qed.

Lemma http_Error_final m st : 200 <= st <= 999 ->
  http_Error m st =
    Responded {| status := st; resp_content_type := s2b "text/plain; charset=utf-8";
                 resp_body := if bodyAllowedForStatus st then m ++ [10] else [] |}.
Proof.
  intros H. unfold http_Error.
  replace ((st <? 100) || (999 <? st)) with false
    by (symmetry; apply orb_false_iff; split; apply Z.ltb_ge; lia).
  replace (st <=? 199) with false by (symmetry; apply Z.leb_gt; lia).
  reflexivity.
Qed.

Lemma http_Error_informational m st : st = 200 \/ (100 <= st <= 199 /\ st <> 101) ->
  http_Error m st =
    Responded {| status := StatusOK; resp_content_type := s2b "text/plain; charset=utf-8";
                 resp_body := m ++ [10] |}.
Proof.
  intros [->|[H1 H2]]; [reflexivity|]. unfold http_Error.
  replace ((st <? 100) || (999 <? st)) with false
    by (symmetry; apply orb_false_iff; split; apply Z.ltb_ge; lia).
  replace (st <=? 199) with true by (symmetry; apply Z.leb_le; lia).
  replace (st =? 101) with false by (symmetry; apply Z.eqb_neq; exact H2).
  reflexivity.
Qed.

Lemma http_Error_panics m st : st < 100 \/ 999 < st -> http_Error m st = Panicked.
Proof.
  intros H. unfold http_Error.
  replace ((st <? 100) || (999 <? st)) with true
    by (symmetry; apply orb_true_iff; destruct H; [left|right]; apply Z.ltb_lt; lia).
  reflexivity.
Qed.

Lemma empty_or_reader_closer ReqT v :
  scloser (if isEmptyType ReqT then empty else NewReader (JSON.marshal ReqT v)) = None.
Proof. destruct (isEmptyType ReqT); reflexivity. Qed.

(** The successful call of a JSON endpoint served by [serve]. *)
Lemma served_ok ResT ReqT meth pth e conn validate p v r tr
    (HE : NewEndpointJSON ResT ReqT meth pth = Some e)
    (Hmeth : validMethod meth = true)
    (HURL : URL.Parse (origin conn ++ pth) <> None)
    (H35 : ~ In 35 (origin conn ++ pth)) (H63 : ~ In 63 (origin conn ++ pth))
    (HwfQ : wf_type ReqT = true) (HwfR : wf_type ResT = true)
    (Hv : JSON.typed ReqT v = true)
    (HVal : forall y, validate (decoded ReqT v) <> Some (Some y))
    (HP : p (decoded ReqT v) = Ok r) (Hr : JSON.typed ResT r = true) :
  fst (Remote (serve e validate p) e conn v tr) = (decoded ResT r, None).
Proof.
  destruct (NewEndpointJSON_fields _ _ _ _ _ HE) as (Hpre & HRT & HQT & Hm & Hp & Hrc & Hqc & HSC).
  destruct (serve_call ResT ReqT meth pth e conn validate p v tr HE Hmeth HURL H35 H63 HwfQ Hv)
    as (inb & tr3 & HD & ->).
  destruct (Dec_at _ _ _ HD) as [tr1 HD1].
  assert (HCoR : Co (resc e) r (tr1 ++ [EvInvoke]) =
                 (Ok (if isEmptyType ResT then empty else NewReader (JSON.marshal ResT r)), tr1 ++ [EvInvoke]))
    by (rewrite Hrc; apply Co_json, wf_supported, HwfR).
  rewrite (handler_ok e validate p inb [] _ tr1 r _ _ HD1 HVal HP HCoR).
  rewrite Hrc, json_response_body. cbn [ContentType NewCodecJSON status resp_content_type resp_body].
  apply json_client_end; try assumption.
  - rewrite Hqc. reflexivity.
  - apply empty_or_reader_closer.
Qed.

(** A failing procedure of a JSON endpoint served by [serve]. *)
Lemma served_error ResT ReqT meth pth e conn validate p v tr err st msg
    (HE : NewEndpointJSON ResT ReqT meth pth = Some e)
    (Hmeth : validMethod meth = true)
    (HURL : URL.Parse (origin conn ++ pth) <> None)
    (H35 : ~ In 35 (origin conn ++ pth)) (H63 : ~ In 63 (origin conn ++ pth))
    (HwfQ : wf_type ReqT = true) (Hv : JSON.typed ReqT v = true)
    (HVal : forall y, validate (decoded ReqT v) <> Some (Some y))
    (HP : p (decoded ReqT v) = Err err)
    (HER : asErrorResponse err = Some (st, msg)) (Hst : 200 < st <= 999) :
  fst (Remote (serve e validate p) e conn v tr) =
    (JSON.zero ResT,
     Some (EWire (if bodyAllowedForStatus st
                  then (match msg with [] => StatusText st | _ => msg end) ++ [10] else []) st)).
Proof.
  destruct (NewEndpointJSON_fields _ _ _ _ _ HE) as (Hpre & HRT & HQT & Hm & Hp & Hrc & Hqc & HSC).
  destruct (serve_call ResT ReqT meth pth e conn validate p v tr HE Hmeth HURL H35 H63 HwfQ Hv)
    as (inb & tr3 & HD & ->).
  destruct (Dec_at _ _ _ HD) as [tr1 HD1].
  rewrite (handler_procedure_error e validate p inb [] _ tr1 err HD1 HVal HP), HER.
  rewrite http_Error_final by lia.
  apply client_end_non_ok; try assumption.
  - rewrite Hqc. reflexivity.
  - apply empty_or_reader_closer.
  - unfold StatusOK. lia.
Qed.

Lemma RemoteW_fst net e conn req tr :
  fst (RemoteW net e conn req tr) = snd (fst (Remote net e conn req tr)).
Proof. unfold RemoteW, bind, ret. destruct (Remote net e conn req tr) as [[a b] c]. reflexivity. Qed.

Lemma reqCtor_fresh e u su tr hReq tr' :
  reqCtor e u su tr = (Ok hReq, tr') -> rq_cookies hReq = [] /\ rq_content_type hReq = [].
Proof.
  unfold reqCtor, NewRequestWithContext, ReadAll, bind, emit, ret.
  destruct (stateChanging e).
  - destruct (negb _); [discriminate|]. destruct (URL.Parse _); [|discriminate].
    intros H. injection H as <- _. split; reflexivity.
  - cbn [fst snd]. destruct (sreaderr su); [discriminate|].
    destruct (negb _); [discriminate|]. destruct (URL.Parse _); [|discriminate].
    intros H. injection H as <- _. split; reflexivity.
Qed.

Lemma skipSpace_blank s : forallb JSON.isSpace s = true -> JSON.skipSpace s = [].
Proof.
  induction s as [|c s IH]; [reflexivity|].
  cbn [forallb JSON.skipSpace]. intros H. apply andb_true_iff in H as [Hc Hs].
  rewrite Hc. apply IH, Hs.
Qed.

Lemma skipSpace_app sp s : forallb JSON.isSpace sp = true -> JSON.skipSpace (sp ++ s) = JSON.skipSpace s.
Proof.
  induction sp as [|c sp IH]; [reflexivity|].
  cbn [forallb app JSON.skipSpace]. intros H. apply andb_true_iff in H as [Hc Hs].
  rewrite Hc. apply IH, Hs.
Qed.

Lemma unmarshal_null t : forall cur, JSON.unmarshal t JSON.JNull cur = Some cur.
Proof. induction t; intros cur; cbn [JSON.unmarshal]; try reflexivity. apply IHt. Qed.

End Served.

(** * Further properties *)
Import Loopback Served.











(** A request that does not decode: the handler answers 400 with the body
    "Unable to decode request.\n", logs once and never invokes the
    procedure. *)
Theorem handler_decode_failure e validate p inb tr err tr1
    (HDec : Dec (reqc e) (if stateChanging e then in_body inb else NewReader (in_query inb)) tr
            = (Err err, tr1)) :
  handler e validate p inb tr =
    (Responded {| status := StatusBadRequest;
                  resp_content_type := s2b "text/plain; charset=utf-8";
                  resp_body := s2b "Unable to decode request." ++ [10] |},
     tr1 ++ [EvLog LevelInfo "Bad request"]).
Proof. unfold handler, bind. rewrite HDec. reflexivity. Qed.

Lemma handler_decode_failure_witness :
  handler ex_post (fun _ => None) (fun v => Ok v) (ex_in (s2b "{")) [] =
    (Responded {| status := StatusBadRequest;
                  resp_content_type := s2b "text/plain; charset=utf-8";
                  resp_body := s2b "Unable to decode request." ++ [10] |},
     [EvRead 1; EvLog LevelInfo "Bad request"]).
Proof.
  apply (handler_decode_failure ex_post (fun _ => None) (fun v => Ok v) (ex_in (s2b "{")) []
           io_ErrUnexpectedEOF [EvRead 1]).
  vm_compute. reflexivity.
Defined.

(** A response the response codec cannot encode: after invoking the
    procedure the handler answers 500 with the body "Failed to encode
    response.\n" and logs a warning. *)
Theorem handler_encode_failure e validate p inb tr x tr1 r err tr2
    (HDec : Dec (reqc e) (if stateChanging e then in_body inb else NewReader (in_query inb)) tr
            = (Ok x, tr1))
    (HVal : forall y, validate x <> Some (Some y))
    (HP : p x = Ok r)
    (HCo : Co (resc e) r (tr1 ++ [EvInvoke]) = (Err err, tr2)) :
  handler e validate p inb tr =
    (Responded {| status := StatusInternalServerError;
                  resp_content_type := s2b "text/plain; charset=utf-8";
                  resp_body := s2b "Failed to encode response." ++ [10] |},
     tr2 ++ [EvLog LevelWarn "Encoder Error"]).
Proof.
  unfold handler. unfold bind at 1. rewrite HDec. cbv beta iota.
  destruct (validate x) as [[y|]|] eqn:HV; [exfalso; exact (HVal y eq_refl)| |];
    unfold bind at 1, emit; cbv beta iota; rewrite HP; unfold bind at 1; rewrite HCo;
    reflexivity.
Qed.

Lemma handler_encode_failure_witness :
  handler (match NewEndpointJSON JSON.TChan ex_T (s2b "POST") (s2b "/foo") with
           | Some e => e | None => ex_post end)
          (fun _ => None) (fun _ => Ok (JSON.VChan 1)) (ex_in (s2b "{}")) [] =
    (Responded {| status := StatusInternalServerError;
                  resp_content_type := s2b "text/plain; charset=utf-8";
                  resp_body := s2b "Failed to encode response." ++ [10] |},
     [EvRead 1; EvInvoke; EvLog LevelWarn "Encoder Error"]).
Proof.
  apply (handler_encode_failure
           (match NewEndpointJSON JSON.TChan ex_T (s2b "POST") (s2b "/foo") with
            | Some e => e | None => ex_post end)
           (fun _ => None) (fun _ => Ok (JSON.VChan 1)) (ex_in (s2b "{}")) []
           (JSON.VStruct [JSON.VString []; JSON.VBool false]) [EvRead 1] (JSON.VChan 1)
           json_UnsupportedTypeError [EvRead 1; EvInvoke]).
  - vm_compute. reflexivity.
  - intros y. discriminate.
  - reflexivity.
  - vm_compute. reflexivity.
Defined.

(** The handler of a JSON endpoint whose procedure succeeds answers 200
    with the codec's content type and the JSON encoding of the response
    (no bytes for [struct{}]); the procedure is invoked once, then the
    encoded response is read. *)
Theorem handler_json_success ResT ReqT meth pth e validate p inb tr x tr1 r
    (HE : NewEndpointJSON ResT ReqT meth pth = Some e)
    (HDec : Dec (reqc e) (if stateChanging e then in_body inb else NewReader (in_query inb)) tr
            = (Ok x, tr1))
    (HVal : forall y, validate x <> Some (Some y))
    (HP : p x = Ok r)
    (Hu : JSON.unsupported ResT = false) :
  handler e validate p inb tr =
    (Responded {| status := StatusOK; resp_content_type := s2b "application/json";
                  resp_body := if isEmptyType ResT then [] else JSON.marshal ResT r |},
     tr1 ++ [EvInvoke; EvRead 0]).
Proof.
  destruct (NewEndpointJSON_fields _ _ _ _ _ HE) as (Hpre & HRT & HQT & Hm & Hp & Hrc & Hqc & HSC).
  unfold handler. unfold bind at 1. rewrite HDec. cbv beta iota.
  destruct (validate x) as [[y|]|] eqn:HV; [exfalso; exact (HVal y eq_refl)| |];
    unfold bind at 1, emit; cbv beta iota; rewrite HP; unfold bind at 1;
    rewrite Hrc, (Co_json ResT r _ Hu); cbv beta iota;
    destruct (isEmptyType ResT); unfold bind, emit, ret; cbn; rewrite <- app_assoc; reflexivity.
Qed.

Lemma handler_json_success_witness :
  handler test_Ep (fun _ => None) test_proc
          {| in_body := mkStream 1 [123; 34; 66; 34; 58; 34; 114; 101; 113; 34; 125] None None; in_query := [] |} [] =
    (Responded {| status := StatusOK; resp_content_type := s2b "application/json";
                  resp_body := [123; 34; 65; 34; 58; 34; 114; 101; 115; 112; 114; 101; 113; 34; 125] |},
     [EvRead 1; EvInvoke; EvRead 0]).
Proof.
  apply (handler_json_success Resp_T Req_T (s2b "POST") (s2b "/foo") test_Ep (fun _ => None) test_proc
           {| in_body := mkStream 1 [123; 34; 66; 34; 58; 34; 114; 101; 113; 34; 125] None None; in_query := [] |} []
           (JSON.VStruct [JSON.VString (s2b "req")]) [EvRead 1]
           (JSON.VStruct [JSON.VString (s2b "respreq")])).
  - reflexivity.
  - vm_compute. reflexivity.
  - intros y. discriminate.
  - reflexivity.
  - reflexivity.
Defined.

(** [json.Decoder.Decode] on a source holding nothing but white space
    fails with the source's read error, or with [io.EOF] when the source
    simply ends; it reads the source once. *)
Theorem json_decode_blank t s tr (Hs : forallb JSON.isSpace (sdata s) = true) :
  json_Decode t s tr =
    (Err (match sreaderr s with Some e => e | None => io_EOF end), tr ++ [EvRead (sid s)]).
Proof.
  unfold json_Decode, bind, emit, ret. cbn [JSON.parse_value].
  rewrite (skipSpace_blank _ Hs). destruct (sreaderr s); reflexivity.
Qed.

Lemma json_decode_blank_witness :
  json_Decode Req_T (mkStream 1 [32; 10; 9] None None) [] = (Err io_EOF, [EvRead 1]).
Proof. exact (json_decode_blank Req_T (mkStream 1 [32; 10; 9] None None) [] eq_refl). Defined.









(** A request the request codec cannot encode: the call returns the zero
    value and the wrapped error at once; nothing is sent, read or closed. *)
Theorem remote_encode_failure net e conn req tr err tr1
    (HCo : Co (reqc e) req tr = (Err err, tr1)) :
  Remote net e conn req tr =
    ((JSON.zero (ResponseT e), Some (EFmt "encoding request: %w" [] [err])), tr1).
Proof. unfold Remote, bind. rewrite HCo. reflexivity. Qed.

Lemma remote_encode_failure_witness :
  Remote (ex_net 200 (s2b "application/json") (s2b "{}"))
         (match NewEndpointJSON ex_T JSON.TChan (s2b "POST") (s2b "/foo") with
          | Some e => e | None => ex_post end)
         ex_conn (JSON.VChan 1) [] =
    ((JSON.zero ex_T, Some (EFmt "encoding request: %w" [] [json_UnsupportedTypeError])), []).
Proof.
  exact (remote_encode_failure (ex_net 200 (s2b "application/json") (s2b "{}"))
           (match NewEndpointJSON ex_T JSON.TChan (s2b "POST") (s2b "/foo") with
            | Some e => e | None => ex_post end)
           ex_conn (JSON.VChan 1) [] json_UnsupportedTypeError [] eq_refl).
Defined.

(** A request that cannot be turned into an HTTP request (an invalid
    method, an unparsable URL, a query stream that fails to read): the
    call returns the zero value and the wrapped error without sending
    anything. *)
Theorem remote_request_build_failure net e conn req tr su tr1 err tr2
    (HCo : Co (reqc e) req tr = (Ok su, tr1))
    (HCtor : reqCtor e (origin conn ++ path e) su tr1 = (Err err, tr2)) :
  Remote net e conn req tr =
    ((JSON.zero (ResponseT e), Some (EFmt "converting request to HTTP: %w" [] [err])), tr2).
Proof.
  unfold Remote. unfold bind at 1. rewrite HCo. cbv beta iota zeta.
  unfold bind at 1. rewrite HCtor. reflexivity.
Qed.

Lemma remote_request_build_failure_witness :
  Remote (ex_net 200 (s2b "application/json") (s2b "{}"))
         (match NewEndpointJSON ex_T ex_T (s2b "BAD METHOD") (s2b "/foo") with
          | Some e => e | None => ex_post end)
         ex_conn ex_req [] =
    ((JSON.zero ex_T,
      Some (EFmt "converting request to HTTP: %w" []
                 [EFmt "net/http: invalid method %q" [s2b "BAD METHOD"] []])), []).
Proof.
  apply (remote_request_build_failure (ex_net 200 (s2b "application/json") (s2b "{}"))
           (match NewEndpointJSON ex_T ex_T (s2b "BAD METHOD") (s2b "/foo") with
            | Some e => e | None => ex_post end)
           ex_conn ex_req [] (NewReader (JSON.marshal ex_T ex_req)) []
           (EFmt "net/http: invalid method %q" [s2b "BAD METHOD"] []) []).
  - reflexivity.
  - vm_compute. reflexivity.
Defined.

(** The request the client sends carries the request codec's content type
    and exactly the transport's cookies, at the URL [reqCtor] built; what
    the call returns depends on the network only through its answer to
    that request. *)
Theorem remote_request_headers net net' e conn req tr su tr1 hReq tr2
    (HCo : Co (reqc e) req tr = (Ok su, tr1))
    (HCtor : reqCtor e (origin conn ++ path e) su tr1 = (Ok hReq, tr2)) :
  rq_content_type (setHeaders e conn hReq) = ContentType (reqc e) /\
  rq_cookies (setHeaders e conn hReq) = cookies conn /\
  rq_url (setHeaders e conn hReq) = rq_url hReq /\
  rq_method (setHeaders e conn hReq) = rq_method hReq /\
  (net' (client conn) (setHeaders e conn hReq) = net (client conn) (setHeaders e conn hReq) ->
   Remote net' e conn req tr = Remote net e conn req tr).
Proof.
  destruct (reqCtor_fresh _ _ _ _ _ _ HCtor) as [Hc _].
  split; [reflexivity|]. split; [cbn [setHeaders rq_cookies]; rewrite Hc; reflexivity|].
  split; [reflexivity|]. split; [reflexivity|].
  intros Hn. unfold Remote, Do, bind, emit, ret. rewrite HCo. cbv beta iota zeta.
  rewrite HCtor. cbv beta iota zeta. rewrite Hn. reflexivity.
Qed.

Lemma remote_request_headers_witness :
  rq_content_type (setHeaders ex_post
                     {| origin := s2b "http://example.com"; client := DefaultClient;
                        cookies := [s2b "session=1"] |}
                     {| rq_method := s2b "POST"; rq_url := s2b "http://example.com/foo";
                        rq_body := Some (NewReader (JSON.marshal ex_T ex_req));
                        rq_content_type := []; rq_cookies := [] |}) = s2b "application/json" /\
  rq_cookies (setHeaders ex_post
                {| origin := s2b "http://example.com"; client := DefaultClient;
                   cookies := [s2b "session=1"] |}
                {| rq_method := s2b "POST"; rq_url := s2b "http://example.com/foo";
                   rq_body := Some (NewReader (JSON.marshal ex_T ex_req));
                   rq_content_type := []; rq_cookies := [] |}) = [s2b "session=1"].
Proof.
  destruct (remote_request_headers (ex_net 200 (s2b "application/json") (s2b "{}"))
              (ex_net 200 (s2b "application/json") (s2b "{}")) ex_post
              {| origin := s2b "http://example.com"; client := DefaultClient;
                 cookies := [s2b "session=1"] |}
              ex_req [] (NewReader (JSON.marshal ex_T ex_req)) []
              {| rq_method := s2b "POST"; rq_url := s2b "http://example.com/foo";
                 rq_body := Some (NewReader (JSON.marshal ex_T ex_req));
                 rq_content_type := []; rq_cookies := [] |} []
              ltac:(reflexivity) ltac:(vm_compute; reflexivity)) as (H1 & H2 & _).
  split; [exact H1|exact H2].
Defined.

(** What [NewTransport] guarantees of the transport it returns: it keeps
    the origin and the cookies, substitutes [http.DefaultClient] for a nil
    client, and the origin parses with scheme http or https (in any case)
    and no path and no query. *)
Theorem new_transport_checks o c k t (H : NewTransport o c k = Ok t) :
  origin t = o /\ cookies t = k /\
  client t = match c with Some cl => cl | None => DefaultClient end /\
  exists u, URL.Parse o = Some u /\
    (EqualFold (URL.Scheme u) (s2b "http") || EqualFold (URL.Scheme u) (s2b "https")) = true /\
    URL.Path u = [] /\ URL.RawQuery u = [].
Proof.
  unfold NewTransport in H. destruct (URL.Parse o) as [u|]; [|discriminate].
  destruct (negb (EqualFold (URL.Scheme u) (s2b "http")) &&
            negb (EqualFold (URL.Scheme u) (s2b "https"))) eqn:Hs; [discriminate|].
  destruct (negb (bytes_eqb (URL.Path u) [])) eqn:Hp; [discriminate|].
  destruct (negb (bytes_eqb (URL.RawQuery u) [])) eqn:Hq; [discriminate|].
  injection H as <-. split; [reflexivity|]. split; [reflexivity|]. split; [reflexivity|].
  exists u. split; [reflexivity|]. split.
  - destruct (EqualFold (URL.Scheme u) (s2b "http")), (EqualFold (URL.Scheme u) (s2b "https"));
      reflexivity || discriminate.
  - apply negb_false_iff, RoundTrip.bytes_eqb_spec in Hp.
    apply negb_false_iff, RoundTrip.bytes_eqb_spec in Hq. split; assumption.
Qed.

Lemma new_transport_checks_witness :
  origin test_conn = s2b "http://127.0.0.1:8080" /\ client test_conn = DefaultClient.
Proof.
  destruct (new_transport_checks (s2b "http://127.0.0.1:8080") None [] test_conn
              ltac:(vm_compute; reflexivity)) as (H1 & _ & H3 & _).
  split; [exact H1|exact H3].
Defined.

(** A response that decodes but whose body fails to close: the call
    returns the decoded value together with the close error (joined). *)
Theorem body_close_error_after_success net e conn req tr su tr1 hReq tr2 hResp x c f
    (HCo : Co (reqc e) req tr = (Ok su, tr1))
    (HCtor : reqCtor e (origin conn ++ path e) su tr1 = (Ok hReq, tr2))
    (HNet : net (client conn) (setHeaders e conn hReq) = Ok hResp)
    (HS : StatusCode hResp = StatusOK)
    (HCT : bytes_eqb (ContentTypeHeader hResp) (ContentType (resc e)) = true)
    (HDec : forall tr', fst (Dec (resc e) (Body hResp) tr') = Ok x)
    (HKq : KeepOpen (reqc e) = true \/ scloser su = None)
    (HKr : KeepOpen (resc e) = false)
    (HCl : scloser (Body hResp) = Some f) (Hf : forall n, f n = Some c) :
  fst (Remote net e conn req tr) = (x, Some (EJoin [c])).
Proof.
  rewrite (Remote_reaches _ _ _ _ _ _ _ _ _ _ HCo HCtor HNet).
  generalize (snd (Do net (client conn) (setHeaders e conn hReq) tr2)) as tr3. intros tr3.
  unfold decodeResponse. rewrite HS, HCT.
  change (negb (StatusOK =? StatusOK)) with false. cbn [negb].
  unfold bind at 1. specialize (HDec tr3).
  destruct (Dec (resc e) (Body hResp) tr3) as [d tr4]. cbn [fst] in HDec. subst d.
  unfold ret. cbv beta iota.
  assert (HcR : fst (closeRequest e su None tr4) = None).
  { apply closeRequest_clean. destruct HKq as [H|H]; [left; exact H|right; intros g Hg; congruence]. }
  destruct (closeRequest e su None tr4) as [err5 tr5]. cbn [fst] in HcR. subst err5.
  unfold closeBody. rewrite HKr. cbn [negb]. unfold bind, Close, ret. rewrite HCl, Hf. reflexivity.
Qed.

Lemma body_close_error_after_success_witness :
  fst (Remote (fun _ _ => Ok {| StatusCode := 200; ContentTypeHeader := s2b "application/json";
                                Body := mkStream 2 (s2b "{}") None
                                          (Some (fun _ => Some (EText (s2b "close failed")))) |})
              ex_post ex_conn ex_req []) =
    (JSON.VStruct [JSON.VString []; JSON.VBool false], Some (EJoin [EText (s2b "close failed")])).
Proof.
  apply (body_close_error_after_success
           (fun _ _ => Ok {| StatusCode := 200; ContentTypeHeader := s2b "application/json";
                             Body := mkStream 2 (s2b "{}") None
                                       (Some (fun _ => Some (EText (s2b "close failed")))) |})
           ex_post ex_conn ex_req [] (NewReader (JSON.marshal ex_T ex_req)) []
           {| rq_method := s2b "POST"; rq_url := s2b "http://example.com/foo";
              rq_body := Some (NewReader (JSON.marshal ex_T ex_req));
              rq_content_type := []; rq_cookies := [] |} []
           {| StatusCode := 200; ContentTypeHeader := s2b "application/json";
              Body := mkStream 2 (s2b "{}") None
                        (Some (fun _ => Some (EText (s2b "close failed")))) |}
           (JSON.VStruct [JSON.VString []; JSON.VBool false]) (EText (s2b "close failed"))
           (fun _ => Some (EText (s2b "close failed")))).
  - reflexivity.
  - vm_compute. reflexivity.
  - reflexivity.
  - reflexivity.
  - vm_compute. reflexivity.
  - intros tr'. vm_compute. reflexivity.
  - right. reflexivity.
  - reflexivity.
  - reflexivity.
  - intros n. reflexivity.
Defined.
